(** * gocat: the deployment-orchestration core, embedded in Rocq

    The development follows the Go sources: [git.go] (the GitOperator and
    the two OverWrite strategies), the kanvas GitOps plugin
    ([GitOpsPluginKanvas.Prepare]), the auto-deploy watcher
    ([AutoDeploy.checkAndDeploy]) and [SlackListener.toPhase].

    Go code that talks to a library (go-git, go-billy, os, yaml, the kanvas
    client, slack, ECR) is embedded as a program over [Call]s: every library
    call is a node of the program, its answer is supplied by the
    environment, and the answers received are recorded in a trace.  A
    theorem quantified over every environment therefore holds whatever the
    libraries answer. *)

From Stdlib Require Import ZArith Ascii String List Lia.
From stdpp Require Import base option list strings gmap.

Local Open Scope string_scope.
Local Open Scope Z_scope.
Local Open Scope list_scope.

(** ** Go values: errors, integers, strings *)

(** A Go [error].  [ErrVar] is a package-level error variable, which Go code
    compares by identity ([err != git.NoErrAlreadyUpToDate]); [ErrNew] is a
    value made by [errors.New] / [xerrors.New]; [ErrWrap] is
    [fmt.Errorf("<msg>: %w", cause)]; [NumError] is [*strconv.NumError]. *)
Inductive error : Type :=
| ErrVar (name : string)
| ErrNew (msg : string)
| ErrWrap (msg : string) (cause : error)
| NumError (func num : string) (cause : error).

#[global] Instance error_eq_dec : EqDecision error.
Proof. solve_decision. Defined.

Definition NoErrAlreadyUpToDate : error := ErrVar "git.NoErrAlreadyUpToDate".
Definition ErrRepositoryAlreadyExists : error := ErrVar "git.ErrRepositoryAlreadyExists".
Definition ErrSyntax : error := ErrVar "strconv.ErrSyntax".
Definition ErrRange : error := ErrVar "strconv.ErrRange".

(** [err.Error()], as far as the log lines need it: a package-level error
    is shown by its name, and [NumError] leaves its operand unquoted. *)
Fixpoint Error (e : error) : string :=
  match e with
  | ErrVar name => name
  | ErrNew msg => msg
  | ErrWrap msg cause => msg +:+ ": " +:+ Error cause
  | NumError func num cause =>
      "strconv." +:+ func +:+ ": parsing " +:+ num +:+ ": " +:+ Error cause
  end.

(** [errors.Is(err, target)]: [target] is found along the wrap chain. *)
Fixpoint errors_Is (e target : error) : bool :=
  if decide (e = target) then true
  else match e with
       | ErrWrap _ cause => errors_Is cause target
       | NumError _ _ cause => errors_Is cause target
       | _ => false
       end.

(** A Go call returning [(T, error)]: both components are always there. *)
Abbreviation result T := (T * option error)%type.

(** *** strings *)

(** [strings.HasPrefix(s, p)] *)
Fixpoint HasPrefix (s p : string) : bool :=
  match p, s with
  | EmptyString, _ => true
  | String a p', String b s' => if decide (a = b) then HasPrefix s' p' else false
  | String _ _, EmptyString => false
  end.

(** The scan of [strings.ReplaceAll] for a non-empty [old]: left to right,
    non-overlapping; [skip] counts the bytes of a match still to be
    dropped. *)
Fixpoint replace_scan (old new : string) (skip : nat) (s : string) : string :=
  match s with
  | EmptyString => EmptyString
  | String c s' =>
      match skip with
      | S n => replace_scan old new n s'
      | O =>
          if HasPrefix s old
          then new +:+ replace_scan old new (String.length old - 1) s'
          else String c (replace_scan old new O s')
      end
  end.

(** [strings.ReplaceAll(s, old, new)] and [strings.Replace(s, old, new, -1)],
    for the non-empty patterns this program uses. *)
Definition ReplaceAll (s old new : string) : string := replace_scan old new O s.

(** [strings.TrimSuffix(s, suffix)] *)
Definition TrimSuffix (s suffix : string) : string :=
  let n := String.length s in
  let k := String.length suffix in
  if (k <=? n)%nat && String.eqb (String.substring (n - k) k s) suffix
  then String.substring 0 (n - k) s
  else s.

(** *** strconv.Atoi on a 64-bit platform *)

Definition maxUint64 : Z := 2 ^ 64 - 1.
Definition maxInt64 : Z := 2 ^ 63 - 1.
Definition minInt64 : Z := - 2 ^ 63.

Definition digit_of (c : ascii) : option Z :=
  let n := Z.of_nat (nat_of_ascii c) in
  if (48 <=? n) && (n <=? 57) then Some (n - 48) else None.

(** The digit loop of [strconv.ParseUint(s, 10, 64)]: [None] is a syntax
    error; at the first overflow the loop stops with [maxUint64] (a range
    error, which [ParseInt] turns into its own below). *)
Fixpoint ParseUint_loop (s : string) (n : Z) : option Z :=
  match s with
  | EmptyString => Some n
  | String c s' =>
      match digit_of c with
      | None => None
      | Some d =>
          if maxUint64 <? n * 10 + d then Some maxUint64
          else ParseUint_loop s' (n * 10 + d)
      end
  end.

Definition Atoi (s : string) : result Z :=
  let syntax := (0, Some (NumError "Atoi" s ErrSyntax)) in
  let range v := (v, Some (NumError "Atoi" s ErrRange)) in
  match s with
  | EmptyString => syntax
  | String c rest =>
      let neg := bool_decide (c = "-"%char) in
      let body := if neg || bool_decide (c = "+"%char) then rest else s in
      match body with
      | EmptyString => syntax
      | _ =>
          match ParseUint_loop body 0 with
          | None => syntax
          | Some un =>
              if negb neg && (maxInt64 <? un) then range maxInt64
              else if neg && (- minInt64 <? un) then range minInt64
              else (if neg then - un else un, None)
          end
      end
  end.

(** ** The data of the program *)

(** A pointer to a library object ([*git.Repository], [*git.Worktree],
    [billy.File], ...); [nil_handle] is Go's [nil]. *)
Definition handle := nat.
Definition nil_handle : handle := O.

Definition bytes := string.

(** [http.BasicAuth] *)
Record BasicAuth := { Username : string; Password : string }.

(** [GitOperator] (git.go) *)
Record GitOperator := {
  auth : BasicAuth;
  repo : string;
  repository : handle;
  username : string;
  defaultBranch : string;
  gitRoot : string
}.

(** [DeployPhase], [DeployProject], [GitHub], [User]: the fields that
    git.go, the kanvas plugin and the watcher read. *)
Record DeployPhase := {
  Name : string;
  Path : string;
  Kind : string;
  phase_AutoDeploy : bool;
  NotifyChannel : string;
  Destination : handle
}.

Record DeployProject := {
  ID : string;
  gitHubRepository : string;
  Phases : list DeployPhase
}.

Record GitHub := { github_client : handle; org : string }.
Record User := { GitHubNodeID : string }.

Inductive DeployStatus := DeployStatusSuccess | DeployStatusFail | DeployStatusAlready.

(** [GitOpsPrepareOutput]; [withStatus st] is the zero value
    [var o GitOpsPrepareOutput] with [o.status = st]. *)
Record GitOpsPrepareOutput := {
  PullRequestID : string;
  PullRequestNumber : Z;
  PullRequestHTMLURL : string;
  Branch : string;
  status : DeployStatus
}.

Definition withStatus (st : DeployStatus) : GitOpsPrepareOutput :=
  {| PullRequestID := ""; PullRequestNumber := 0; PullRequestHTMLURL := "";
     Branch := ""; status := st |}.

(** kustomize's [types.Image] and [types.Kustomization].  [Others] holds the
    values of the fields the type declares besides [images], by yaml key;
    a value is kept as its YAML text. *)
Definition yaml := string.

Module types.
Record Image := {
  Name : string;
  NewName : string;
  NewTag : string;
  Digest : string
}.
Record Kustomization := {
  Images : list Image;
  Others : list (string * yaml)
}.
Definition withNewTag (i : Image) (tag : string) : Image :=
  {| Name := Name i; NewName := NewName i; NewTag := tag; Digest := Digest i |}.
Definition withImages (k : Kustomization) (imgs : list Image) : Kustomization :=
  {| Images := imgs; Others := Others k |}.
End types.

(** [ConfigMap] (git.go) *)
Record ConfigMap := {
  APIVersion : string;
  ConfigMap_Kind : string;
  Metadata : gmap string string;
  Data : gmap string string
}.

(** What an [interface{}] holds in this program. *)
Inductive any : Type :=
| AnyNil
| AnyKustomization (k : types.Kustomization)
| AnyConfigMap (c : ConfigMap).

(** go-git's [StatusCode], [FileStatus] and [Status].  [Status] is a Go map;
    it is given as the sequence of entries in the order [range] visits
    them, which the Go runtime chooses. *)
Inductive StatusCode :=
| Unmodified | Untracked | Modified | Added | Deleted | Renamed | Copied
| UpdatedButUnmerged.

#[global] Instance StatusCode_eq_dec : EqDecision StatusCode.
Proof. solve_decision. Defined.

Record FileStatus := { Staging : StatusCode; Worktree : StatusCode; Extra : string }.
Definition Status := list (string * FileStatus).

(** The kanvas client: [client.ApplyOptions], a produced pull request, and
    the result of [Apply]. *)
Record ApplyOptions := {
  SkippedComponents : list (string * list (string * string));
  GitUserName : string;
  PullRequestHead : string;
  EnvVars : list (string * string);
  PullRequestAssigneeIDs : list string
}.

Record PullRequest := { Number : string; NodeID : string; HTMLURL : string }.
Record ApplyResult := { GetPullRequests : list PullRequest }.

(** slack attachments *)
Record AttachmentField := { Title : string; Value : string; Short : bool }.
Record Attachment := { Color : string; Attachment_Title : string; Fields : list AttachmentField }.

(** Other records passed to library calls. *)
Record ImageTagVars := { vars_Branch : string; vars_Phase : string }.
Record DeployOption := { opt_Branch : string; Wait : bool }.
Inductive Storage := OnDisk (worktree dotGit : string) | InMemory.

(** What is printed: the operands of a [fmt.Print*] or [log.Print*] call. *)
Inductive operand : Type :=
| OStr (s : string)
| OErr (e : error)
| OInt (n : Z)
| OFileStatus (st : FileStatus)
| OPullRequests (prs : list PullRequest).

(** ** Library calls

    One constructor per library function (or method) the sources call, with
    the arguments the code passes; [Result] is what the call returns.  The
    methods of [DeployProject] and of the ECR, model-list and destination
    objects are defined in other files of the repository and are calls as
    well. *)
Inductive Call : Type :=
(* fmt, log *)
| fmt_Println (args : list operand)
| fmt_Printf (format : string) (args : list operand)
| log_Print (args : list operand)
| log_Printf (format : string) (args : list operand)
(* os, path/filepath, time *)
| os_Stat (path : string)
| os_RemoveAll (path : string)
| os_MkdirAll (path : string) (perm : Z)
| os_Getenv (key : string)
| filepath_Join (elem : list string)
| filepath_Base (path : string)
| time_Now
| time_Now_Format (layout : string)
(* go-git *)
| git_Clone (s : Storage) (URL : string) (Auth : BasicAuth)
| Storer_RemoveReference (r : handle) (name : string)
| Storer_SetReference (r : handle) (name target : string)
| Repository_Worktree (r : handle)
| Repository_Remote (r : handle) (name : string)
| Remote_Push (remote : handle) (RefSpec : string) (Auth : BasicAuth)
| Worktree_Checkout (w : handle) (Create : bool) (Branch : string)
| Worktree_Pull (w : handle) (RemoteName : string) (Auth : BasicAuth)
| Worktree_Status (w : handle)
| Worktree_Commit (w : handle) (msg : string) (AuthorName AuthorEmail : string) (When : handle)
| Worktree_Add (w : handle) (path : string)
(* go-billy: w.Filesystem and its files *)
| Filesystem_Stat (w : handle) (path : string)
| Filesystem_Open (w : handle) (path : string)
| Filesystem_Remove (w : handle) (path : string)
| Filesystem_OpenFile (w : handle) (path : string) (flag perm : Z)
| Filesystem_Join (w : handle) (elem : list string)
| io_ReadAll (file : handle)
| File_Close (file : handle)
| File_Write (file : handle) (b : bytes)
(* yaml.v2 *)
| yaml_Unmarshal_Kustomization (b : bytes)
| yaml_Unmarshal_ConfigMap (b : bytes)
| yaml_Marshal (v : any)
(* kanvas *)
| cli_New
| Client_Apply (c : handle) (path env : string) (opts : ApplyOptions)
(* gocat: ECR, deploy models, destinations, project accessors *)
| CreateECRInstance
| FindImageTagByRegexp (ecr : handle) (registryId repository tagRegexp targetRegexp : string)
    (vars : ImageTagVars)
| GetCurrentRevision (destination : handle) (github : GitHub)
| ModelList_Find (modelList : handle) (kind : string)
| Model_Deploy (model : handle) (pj : DeployProject) (phase : string) (opt : DeployOption)
| ECRRegistryId (pj : DeployProject)
| ECRRepository (pj : DeployProject)
| ImageTagRegexp (pj : DeployProject)
| TargetRegexp (pj : DeployProject)
| DefaultBranch (pj : DeployProject)
| FindPhase (pj : DeployProject) (name : string)
(* slack *)
| Client_PostMessage (client : handle) (channel : string) (attachment : Attachment).

Definition Result (c : Call) : Type :=
  match c with
  | fmt_Println _ | fmt_Printf _ _ | log_Print _ | log_Printf _ _ => unit
  | os_Stat _ | os_RemoveAll _ | os_MkdirAll _ _ => option error
  | os_Getenv _ | filepath_Join _ | filepath_Base _ => string
  | time_Now => handle
  | time_Now_Format _ => string
  | git_Clone _ _ _ => result handle
  | Storer_RemoveReference _ _ | Storer_SetReference _ _ _ => option error
  | Repository_Worktree _ | Repository_Remote _ _ => result handle
  | Remote_Push _ _ _ => option error
  | Worktree_Checkout _ _ _ | Worktree_Pull _ _ _ => option error
  | Worktree_Status _ => result Status
  | Worktree_Commit _ _ _ _ _ => result string
  | Worktree_Add _ _ => result string
  | Filesystem_Stat _ _ | Filesystem_Remove _ _ => option error
  | Filesystem_Open _ _ | Filesystem_OpenFile _ _ _ _ => result handle
  | Filesystem_Join _ _ => string
  | io_ReadAll _ => result bytes
  | File_Close _ => option error
  | File_Write _ _ => result Z
  | yaml_Unmarshal_Kustomization _ => result types.Kustomization
  | yaml_Unmarshal_ConfigMap _ => result ConfigMap
  | yaml_Marshal _ => result bytes
  | cli_New => handle
  | Client_Apply _ _ _ _ => result ApplyResult
  | CreateECRInstance => result handle
  | FindImageTagByRegexp _ _ _ _ _ _ => result string
  | GetCurrentRevision _ _ => result string
  | ModelList_Find _ _ => result handle
  | Model_Deploy _ _ _ _ => result handle
  | ECRRegistryId _ | ECRRepository _ | ImageTagRegexp _ | TargetRegexp _
  | DefaultBranch _ => string
  | FindPhase _ _ => DeployPhase
  | Client_PostMessage _ _ _ => result (string * string)
  end.

(** ** Programs over library calls *)

Inductive Prog (A : Type) : Type :=
| Ret (a : A)
| Do (c : Call) (k : Result c -> Prog A).
Arguments Ret {A} a.
Arguments Do {A} c k.

Fixpoint bind {A B} (p : Prog A) (f : A -> Prog B) : Prog B :=
  match p with
  | Ret a => f a
  | Do c k => Do c (fun x => bind (k x) f)
  end.

#[global] Instance Prog_ret : MRet Prog := @Ret.
#[global] Instance Prog_bind : MBind Prog := fun A B f p => bind p f.

Definition call (c : Call) : Prog (Result c) := Do c Ret.

(** One library call with the answer it got. *)
Record Entry := Called { called : Call; answer : Result called }.
Definition Trace := list Entry.

(** An environment answers each call from its state [W]. *)
Definition Env (W : Type) := forall c : Call, W -> Result c * W.

Fixpoint run {W A} (env : Env W) (p : Prog A) (w : W) : A * W * Trace :=
  match p with
  | Ret a => (a, w, [])
  | Do c k =>
      let '(x, w1) := env c w in
      let '(a, w2, t) := run env (k x) w1 in
      (a, w2, Called c x :: t)
  end.

Definition returned {W A} (r : A * W * Trace) : A := r.1.1.
Definition final {W A} (r : A * W * Trace) : W := r.1.2.
Definition trace {W A} (r : A * W * Trace) : Trace := r.2.

(** [if err != nil { ... }] *)
Definition isErr (err : option error) : bool :=
  match err with Some _ => true | None => false end.

(** ** git.go *)

Definition PathSeparator : string := "/".
Definition Master : string := "refs/heads/master".

Definition withRepository (g : GitOperator) (r : handle) : GitOperator :=
  {| auth := auth g; repo := repo g; repository := r; username := username g;
     defaultBranch := defaultBranch g; gitRoot := gitRoot g |}.

Definition withRepo (g : GitOperator) (url : string) : GitOperator :=
  {| auth := auth g; repo := url; repository := repository g;
     username := username g; defaultBranch := defaultBranch g;
     gitRoot := gitRoot g |}.

Definition Repo (g : GitOperator) : string := repo g.

Definition getLocalRepoRoot (g : GitOperator) : Prog string :=
  if decide (gitRoot g = "") then mret ""
  else
    let repo := ReplaceAll (repo g) "https://" "" in
    let repo := ReplaceAll repo "/" PathSeparator in
    let repo := TrimSuffix repo ".git" in
    call (filepath_Join [gitRoot g; repo]).

(** [Clone] has a pointer receiver: it returns the operator with its
    [repository] field assigned. *)
Definition Clone (g : GitOperator) : Prog (GitOperator * option error) :=
  storage ←
    (if decide (gitRoot g = "") then mret InMemory
     else
       repoRoot ← getLocalRepoRoot g;
       dotGit ← call (filepath_Join [repoRoot; ".git"]);
       mret (OnDisk repoRoot dotGit));
  '(r, err) ← call (git_Clone storage (Repo g) (auth g));
  mret (withRepository g r, err).

Definition Clean (g : GitOperator) : Prog (option error) :=
  p ← getLocalRepoRoot g;
  if decide (p = "") then mret None
  else
    dotGit ← call (filepath_Join [p; ".git"]);
    err ← call (os_Stat dotGit);
    match err with
    | Some e => mret (Some (ErrWrap ("unable to stat " +:+ dotGit) e))
    | None =>
        err ← call (os_RemoveAll p);
        match err with
        | Some e => mret (Some (ErrWrap ("unable to remove " +:+ p) e))
        | None => mret None
        end
    end.

Definition DeleteBranch (g : GitOperator) (branch : string) : Prog (option error) :=
  call (Storer_RemoveReference (repository g) branch).

Definition checkoutMainBranch (g : GitOperator) : Prog (handle * option error) :=
  '(w, err) ← call (Repository_Worktree (repository g));
  match err with
  | Some e => mret (nil_handle, Some e)
  | None =>
      let refName := if decide (defaultBranch g = "") then Master else defaultBranch g in
      err ← call (Worktree_Checkout w false refName);
      match err with
      | Some e =>
          _ ← call (fmt_Println [OStr "[ERROR] Failed to Checkout master: "; OErr (ErrNew (Error e))]);
          mret (nil_handle, Some e)
      | None =>
          err ← call (Worktree_Pull w "origin" (auth g));
          _ ← match err with
              | Some e =>
                  if decide (e = NoErrAlreadyUpToDate) then mret tt
                  else
                    _ ← call (fmt_Println [OStr "[ERROR] Failed to Pull origin/master: "; OErr (ErrNew (Error e))]);
                    _ ← call (fmt_Println [OStr "[INFO] Running Clone to see if it fixes the issue"]);
                    '(_, err) ← Clone g;
                    match err with
                    | Some e => call (fmt_Println [OStr "[ERROR] Failed to Clone: "; OErr (ErrNew (Error e))])
                    | None => mret tt
                    end
              | None => mret tt
              end;
          mret (w, None)
      end
  end.

Definition createAndCheckoutNewBranch (g : GitOperator) (branch : string)
  : Prog (handle * option error) :=
  err ← DeleteBranch g branch;
  _ ← match err with
      | Some e => call (fmt_Println [OStr "[ERROR] Failed to DeleteBranch: "; OErr (ErrNew (Error e))])
      | None => mret tt
      end;
  '(w, err) ← checkoutMainBranch g;
  match err with
  | Some e => mret (nil_handle, Some e)
  | None =>
      err ← call (Worktree_Checkout w true branch);
      match err with
      | Some e =>
          _ ← call (fmt_Println [OStr "[ERROR] Failed to Checkout workbranch: "; OErr (ErrNew (Error e))]);
          mret (nil_handle, Some e)
      | None => mret (w, None)
      end
  end.

(** The [range] loop of [verify] over the entries of the status. *)
Fixpoint verify_range (entries : Status) : Prog (option error) :=
  match entries with
  | [] => mret None
  | (path, status) :: rest =>
      if decide (Staging status = Modified) then verify_range rest
      else
        _ ← call (fmt_Printf "[ERROR] There are some extra file updates. File: %v %s"
                    [OFileStatus status; OStr path]);
        mret (Some (ErrNew "There are some extra file updates"))
  end.

Definition verify (g : GitOperator) (w : handle) : Prog (option error) :=
  '(status, err) ← call (Worktree_Status w);
  match err with
  | Some e =>
      _ ← call (fmt_Println [OStr "[ERROR] Failed to get status: "; OErr (ErrNew (Error e))]);
      mret (Some e)
  | None => verify_range status
  end.

(** *** The OverWrite strategies *)

(** [type OverWrite interface { Update([]byte) (interface{}, error) }] *)
Class OverWrite (T : Type) := Update : T -> bytes -> Prog (result any).

Record KustomizationOverWrite := { tag : string; targetTag : string }.
Record MemcachedOverWrite := {}.

(** The body of [for i, image := range obj.Images]: the element at [i] is
    read, and on a match [obj.Images[i].NewTag] is assigned in place. *)
Definition range_step (o : KustomizationOverWrite)
    (st : list types.Image * bool) (i : nat) : list types.Image * bool :=
  let '(images, updated) := st in
  match images !! i with
  | Some image =>
      if decide (types.Name image = targetTag o)
      then (<[i := types.withNewTag image (tag o)]> images, true)
      else (images, updated)
  | None => (images, updated)
  end.

Definition range_Images (o : KustomizationOverWrite) (images : list types.Image)
  : list types.Image * bool :=
  foldl (range_step o) (images, false) (seq 0 (length images)).

(** [KustomizationOverWrite.Update] after the document is decoded. *)
Definition updateKustomization (o : KustomizationOverWrite)
    (obj : types.Kustomization) : types.Kustomization :=
  let '(images, updated) := range_Images o (types.Images obj) in
  if updated then types.withImages obj images
  else
    types.withImages obj
      (images ++ [ {| types.Name := targetTag o; types.NewName := "";
                      types.NewTag := tag o; types.Digest := "" |} ]).

#[global] Instance KustomizationOverWrite_Update : OverWrite KustomizationOverWrite :=
  fun o b =>
    '(obj, err) ← call (yaml_Unmarshal_Kustomization b);
    match err with
    | Some e => mret (AnyNil, Some e)
    | None => mret (AnyKustomization (updateKustomization o obj), None)
    end.

Definition withData (c : ConfigMap) (d : gmap string string) : ConfigMap :=
  {| APIVersion := APIVersion c; ConfigMap_Kind := ConfigMap_Kind c;
     Metadata := Metadata c; Data := d |}.

#[global] Instance MemcachedOverWrite_Update : OverWrite MemcachedOverWrite :=
  fun o b =>
    '(obj, err) ← call (yaml_Unmarshal_ConfigMap b);
    match err with
    | Some e => mret (AnyNil, Some e)
    | None =>
        match Data obj !! "MEMCACHED_PREFIX" with
        | Some _ =>
            now ← call (time_Now_Format "2006-01-02T15:04:05");
            mret (AnyConfigMap (withData obj (<["MEMCACHED_PREFIX" := now]> (Data obj))), None)
        | None => mret (AnyConfigMap obj, None)
        end
    end.

(** [os.O_RDWR|os.O_CREATE] on Linux, and the octal modes 0666 and 0755 *)
Definition O_RDWR_O_CREATE : Z := Z.lor 2 64.
Definition perm_0666 : Z := 6 * 64 + 6 * 8 + 6.
Definition perm_0755 : Z := 7 * 64 + 5 * 8 + 5.

(** The one-byte string of Go's newline escape *)
Definition newline : string := String (ascii_of_nat 10) EmptyString.

Definition logged (what : string) (e : error) : Prog (option error) :=
  _ ← call (fmt_Println [OStr what; OErr (ErrNew (Error e))]);
  mret (Some e).

Definition commit {T} `{!OverWrite T} (g : GitOperator) (w : handle)
    (targetFilePath : string) (o : T) : Prog (option error) :=
  err ← call (Filesystem_Stat w targetFilePath);
  match err with
  | Some e =>
      _ ← call (fmt_Println [OStr "[INFO] The file does not exist: "; OErr (ErrNew (Error e))]);
      mret None
  | None =>
  '(file, err) ← call (Filesystem_Open w targetFilePath);
  match err with
  | Some e => logged "[ERROR] Failed to Open file: " e
  | None =>
  '(b, err) ← call (io_ReadAll file);
  match err with
  | Some e => logged "[ERROR] Failed to ReadAll file: " e
  | None =>
  err ← call (File_Close file);
  match err with
  | Some e => logged "[ERROR] Failed to Close file: " e
  | None =>
  '(obj, err) ← Update o b;
  match err with
  | Some e => mret (Some e)
  | None =>
  '(rb, err) ← call (yaml_Marshal obj);
  match err with
  | Some e => logged "[ERROR] Failed to Marshal kustomize.yaml: " e
  | None =>
  err ← call (Filesystem_Remove w targetFilePath);
  match err with
  | Some e => logged "[ERROR] Failed to Remove kustomize.yaml: " e
  | None =>
  '(file, err) ← call (Filesystem_OpenFile w targetFilePath O_RDWR_O_CREATE perm_0666);
  match err with
  | Some e => logged "[ERROR] Failed to Open kustomize.yaml: " e
  | None =>
  '(_, err) ← call (File_Write file rb);
  match err with
  | Some e => logged "[ERROR] Failed to Write kustomize.yaml: " e
  | None =>
  '(_, err) ← call (File_Write file newline);
  match err with
  | Some e => logged "[ERROR] Failed to Write \n: " e
  | None =>
  '(_, err) ← call (Worktree_Add w targetFilePath);
  match err with
  | Some e => logged "[ERROR] Failed to Add file to Worktree: " e
  | None => mret None
  end end end end end end end end end end end.

Definition Sprintf_branch (id phaseName tag : string) : string :=
  "bot/docker-image-tag-" +:+ id +:+ "-" +:+ phaseName +:+ "-" +:+ tag.

Definition PushDockerImageTag (g : GitOperator) (id : string) (phase : DeployPhase)
    (tag targetTag : string) : Prog (string * option error) :=
  let branch := Sprintf_branch id (Name phase) tag in
  '(w, err) ← createAndCheckoutNewBranch g branch;
  match err with
  | Some e => mret ("", Some e)
  | None =>
  err ← commit g w (Path phase) {| tag := tag; targetTag := targetTag |};
  match err with
  | Some e =>
      _ ← call (fmt_Println [OStr "[ERROR] Failed to Marshal kustomize.yaml: "; OErr (ErrNew (Error e))]);
      mret (branch, Some e)
  | None =>
  err ← commit g w (ReplaceAll (Path phase) "kustomization.yaml" "configmap.yaml")
          Build_MemcachedOverWrite;
  match err with
  | Some e =>
      _ ← call (fmt_Println [OStr "[ERROR] Failed to Write MEMCACHED_PREFIX \n: "; OErr (ErrNew (Error e))]);
      mret (branch, Some e)
  | None =>
  err ← verify g w;
  match err with
  | Some e => mret (branch, Some e)
  | None =>
  now ← call time_Now;
  '(hash, _) ← call (Worktree_Commit w
      ("Change docker image tag. target: " +:+ Path phase +:+ ", phase: "
         +:+ Name phase +:+ ", tag: " +:+ tag +:+ ".")
      (username g) "" now);
  err ← call (Storer_SetReference (repository g) branch hash);
  match err with
  | Some e =>
      _ ← call (fmt_Println [OStr "[ERROR] Failed to SetReference: "; OErr (ErrNew (Error e))]);
      mret ("", Some e)
  | None =>
  '(remote, err) ← call (Repository_Remote (repository g) "origin");
  match err with
  | Some e =>
      _ ← call (fmt_Println [OStr "[ERROR] Failed to Add remote origin: "; OErr (ErrNew (Error e))]);
      mret (branch, Some e)
  | None =>
  err ← call (Remote_Push remote (branch +:+ ":" +:+ "refs/heads/" +:+ branch) (auth g));
  _ ← match err with
      | Some e => call (fmt_Println [OStr "[ERROR] Failed to Push origin: "; OErr (ErrNew (Error e))])
      | None => mret tt
      end;
  mret (branch, err)
  end end end end end end.

(** ** The kanvas GitOps plugin *)

Record GitOpsPluginKanvas := { k_github : GitHub; k_git : GitOperator }.

(** The tail of [Prepare] once [Apply] has returned its result. *)
Definition interpretPullRequests (o : GitOpsPrepareOutput) (head : string)
    (prs : list PullRequest) : Prog (result GitOpsPrepareOutput) :=
  if decide (length prs = 0%nat) then mret (withStatus DeployStatusAlready, None)
  else if decide (1 < length prs)%nat then
    _ ← call (fmt_Println
                [OStr "gocat does not yet support multiple pull requests created by kanvas: ";
                 OPullRequests prs]);
    mret (o, Some (ErrNew "gocat does not yet support multiple pull requests created by kanvas"))
  else
    match prs with
    | pr :: _ =>
        let '(prNum, err) := Atoi (Number pr) in
        match err with
        | Some e =>
            mret (o, Some (ErrWrap "failed to convert pull request number to int" e))
        | None =>
            mret ({| PullRequestID := NodeID pr;
                     PullRequestNumber := prNum;
                     PullRequestHTMLURL := HTMLURL pr;
                     Branch := head;
                     status := DeployStatusSuccess |}, None)
        end
    | [] => mret (o, None)
    end.

(** [Prepare] from the checkout of the main branch on: the part the
    deferred [Clean] runs after. *)
Definition Prepare_body (git : GitOperator) (o : GitOpsPrepareOutput)
    (ph : DeployPhase) (phase : string) (assigner : User) (tag head : string)
  : Prog (result GitOpsPrepareOutput) :=
  '(wt, err) ← checkoutMainBranch git;
  match err with
  | Some e => mret (o, Some e)
  | None =>
  c ← call cli_New;
  root ← getLocalRepoRoot git;
  tmpdir ← call (filepath_Join [root; ".kanvastmp"]);
  err ← call (os_MkdirAll tmpdir perm_0755);
  match err with
  | Some e => mret (o, Some (ErrWrap "failed to create .kanvastmp directory" e))
  | None =>
  token ← call (os_Getenv "CONFIG_GITHUB_ACCESS_TOKEN");
  let applyOpts :=
    {| SkippedComponents := [("image", [("tag", tag); ("id", tag)]); ("prereq", [])];
       GitUserName := username git;
       PullRequestHead := head;
       EnvVars := [("TMPDIR", tmpdir); ("GITHUB_TOKEN", token)];
       PullRequestAssigneeIDs :=
         if decide (GitHubNodeID assigner = "") then [] else [GitHubNodeID assigner] |} in
  path ←
    (if decide (Path ph = "") then mret "kanvas.yaml"
     else
       base ← call (filepath_Base (Path ph));
       if decide (base = "kanvas.yaml") then mret (Path ph)
       else call (filepath_Join [Path ph; "kanvas.yaml"]));
  root ← getLocalRepoRoot git;
  realPath ← call (Filesystem_Join wt [root; path]);
  '(r, err) ← call (Client_Apply c realPath phase applyOpts);
  match err with
  | Some e => mret (o, Some e)
  | None => interpretPullRequests o head (GetPullRequests r)
  end end end.

(** [if tag == "" { ... }]: the tag is asked of the registry. *)
Definition resolveTag (pj : DeployProject) (phase branch tag : string)
  : Prog (result string) :=
  if decide (tag = "") then
    '(ecr, err) ← call CreateECRInstance;
    match err with
    | Some e => mret (tag, Some e)
    | None =>
        registryId ← call (ECRRegistryId pj);
        repository ← call (ECRRepository pj);
        tagRegexp ← call (ImageTagRegexp pj);
        targetRegexp ← call (TargetRegexp pj);
        call (FindImageTagByRegexp ecr registryId repository tagRegexp targetRegexp
                {| vars_Branch := branch; vars_Phase := phase |})
    end
  else mret (tag, None).

Definition Prepare (k : GitOpsPluginKanvas) (pj : DeployProject)
    (phase branch : string) (assigner : User) (tag : string)
  : Prog (result GitOpsPrepareOutput) :=
  let o := withStatus DeployStatusFail in
  '(tag, err) ← resolveTag pj phase branch tag;
  match err with
  | Some e => mret (o, Some e)
  | None =>
  ph ← call (FindPhase pj phase);
  if decide (Name ph = "") then
    mret (o, Some (ErrNew ("phase " +:+ phase +:+ " not found for project " +:+ ID pj)))
  else
  let head := Sprintf_branch (ID pj) (Name ph) tag in
  let git := withRepository (k_git k) nil_handle in
  let git := withRepo git ("https://github.com/" +:+ org (k_github k) +:+ "/"
                             +:+ gitHubRepository pj +:+ ".git") in
  '(git, err) ← Clone git;
  if match err with
     | Some e => negb (errors_Is e ErrRepositoryAlreadyExists)
     | None => false
     end
  then mret (o, (ErrWrap "failed to clone repository") <$> err)
  else
    out ← Prepare_body git o ph phase assigner tag head;
    (* the deferred function *)
    err ← Clean git;
    _ ← match err with
        | Some e => call (fmt_Println [OErr e])
        | None => mret tt
        end;
    mret out
  end.

(** ** The auto-deploy watcher *)

Record AutoDeploy := {
  client : handle;
  github : GitHub;
  git : GitOperator;
  projectList : handle;
  modelList : handle
}.

Definition checkAndDeploy (a : AutoDeploy) (dp : DeployProject) (phase : DeployPhase)
  : Prog unit :=
  '(ecr, err) ← call CreateECRInstance;
  match err with
  | Some e => call (log_Print [OErr e])
  | None =>
  '(currentTag, err) ← call (GetCurrentRevision (Destination phase) (github a));
  match err with
  | Some e => call (log_Print [OErr e])
  | None =>
  registryId ← call (ECRRegistryId dp);
  repository ← call (ECRRepository dp);
  tagRegexp ← call (ImageTagRegexp dp);
  targetRegexp ← call (TargetRegexp dp);
  defaultBranch ← call (DefaultBranch dp);
  '(tag, err) ← call (FindImageTagByRegexp ecr registryId repository tagRegexp targetRegexp
                        {| vars_Branch := defaultBranch; vars_Phase := "" |});
  if bool_decide (currentTag = tag) || isErr err then
    call (log_Printf "[INFO] Auto Deploy (%s:%s) is skipped" [OStr (ID dp); OStr (Name phase)])
  else
  _ ← call (log_Printf "[INFO] Auto Deploy (%s:%s) is started" [OStr (ID dp); OStr (Name phase)]);
  '(model, err) ← call (ModelList_Find (modelList a) (Kind phase));
  match err with
  | Some e => call (log_Print [OErr e])
  | None =>
  defaultBranch ← call (DefaultBranch dp);
  '(_, err) ← call (Model_Deploy model dp (Name phase)
                      {| opt_Branch := defaultBranch; Wait := true |});
  match err with
  | Some e => call (log_Print [OErr e])
  | None =>
  if decide (NotifyChannel phase = "") then mret tt
  else
    let fields :=
      [ {| Title := "Project"; Value := ID dp; Short := true |};
        {| Title := "Phase"; Value := Name phase; Short := true |};
        {| Title := "Tag"; Value := tag; Short := true |} ] in
    let msg := {| Color := "#36a64f";
                  Attachment_Title := ":white_check_mark: Succeed to auto deploy";
                  Fields := fields |} in
    '(_, err) ← call (Client_PostMessage (client a) (NotifyChannel phase) msg);
    match err with
    | Some e => call (log_Print [OErr e])
    | None => mret tt
    end
  end end end end.

(** ** slack.go *)

Definition toPhase (str : string) : string :=
  if decide (str = "pro") then "production"
  else if decide (str = "prd") then "production"
  else if decide (str = "production") then "production"
  else if decide (str = "stg") then "staging"
  else if decide (str = "staging") then "staging"
  else if decide (str = "sandbox") then "sandbox"
  else "staging".

(** ** What a program can do, whatever the environment answers *)

(** [outcome p t a]: some sequence of answers makes [p] perform exactly the
    calls of [t], with these answers, and return [a]. *)
Fixpoint outcome {A} (p : Prog A) (t : Trace) (a : A) : Prop :=
  match p with
  | Ret a' => t = [] /\ a = a'
  | Do c k => exists (x : Result c) (t' : Trace), t = Called c x :: t' /\ outcome (k x) t' a
  end.

(** [always good p]: every call [p] can make satisfies [good]. *)
Fixpoint always {A} (good : Call -> Prop) (p : Prog A) : Prop :=
  match p with
  | Ret _ => True
  | Do c k => good c /\ forall x, always good (k x)
  end.

(** What was asked and answered, read off a trace entry. *)
Definition on_entry {R} (f : forall c : Call, Result c -> R) (e : Entry) : R :=
  f (called e) (answer e).

(** ** Reading traces *)

Definition revision_of (e : Entry) : option (result string) :=
  on_entry (fun c =>
    match c return Result c -> option (result string) with
    | GetCurrentRevision _ _ => fun x => Some x
    | _ => fun _ => None
    end) e.

Definition registry_of (e : Entry) : option (result string) :=
  on_entry (fun c =>
    match c return Result c -> option (result string) with
    | FindImageTagByRegexp _ _ _ _ _ _ => fun x => Some x
    | _ => fun _ => None
    end) e.

Definition deploys_or_notifies (c : Call) : bool :=
  match c with
  | Model_Deploy _ _ _ _ | Client_PostMessage _ _ _ => true
  | _ => false
  end.


(** ** Environments to run the programs in *)

(** The answer of a library that has nothing to report: zero values and
    [nil] errors; paths are joined with a slash, and [FindPhase] answers
    the first declared phase of that name, or the zero phase. *)
Definition nominal (c : Call) : Result c :=
  match c with
  | fmt_Println _ | fmt_Printf _ _ | log_Print _ | log_Printf _ _ => tt
  | os_Stat _ | os_RemoveAll _ | os_MkdirAll _ _ => None
  | os_Getenv _ | filepath_Base _ => ""
  | filepath_Join elem => String.concat "/" elem
  | time_Now => nil_handle
  | time_Now_Format _ => ""
  | git_Clone _ _ _ => (1%nat, None)
  | Storer_RemoveReference _ _ | Storer_SetReference _ _ _ => None
  | Repository_Worktree _ | Repository_Remote _ _ => (1%nat, None)
  | Remote_Push _ _ _ => None
  | Worktree_Checkout _ _ _ | Worktree_Pull _ _ _ => None
  | Worktree_Status _ => ([], None)
  | Worktree_Commit _ _ _ _ _ => ("", None)
  | Worktree_Add _ _ => ("", None)
  | Filesystem_Stat _ _ | Filesystem_Remove _ _ => None
  | Filesystem_Open _ _ | Filesystem_OpenFile _ _ _ _ => (1%nat, None)
  | Filesystem_Join _ elem => String.concat "/" elem
  | io_ReadAll _ => ("", None)
  | File_Close _ => None
  | File_Write _ b => (Z.of_nat (String.length b), None)
  | yaml_Unmarshal_Kustomization _ => ({| types.Images := []; types.Others := [] |}, None)
  | yaml_Unmarshal_ConfigMap _ =>
      ({| APIVersion := ""; ConfigMap_Kind := ""; Metadata := ∅; Data := ∅ |}, None)
  | yaml_Marshal _ => ("", None)
  | cli_New => 1%nat
  | Client_Apply _ _ _ _ => ({| GetPullRequests := [] |}, None)
  | CreateECRInstance => (1%nat, None)
  | FindImageTagByRegexp _ _ _ _ _ _ => ("", None)
  | GetCurrentRevision _ _ => ("", None)
  | ModelList_Find _ _ => (1%nat, None)
  | Model_Deploy _ _ _ _ => (1%nat, None)
  | ECRRegistryId _ | ECRRepository _ | ImageTagRegexp _ | TargetRegexp _
  | DefaultBranch _ => ""
  | FindPhase pj name =>
      default {| Name := ""; Path := ""; Kind := ""; phase_AutoDeploy := false;
                 NotifyChannel := ""; Destination := nil_handle |}
              (head (filter (fun ph => Name ph = name) (Phases pj)))
  | Client_PostMessage _ _ _ => ("", "", None)
  end.

(** A stateless environment that answers [special] where it is defined and
    [nominal] elsewhere. *)
Definition answering (special : forall c : Call, option (Result c)) : Env unit :=
  fun c w => (default (nominal c) (special c), w).

(** Sample data *)
Definition sample_operator : GitOperator :=
  {| auth := {| Username := "gocat"; Password := "token" |};
     repo := "https://github.com/zaiminc/gocat.git";
     repository := 1%nat; username := "gocat";
     defaultBranch := ""; gitRoot := "/var/gocat" |}.

Definition sample_phase : DeployPhase :=
  {| Name := "staging"; Path := "overlays/staging/kustomization.yaml";
     Kind := "kustomize"; phase_AutoDeploy := true; NotifyChannel := "deploys";
     Destination := 1%nat |}.

Definition sample_project : DeployProject :=
  {| ID := "api"; gitHubRepository := "api-config"; Phases := [sample_phase] |}.

Definition sample_github : GitHub := {| github_client := 1%nat; org := "zaiminc" |}.

Definition sample_watcher : AutoDeploy :=
  {| client := 1%nat; github := sample_github; git := sample_operator;
     projectList := 1%nat; modelList := 1%nat |}.

(** Both queries of a tick answer the tag [v1]. *)
Definition same_tag_env : Env unit :=
  answering (fun c =>
    match c return option (Result c) with
    | GetCurrentRevision _ _ => Some ("v1", None)
    | FindImageTagByRegexp _ _ _ _ _ _ => Some ("v1", None)
    | _ => None
    end).

(** [os.Stat] calls with their answers; calls that delete from the disk. *)
Definition os_Stat_of (e : Entry) : option (string * option error) :=
  on_entry (fun c =>
    match c return Result c -> option (string * option error) with
    | os_Stat path => fun x => Some (path, x)
    | _ => fun _ => None
    end) e.

Definition removes_from_disk (c : Call) : bool :=
  match c with os_RemoveAll _ => true | _ => false end.

(** Calls that change the working tree: its files or its index. *)
Definition changes_worktree (c : Call) : bool :=
  match c with
  | Filesystem_Remove _ _ | Filesystem_OpenFile _ _ _ _ | File_Write _ _
  | Worktree_Add _ _ => true
  | _ => false
  end.

(** An environment in which [os.Stat] finds nothing. *)
Definition ErrNotExist : error := ErrVar "fs.ErrNotExist".

Definition no_marker_env : Env unit :=
  answering (fun c =>
    match c return option (Result c) with
    | os_Stat _ => Some (Some ErrNotExist)
    | _ => None
    end).

(** An environment in which the working tree has no file. *)
Definition empty_worktree_env : Env unit :=
  answering (fun c =>
    match c return option (Result c) with
    | Filesystem_Stat _ _ => Some (Some ErrNotExist)
    | _ => None
    end).

(** What [range_Images] amounts to: the tag of every entry named
    [targetTag] is set. *)
Definition retag (o : KustomizationOverWrite) (image : types.Image) : types.Image :=
  if decide (types.Name image = targetTag o) then types.withNewTag image (tag o)
  else image.

Definition newImage (o : KustomizationOverWrite) : types.Image :=
  {| types.Name := targetTag o; types.NewName := ""; types.NewTag := tag o;
     types.Digest := "" |}.

(** The decoded document a [yaml.Unmarshal] call produced, if it did. *)
Definition decoded_of (e : Entry) : option (bytes * types.Kustomization) :=
  on_entry (fun c =>
    match c return Result c -> option (bytes * types.Kustomization) with
    | yaml_Unmarshal_Kustomization b =>
        fun x => match x.2 with None => Some (b, x.1) | Some _ => None end
    | _ => fun _ => None
    end) e.

(** A manifest with two images, one of them the target at tag [v2]. *)
Definition sample_manifest : types.Kustomization :=
  {| types.Images :=
       [ {| types.Name := "sidecar"; types.NewName := ""; types.NewTag := "1.0";
            types.Digest := "" |};
         {| types.Name := "app"; types.NewName := "registry/app";
            types.NewTag := "v2"; types.Digest := "" |} ];
     types.Others := [("resources", "[deployment.yaml]")] |}.

Definition manifest_env (k : types.Kustomization) : Env unit :=
  answering (fun c =>
    match c return option (Result c) with
    | yaml_Unmarshal_Kustomization _ => Some (k, None)
    | _ => None
    end).

Definition sample_overwrite : KustomizationOverWrite := {| tag := "v2"; targetTag := "app" |}.

(** A manifest without an entry for the target image. *)
Definition other_manifest : types.Kustomization :=
  {| types.Images :=
       [ {| types.Name := "sidecar"; types.NewName := ""; types.NewTag := "1.0";
            types.Digest := "" |} ];
     types.Others := [("namespace", "prod")] |}.

(** What [yaml.Marshal] was given and answered; what was written to a file. *)
Definition marshalled_of (e : Entry) : option (any * result bytes) :=
  on_entry (fun c =>
    match c return Result c -> option (any * result bytes) with
    | yaml_Marshal v => fun x => Some (v, x)
    | _ => fun _ => None
    end) e.

Definition written_of (e : Entry) : option bytes :=
  on_entry (fun c =>
    match c return Result c -> option bytes with
    | File_Write _ b => fun _ => Some b
    | _ => fun _ => None
    end) e.

Definition written (t : Trace) : list bytes := omap written_of t.

(** *** The manifest as a document

    A manifest document is its image list and its other top-level keys.
    [yaml.Unmarshal] into a [types.Kustomization] stores a key in the field
    tagged with it and skips a key that no field is tagged with (only
    [UnmarshalStrict] objects to such a key); [yaml.Marshal] writes the
    fields of the value it is given. *)
Record Manifest := {
  manifest_images : list types.Image;
  manifest_fields : list (string * yaml)
}.

(** The yaml keys of the fields of [types.Kustomization] besides [images]. *)
Definition KustomizationKeys : list string :=
  [ "apiVersion"; "kind"; "metadata"; "openapi"; "namePrefix"; "nameSuffix";
    "namespace"; "commonLabels"; "labels"; "commonAnnotations";
    "patchesStrategicMerge"; "patchesJson6902"; "patches"; "replacements";
    "replicas"; "vars"; "sortOptions"; "resources"; "components"; "crds";
    "bases"; "configMapGenerator"; "secretGenerator"; "generatorOptions";
    "configurations"; "generators"; "transformers"; "validators";
    "helmCharts"; "helmGlobals"; "helmChartInflationGenerator";
    "buildMetadata"; "inventory" ].

Definition decode (m : Manifest) : types.Kustomization :=
  {| types.Images := manifest_images m;
     types.Others := filter (fun kv => kv.1 ∈ KustomizationKeys) (manifest_fields m) |}.

Definition encode (k : types.Kustomization) : Manifest :=
  {| manifest_images := types.Images k; manifest_fields := types.Others k |}.

(** Parse, update, re-serialize. *)
Definition rewrite_manifest (o : KustomizationOverWrite) (m : Manifest) : Manifest :=
  encode (updateKustomization o (decode m)).

(** A manifest with a key that [types.Kustomization] does not declare. *)
Definition annotated_manifest : Manifest :=
  {| manifest_images := types.Images sample_manifest;
     manifest_fields := [("resources", "[deployment.yaml]"); ("owner", "team-a")] |}.

(** The [Apply] calls with the options given and the answer; the phase
    [FindPhase] answered. *)
Definition apply_of (e : Entry) : option (ApplyOptions * result ApplyResult) :=
  on_entry (fun c =>
    match c return Result c -> option (ApplyOptions * result ApplyResult) with
    | Client_Apply _ _ _ opts => fun x => Some (opts, x)
    | _ => fun _ => None
    end) e.

Definition phase_of (e : Entry) : option DeployPhase :=
  on_entry (fun c =>
    match c return Result c -> option DeployPhase with
    | FindPhase _ _ => fun x => Some x
    | _ => fun _ => None
    end) e.

(** Calls of the deployment queries; [checkoutMainBranch], [Clone] and
    [Clean] make none of them. *)
Definition is_query (c : Call) : bool :=
  match c with
  | Client_Apply _ _ _ _ | FindPhase _ _ | FindImageTagByRegexp _ _ _ _ _ _ => true
  | _ => false
  end.

(** How [Prepare] reads the pull requests the tool produced. *)
Definition maps_pull_requests (head : string) (prs : list PullRequest)
    (r : result GitOpsPrepareOutput) : Prop :=
  (prs = [] -> r = (withStatus DeployStatusAlready, None)) /\
  (forall pr n, prs = [pr] -> Atoi (Number pr) = (n, None) ->
     r = ({| PullRequestID := NodeID pr; PullRequestNumber := n;
             PullRequestHTMLURL := HTMLURL pr; Branch := head;
             status := DeployStatusSuccess |}, None)) /\
  (forall pr n e, prs = [pr] -> Atoi (Number pr) = (n, Some e) ->
     r = (withStatus DeployStatusFail,
          Some (ErrWrap "failed to convert pull request number to int" e))) /\
  ((2 <= length prs)%nat ->
     r = (withStatus DeployStatusFail,
          Some (ErrNew "gocat does not yet support multiple pull requests created by kanvas"))).

(** [returns post p]: whatever the environment answers, [p] returns a value
    satisfying [post]. *)
Fixpoint returns {A} (post : A -> Prop) (p : Prog A) : Prop :=
  match p with
  | Ret a => post a
  | Do c k => forall x, returns post (k x)
  end.

(** The calls that name a branch name [b]. *)
Definition names_branch (b : string) (c : Call) : Prop :=
  match c with
  | Storer_RemoveReference _ name => name = b
  | Storer_SetReference _ name _ => name = b
  | Worktree_Checkout _ true name => name = b
  | Remote_Push _ refspec _ => refspec = b +:+ ":" +:+ "refs/heads/" +:+ b
  | _ => True
  end.

(** The kanvas plugin with a tool that produces the pull requests [prs]. *)
Definition sample_plugin : GitOpsPluginKanvas :=
  {| k_github := sample_github; k_git := sample_operator |}.

Definition sample_user : User := {| GitHubNodeID := "U_1" |}.

Definition tool_env (prs : list PullRequest) : Env unit :=
  answering (fun c =>
    match c return option (Result c) with
    | Client_Apply _ _ _ _ => Some ({| GetPullRequests := prs |}, None)
    | _ => None
    end).

Definition numbered_pr : PullRequest :=
  {| Number := "42"; NodeID := "PR_kwDO42";
     HTMLURL := "https://github.com/zaiminc/api-config/pull/42" |}.

Definition unnumbered_pr : PullRequest :=
  {| Number := "#42"; NodeID := "PR_kwDO42";
     HTMLURL := "https://github.com/zaiminc/api-config/pull/42" |}.

(** *** The calls each step of a push can make *)

Definition branch_footprint (b : string) (c : Call) : Prop :=
  match c with
  | Storer_RemoveReference _ name => name = b
  | Worktree_Checkout _ Create name => Create = true -> name = b
  | Repository_Worktree _ | Worktree_Pull _ _ _ | fmt_Println _ | filepath_Join _
  | git_Clone _ _ _ => True
  | _ => False
  end.

Definition commit_footprint (c : Call) : Prop :=
  match c with
  | Filesystem_Stat _ _ | Filesystem_Open _ _ | io_ReadAll _ | File_Close _
  | yaml_Unmarshal_Kustomization _ | yaml_Unmarshal_ConfigMap _ | time_Now_Format _
  | yaml_Marshal _ | Filesystem_Remove _ _ | Filesystem_OpenFile _ _ _ _
  | File_Write _ _ | Worktree_Add _ _ | fmt_Println _ => True
  | _ => False
  end.

Definition verify_footprint (c : Call) : Prop :=
  match c with
  | Worktree_Status _ | fmt_Println _ | fmt_Printf _ _ => True
  | _ => False
  end.

(** Calls that commit, move a branch reference to a commit, or push. *)
Definition publishes (c : Call) : bool :=
  match c with
  | Worktree_Commit _ _ _ _ _ | Storer_SetReference _ _ _ | Remote_Push _ _ _ => true
  | _ => false
  end.

(** The answers of [w.Status()]. *)
Definition status_of (e : Entry) : option (result Status) :=
  on_entry (fun c =>
    match c return Result c -> option (result Status) with
    | Worktree_Status _ => fun x => Some x
    | _ => fun _ => None
    end) e.

(** Some path of the status has a staged state other than [Modified]. *)
Definition drifted (st : Status) : Prop :=
  Exists (fun entry => Staging entry.2 <> Modified) st.

(** A working tree in which the manifest is staged as modified and an
    unrelated file shows as newly added. *)
Definition drifted_status : Status :=
  [ ("overlays/staging/kustomization.yaml",
     {| Staging := Modified; Worktree := Unmodified; Extra := "" |});
    ("notes.txt", {| Staging := Added; Worktree := Unmodified; Extra := "" |}) ].

Definition drift_env : Env unit :=
  answering (fun c =>
    match c return option (Result c) with
    | Worktree_Status _ => Some (drifted_status, None)
    | _ => None
    end).

(** ** go-git over its in-memory storage, as far as references go

    The repository a [GitOperator] works on: the reference store (a Go map
    from reference name to commit hash), [HEAD] (symbolic, or detached at a
    commit), whether the working tree has unstaged changes, and what the
    next pull from [origin] finds.  Reference names are taken to be
    well-formed. *)
Inductive Head :=
| Symbolic (name : string)
| Detached (hash : string).

Inductive PullAnswer :=
| PullFails (e : error)
| PullUpToDate
| PullBrings (hash : string).

Record GitWorld := {
  refs : gmap string string;
  HEAD : Head;
  unstaged : bool;
  origin : PullAnswer
}.

Definition withRefs (s : GitWorld) (m : gmap string string) : GitWorld :=
  {| refs := m; HEAD := HEAD s; unstaged := unstaged s; origin := origin s |}.
Definition withHEAD (s : GitWorld) (head : Head) : GitWorld :=
  {| refs := refs s; HEAD := head; unstaged := unstaged s; origin := origin s |}.
Definition withOrigin (s : GitWorld) (a : PullAnswer) : GitWorld :=
  {| refs := refs s; HEAD := HEAD s; unstaged := unstaged s; origin := a |}.

Definition ErrReferenceNotFound : error := ErrVar "plumbing.ErrReferenceNotFound".
Definition ErrUnstagedChanges : error := ErrVar "git.ErrUnstagedChanges".
Definition ErrCreateRequiresBranch : error := ErrVar "git.ErrCreateRequiresBranch".

(** [ReferenceName.IsBranch] *)
Definition IsBranch (name : string) : bool := HasPrefix name "refs/heads/".

(** [Repository.Head]: the commit [HEAD] resolves to. *)
Definition Repository_Head (s : GitWorld) : option string :=
  match HEAD s with
  | Symbolic name => refs s !! name
  | Detached hash => Some hash
  end.

(** [Worktree.setHEADToBranch]: [HEAD] points to a branch under
    [refs/heads/] and is detached at the commit of any other reference. *)
Definition setHEADToBranch (branch commit : string) (s : GitWorld) : GitWorld :=
  withHEAD s (if IsBranch branch then Symbolic branch else Detached commit).

(** [Worktree.updateHEAD]: the branch [HEAD] points to, or the detached
    [HEAD] itself, moves to the commit. *)
Definition updateHEAD (commit : string) (s : GitWorld) : GitWorld :=
  match HEAD s with
  | Symbolic name => withRefs s (<[name := commit]> (refs s))
  | Detached _ => withHEAD s (Detached commit)
  end.

(** [Worktree.Checkout]: with [Create], [createBranch] refuses an existing
    reference and otherwise points the new one at the commit of [HEAD];
    then the branch is resolved, [HEAD] is set, and the merge reset refuses
    a working tree with unstaged changes. *)
Definition gogit_Checkout (Create : bool) (Branch : string) (s : GitWorld)
  : option error * GitWorld :=
  if Create && bool_decide (Branch = "") then (Some ErrCreateRequiresBranch, s)
  else
  let created :=
    if Create then
      match refs s !! Branch with
      | Some _ => inl (ErrNew ("a branch named " +:+ Branch +:+ " already exists"))
      | None =>
          match Repository_Head s with
          | None => inl ErrReferenceNotFound
          | Some hash => inr (withRefs s (<[Branch := hash]> (refs s)))
          end
      end
    else inr s in
  match created with
  | inl e => (Some e, s)
  | inr s1 =>
      match refs s1 !! Branch with
      | None => (Some ErrReferenceNotFound, s1)
      | Some commit =>
          let s2 := setHEADToBranch Branch commit s1 in
          if unstaged s2 then (Some ErrUnstagedChanges, s2) else (None, s2)
      end
  end.

(** [Worktree.Pull]: [HEAD] is moved to what origin has, and the working
    tree is reset to it. *)
Definition gogit_Pull (s : GitWorld) : option error * GitWorld :=
  match origin s with
  | PullFails e => (Some e, s)
  | PullUpToDate => (Some NoErrAlreadyUpToDate, s)
  | PullBrings hash =>
      let s1 := updateHEAD hash s in
      if unstaged s1 then (Some ErrUnstagedChanges, s1) else (None, s1)
  end.

(** The environment: reference and working-tree calls act on the world,
    [git.Clone] onto an existing on-disk repository is refused and in
    memory makes a repository of its own, and every other call answers
    [nominal]. *)
Definition gogit : Env GitWorld :=
  fun c s =>
    default (nominal c, s)
      (match c return option (Result c * GitWorld) with
       | Storer_RemoveReference _ name => Some (None, withRefs s (delete name (refs s)))
       | Storer_SetReference _ name target =>
           Some (None, withRefs s (<[name := target]> (refs s)))
       | Worktree_Checkout _ Create Branch => Some (gogit_Checkout Create Branch s)
       | Worktree_Pull _ _ _ => Some (gogit_Pull s)
       | git_Clone storage _ _ =>
           Some (match storage with
                 | InMemory => (2%nat, None)
                 | OnDisk _ _ => (nil_handle, Some ErrRepositoryAlreadyExists)
                 end, s)
       | _ => None
       end).

(** Commits made on branch [b]: each moves the reference to its hash, as
    [PushDockerImageTag] does with [SetReference]. *)
Definition commits_on (b : string) (hashes : list string) (s : GitWorld) : GitWorld :=
  foldl (fun s hash => (gogit (Storer_SetReference 1%nat b hash) s).2) s hashes.

(** The default branch reference [checkoutMainBranch] checks out. *)
Definition mainRef (g : GitOperator) : string :=
  if decide (defaultBranch g = "") then Master else defaultBranch g.

(** Calls that create the branch [b]; calls that remove its reference. *)
Definition creates_branch (b : string) (c : Call) : bool :=
  match c with
  | Worktree_Checkout _ true name => bool_decide (name = b)
  | _ => false
  end.

Definition removes_reference (b : string) (c : Call) : bool :=
  match c with
  | Storer_RemoveReference _ name => bool_decide (name = b)
  | _ => false
  end.

(** The commit the default branch is at once [checkoutMainBranch] has
    pulled: what origin brings, or what the local reference already has. *)
Definition fresh_base (g : GitOperator) (s : GitWorld) : option string :=
  match origin s with
  | PullBrings hash => Some hash
  | _ => refs s !! mainRef g
  end.

Definition sample_world : GitWorld :=
  {| refs := {[ Master := "c0ffee" ]}; HEAD := Symbolic Master; unstaged := false;
     origin := PullBrings "c0ffee1" |}.


(** ** More of the code *)

(** [strings.Contains(s, substr)] *)
Fixpoint Contains (s substr : string) : bool :=
  HasPrefix s substr ||
  match s with
  | EmptyString => false
  | String _ s' => Contains s' substr
  end.

(** [CreateGitOperatorInstance] (git.go): the operator is built, cloned, and
    returned whether or not the clone failed. *)
Definition CreateGitOperatorInstance (username token repo defaultBranch gitRoot : string)
  : Prog GitOperator :=
  let g := {| auth := {| Username := username; Password := token |};
              repo := repo; repository := nil_handle; username := username;
              defaultBranch := defaultBranch; gitRoot := gitRoot |} in
  '(g, err) ← Clone g;
  _ ← match err with
      | Some e => call (fmt_Println [OStr "[ERROR] Failed to Clone: "; OErr (ErrNew (Error e))])
      | None => mret tt
      end;
  mret g.

(** The [git.Clone] calls of a trace: storage, URL, credentials, answer. *)
Definition clone_of (e : Entry) : option (Storage * string * BasicAuth * result handle) :=
  on_entry (fun c =>
    match c return Result c -> option (Storage * string * BasicAuth * result handle) with
    | git_Clone storage URL Auth => fun x => Some (storage, URL, Auth, x)
    | _ => fun _ => None
    end) e.

(** An environment in which [git.Clone] fails and returns no repository. *)
Definition clone_fails_env : Env unit :=
  answering (fun c =>
    match c return option (Result c) with
    | git_Clone _ _ _ => Some (nil_handle, Some (ErrNew "authentication required"))
    | _ => None
    end).

(** The calls of a trace that change the working tree, in order. *)
Definition change_of (e : Entry) : option Call :=
  if changes_worktree (called e) then Some (called e) else None.

Definition changes (t : Trace) : list Call := omap change_of t.

(** A config map with a cache prefix among its data, and an environment in
    which the document decodes to it and the clock reads one instant. *)
Definition sample_configmap : ConfigMap :=
  {| APIVersion := "v1"; ConfigMap_Kind := "ConfigMap";
     Metadata := {[ "name" := "api-env" ]};
     Data := {[ "MEMCACHED_PREFIX" := "2020-01-01T00:00:00"; "LOG_LEVEL" := "info" ]} |}.

Definition configmap_env : Env unit :=
  answering (fun c =>
    match c return option (Result c) with
    | yaml_Unmarshal_ConfigMap _ => Some (sample_configmap, None)
    | time_Now_Format _ => Some "2026-11-03T10:00:00"
    | _ => None
    end).

(** What was pushed and committed: the [Push] calls of a trace with their
    answers, and the [Commit] calls with theirs. *)
Definition push_of (e : Entry) : option (handle * string * BasicAuth * option error) :=
  on_entry (fun c =>
    match c return Result c -> option (handle * string * BasicAuth * option error) with
    | Remote_Push remote RefSpec Auth => fun x => Some (remote, RefSpec, Auth, x)
    | _ => fun _ => None
    end) e.

Definition commit_of (e : Entry)
  : option (string * string * string * handle * result string) :=
  on_entry (fun c =>
    match c return Result c -> option (string * string * string * handle * result string) with
    | Worktree_Commit _ msg AuthorName AuthorEmail When =>
        fun x => Some (msg, AuthorName, AuthorEmail, When, x)
    | _ => fun _ => None
    end) e.

(** The calls on the working tree that name a file name [path]. *)
Definition names_file (path : string) (c : Call) : Prop :=
  match c with
  | Filesystem_Stat _ p | Filesystem_Open _ p | Filesystem_Remove _ p
  | Filesystem_OpenFile _ p _ _ | Worktree_Add _ p => p = path
  | _ => True
  end.

(** An environment in which [Commit] fails and returns the zero hash. *)
Definition commit_fails_env : Env unit :=
  answering (fun c =>
    match c return option (Result c) with
    | Worktree_Commit _ _ _ _ _ => Some ("0000000", Some (ErrNew "empty commit"))
    | time_Now => Some 7%nat
    | _ => None
    end).

(** The answers of [Pull], and the [Checkout] calls with their options. *)
Definition pull_of (e : Entry) : option (option error) :=
  on_entry (fun c =>
    match c return Result c -> option (option error) with
    | Worktree_Pull _ _ _ => fun x => Some x
    | _ => fun _ => None
    end) e.

Definition checkout_of (e : Entry) : option (handle * bool * string * option error) :=
  on_entry (fun c =>
    match c return Result c -> option (handle * bool * string * option error) with
    | Worktree_Checkout w Create Branch => fun x => Some (w, Create, Branch, x)
    | _ => fun _ => None
    end) e.

(** An environment in which origin cannot be reached. *)
Definition offline_env : Env unit :=
  answering (fun c =>
    match c return option (Result c) with
    | Worktree_Pull _ _ _ => Some (Some (ErrNew "dial tcp: i/o timeout"))
    | _ => None
    end).

(** The answers of [CreateECRInstance]. *)
Definition ecr_of (e : Entry) : option (result handle) :=
  on_entry (fun c =>
    match c return Result c -> option (result handle) with
    | CreateECRInstance => fun x => Some x
    | _ => fun _ => None
    end) e.

(** The calls [Prepare] makes once the repository is cloned: the checkout,
    the tool and the clean-up; and these together with the clone. *)
Definition uses_repository (c : Call) : bool :=
  match c with
  | Repository_Worktree _ | Worktree_Checkout _ _ _ | Worktree_Pull _ _ _ | cli_New
  | os_MkdirAll _ _ | os_Getenv _ | Client_Apply _ _ _ _ | os_Stat _ | os_RemoveAll _
  | Filesystem_Join _ _ => true
  | _ => false
  end.

Definition touches_repository (c : Call) : bool :=
  match c with
  | git_Clone _ _ _ => true
  | _ => uses_repository c
  end.

(** The calls the body of [Prepare] and [Clean] can make. *)
Definition body_footprint (c : Call) : Prop :=
  match c with
  | Repository_Worktree _ | Worktree_Checkout _ _ _ | Worktree_Pull _ _ _ | fmt_Println _
  | filepath_Join _ | git_Clone _ _ _ | cli_New | os_MkdirAll _ _ | os_Getenv _
  | filepath_Base _ | Filesystem_Join _ _ | Client_Apply _ _ _ _ => True
  | _ => False
  end.

Definition Clean_footprint (c : Call) : Prop :=
  match c with
  | filepath_Join _ | os_Stat _ | os_RemoveAll _ => True
  | _ => False
  end.

(** Environments in which the registry cannot be reached, in which the
    project has no phase of the name, and in which the clone is refused. *)
Definition no_registry_env : Env unit :=
  answering (fun c =>
    match c return option (Result c) with
    | CreateECRInstance => Some (nil_handle, Some (ErrNew "no credentials"))
    | _ => None
    end).

(** The repository calls of the operator [g]: [Worktree()] on its
    repository, [git.Clone] from its URL with its credentials. *)
Definition operator_footprint (g : GitOperator) (c : Call) : Prop :=
  match c with
  | Repository_Worktree r => r = repository g
  | git_Clone _ URL Auth => URL = repo g /\ Auth = auth g
  | _ => True
  end.


(** The deployments and notifications of a trace, with their answers. *)
Definition deploy_of (e : Entry)
  : option (handle * DeployProject * string * DeployOption * result handle) :=
  on_entry (fun c =>
    match c return Result c ->
                   option (handle * DeployProject * string * DeployOption * result handle) with
    | Model_Deploy model pj phase opt => fun x => Some (model, pj, phase, opt, x)
    | _ => fun _ => None
    end) e.

Definition post_of (e : Entry) : option (handle * string * Attachment) :=
  match called e with
  | Client_PostMessage client channel attachment => Some (client, channel, attachment)
  | _ => None
  end.

(** An environment in which the registry has a newer tag than the one
    deployed. *)
Definition new_tag_env : Env unit :=
  answering (fun c =>
    match c return option (Result c) with
    | GetCurrentRevision _ _ => Some ("v1", None)
    | FindImageTagByRegexp _ _ _ _ _ _ => Some ("v2", None)
    | DefaultBranch _ => Some "main"
    | _ => None
    end).

(** The answers of [RemoveReference]; an environment in which the
    reference cannot be removed. *)
Definition removed_of (e : Entry) : option (string * option error) :=
  on_entry (fun c =>
    match c return Result c -> option (string * option error) with
    | Storer_RemoveReference _ name => fun x => Some (name, x)
    | _ => fun _ => None
    end) e.

Definition locked_refs_env : Env unit :=
  answering (fun c =>
    match c return option (Result c) with
    | Storer_RemoveReference _ _ => Some (Some (ErrNew "reference is locked"))
    | _ => None
    end).

(** A manifest in which the target image appears twice, at older tags. *)
Definition stale_manifest : types.Kustomization :=
  {| types.Images :=
       [ {| types.Name := "app"; types.NewName := "registry/app"; types.NewTag := "v1";
            types.Digest := "" |};
         {| types.Name := "sidecar"; types.NewName := ""; types.NewTag := "1.0";
            types.Digest := "" |};
         {| types.Name := "app"; types.NewName := ""; types.NewTag := "v0";
            types.Digest := "" |} ];
     types.Others := [] |}.

(** * Properties *)

(** ** The library functions at work *)

Example Atoi_decimal : Atoi "42" = (42, None).
Proof. reflexivity. Qed.

Example Atoi_signed : Atoi "-7" = (-7, None) /\ Atoi "+7" = (7, None).
Proof. split; reflexivity. Qed.

Example Atoi_syntax : Atoi "4x2" = (0, Some (NumError "Atoi" "4x2" ErrSyntax)).
Proof. reflexivity. Qed.

Example Atoi_range :
  Atoi "9223372036854775808"
  = (maxInt64, Some (NumError "Atoi" "9223372036854775808" ErrRange)) /\
  Atoi "-9223372036854775808" = (minInt64, None).
Proof. split; reflexivity. Qed.

Example ReplaceAll_scheme :
  ReplaceAll "https://github.com/zaiminc/gocat.git" "https://" ""
  = "github.com/zaiminc/gocat.git".
Proof. reflexivity. Qed.

Example ReplaceAll_configmap :
  ReplaceAll "overlays/staging/kustomization.yaml" "kustomization.yaml" "configmap.yaml"
  = "overlays/staging/configmap.yaml".
Proof. reflexivity. Qed.

Example TrimSuffix_git :
  TrimSuffix "github.com/zaiminc/gocat.git" ".git" = "github.com/zaiminc/gocat" /\
  TrimSuffix "git" ".git" = "git".
Proof. split; reflexivity. Qed.

Example Sprintf_branch_sample :
  Sprintf_branch "api" "staging" "v2" = "bot/docker-image-tag-api-staging-v2".
Proof. reflexivity. Qed.

Example getLocalRepoRoot_sample :
  returned (run (answering (fun _ => None)) (getLocalRepoRoot sample_operator) tt)
  = "/var/gocat/github.com/zaiminc/gocat".
Proof. reflexivity. Qed.

Example range_Images_sample :
  range_Images sample_overwrite
    [ {| types.Name := "app"; types.NewName := ""; types.NewTag := "v1"; types.Digest := "" |};
      {| types.Name := "db"; types.NewName := ""; types.NewTag := "9"; types.Digest := "" |} ]
  = ([ {| types.Name := "app"; types.NewName := ""; types.NewTag := "v2"; types.Digest := "" |};
       {| types.Name := "db"; types.NewName := ""; types.NewTag := "9"; types.Digest := "" |} ],
     true).
Proof. reflexivity. Qed.

Section Machinery.
Context {W : Type} (env : Env W).

Lemma run_outcome {A} (p : Prog A) (w : W) :
  outcome p (trace (run env p w)) (returned (run env p w)).
Proof.
  revert w. induction p as [a | c k IH]; intros w; cbn.
  - done.
  - destruct (env c w) as [x w1] eqn:E.
    specialize (IH x w1).
    destruct (run env (k x) w1) as [[a w2] t] eqn:R.
    exists x, t. split; [done | exact IH].
Qed.

Lemma run_bind {A B} (p : Prog A) (f : A -> Prog B) (w : W) :
  run env (p ≫= f) w =
    let '(a, w1, t1) := run env p w in
    let '(b, w2, t2) := run env (f a) w1 in
    (b, w2, t1 ++ t2).
Proof.
  revert w. induction p as [a | c k IH]; intros w; cbn.
  - by destruct (run env (f a) w) as [[b w2] t2].
  - destruct (env c w) as [x w1].
    change (bind (k x) f) with (k x ≫= f). rewrite IH.
    destruct (run env (k x) w1) as [[a w2] t1].
    by destruct (run env (f a) w2) as [[b w3] t2].
Qed.
End Machinery.

Lemma outcome_bind {A B} (p : Prog A) (f : A -> Prog B) (t : Trace) (b : B) :
  outcome (p ≫= f) t b <->
  exists a t1 t2, t = t1 ++ t2 /\ outcome p t1 a /\ outcome (f a) t2 b.
Proof.
  revert t. induction p as [a | c k IH]; intros t; cbn.
  - split.
    + intros H. exists a, [], t. done.
    + intros (a' & t1 & t2 & -> & [-> ->] & H). done.
  - split.
    + intros (x & t' & -> & H). apply IH in H as (a & t1 & t2 & -> & H1 & H2).
      exists a, (Called c x :: t1), t2. split; [done |]. split; [| done].
      exists x, t1. done.
    + intros (a & t1 & t2 & -> & (x & t' & -> & H1) & H2).
      exists x, (t' ++ t2). split; [done |]. apply IH. eauto 10.
Qed.

Lemma always_bind {A B} (good : Call -> Prop) (p : Prog A) (f : A -> Prog B) :
  always good p -> (forall a, always good (f a)) -> always good (p ≫= f).
Proof.
  intros Hp Hf. induction p as [a | c k IH]; cbn in *.
  - apply Hf.
  - destruct Hp as [Hc Hk]. split; [done |]. intros x. apply IH, Hk.
Qed.

Lemma always_outcome {A} (good : Call -> Prop) (p : Prog A) t a :
  always good p -> outcome p t a -> Forall (fun e => good (called e)) t.
Proof.
  revert t. induction p as [a' | c k IH]; cbn; intros t Hp Ho.
  - destruct Ho as [-> _]. constructor.
  - destruct Hp as [Hc Hk]. destruct Ho as (x & t' & -> & Ho).
    constructor; [done |]. eapply IH; eauto.
Qed.

Lemma always_mono {A} (good good' : Call -> Prop) (p : Prog A) :
  (forall c, good c -> good' c) -> always good p -> always good' p.
Proof.
  intros Himp. induction p as [a | c k IH]; cbn; [done |].
  intros [Hc Hk]. split; [auto |]. intros x. apply IH, Hk.
Qed.

(** Unfolding a program along one of its runs. *)
Ltac scrutinee p :=
  lazymatch p with
  | bind ?q _ => scrutinee q
  | match ?x with _ => _ end => x
  end.

Ltac outcome_step H :=
  lazymatch type of H with
  | _ = [] /\ _ => destruct H as [-> ?]; subst
  | exists _, _ =>
      let x := fresh "x" in let t := fresh "t" in
      destruct H as (x & t & -> & H)
  | outcome ?p _ _ => let x := scrutinee p in destruct x eqn:?
  end.

Ltac outcome_inv H :=
  repeat (unfold mbind, Prog_bind, mret, Prog_ret, call in H;
          cbn [outcome bind] in H; outcome_step H).

(** Looking for an entry in a trace that is known. *)
Ltac exists_inv H :=
  repeat lazymatch type of H with
    | Exists _ [] => inversion H
    | Exists _ (_ :: _) => apply Exists_cons in H as [H | H]; [cbn in H; try discriminate H |]
    end.

Ltac find_entry :=
  repeat first [ apply Exists_cons_hd; reflexivity | apply Exists_cons_tl ].

(** ** The watcher skips a tick *)

Lemma checkAndDeploy_outcome a dp phase t u :
  outcome (checkAndDeploy a dp phase) t u ->
  Exists (fun e => deploys_or_notifies (called e) = true) t ->
  exists cur tag,
    cur <> tag /\
    Forall (fun e => forall r, revision_of e = Some r -> r = (cur, None)) t /\
    Forall (fun e => forall r, registry_of e = Some r -> r = (tag, None)) t.
Proof.
  intros H Hex. unfold checkAndDeploy in H.
  outcome_inv H.
  all: repeat match goal with
         | H : Exists _ [] |- _ => inversion H
         | H : Exists _ (_ :: _) |- _ => apply Exists_cons in H as [H | H]; [by cbn in H |]
         end.
  all: match goal with
       | Hb : bool_decide (?cur = ?tag) || isErr ?err = false |- _ =>
           apply orb_false_iff in Hb as [Hne Herr];
           apply bool_decide_eq_false in Hne;
           destruct err; [discriminate Herr |];
           exists cur, tag
       end.
  all: split; [done |].
  all: split; repeat constructor; cbn; intros r Hr; by inversion Hr.
Qed.

(** C4. For every tick of [checkAndDeploy], in every environment: when the
    current-revision query fails, or the registry query fails, or both
    return the same tag, the tick calls neither the deploy executor nor
    the notifier. *)
Theorem checkAndDeploy_skips {W} (env : Env W) (w : W) a dp phase :
  let t := trace (run env (checkAndDeploy a dp phase) w) in
  (exists cur e, Exists (fun en => revision_of en = Some (cur, Some e)) t) \/
  (exists tag e, Exists (fun en => registry_of en = Some (tag, Some e)) t) \/
  (exists tag e1 e2,
      Exists (fun en => revision_of en = Some (tag, e1)) t /\
      Exists (fun en => registry_of en = Some (tag, e2)) t) ->
  Forall (fun en => deploys_or_notifies (called en) = false) t.
Proof.
  intros t Hskip.
  pose proof (run_outcome env (checkAndDeploy a dp phase) w) as Ho. fold t in Ho.
  destruct (decide (Exists (fun en => deploys_or_notifies (called en) = true) t))
    as [Hex | Hno].
  - exfalso.
    destruct (checkAndDeploy_outcome _ _ _ _ _ Ho Hex) as (cur & tag & Hne & Hrev & Hreg).
    rewrite Forall_forall in Hrev, Hreg.
    destruct Hskip as [(c & e & H) | [(c & e & H) | (c & e1 & e2 & H1 & H2)]].
    + apply Exists_exists in H as (en & Hin & Hen). by specialize (Hrev en Hin _ Hen).
    + apply Exists_exists in H as (en & Hin & Hen). by specialize (Hreg en Hin _ Hen).
    + apply Exists_exists in H1 as (en1 & Hin1 & Hen1).
      apply Exists_exists in H2 as (en2 & Hin2 & Hen2).
      specialize (Hrev en1 Hin1 _ Hen1). specialize (Hreg en2 Hin2 _ Hen2).
      congruence.
  - apply Forall_Exists_neg in Hno. eapply Forall_impl; [exact Hno |].
    intros en Hen. cbn in Hen. by destruct (deploys_or_notifies (called en)).
Qed.


Lemma checkAndDeploy_skips_witness :
  Forall (fun en => deploys_or_notifies (called en) = false)
    (trace (run same_tag_env (checkAndDeploy sample_watcher sample_project sample_phase) tt)).
Proof.
  apply (checkAndDeploy_skips same_tag_env tt sample_watcher sample_project sample_phase).
  right; right. exists "v1", None, None.
  split; vm_compute; find_entry.
Defined.

(** ** Phase aliases *)

(** C10. [toPhase] returns one of three values: "production" for "pro",
    "prd" and "production", "staging" for "stg" and "staging", "sandbox"
    for "sandbox", and "staging" for every other string. *)
Theorem toPhase_spec (str : string) :
  (str ∈ ["pro"; "prd"; "production"] -> toPhase str = "production") /\
  (str ∈ ["stg"; "staging"] -> toPhase str = "staging") /\
  (str = "sandbox" -> toPhase str = "sandbox") /\
  (str ∉ ["pro"; "prd"; "production"; "stg"; "staging"; "sandbox"] ->
   toPhase str = "staging") /\
  toPhase str ∈ ["production"; "staging"; "sandbox"].
Proof.
  unfold toPhase.
  repeat case_decide; subst;
    repeat split; intros; try reflexivity;
    repeat match goal with
      | H : _ ∈ _ :: _ |- _ => apply elem_of_cons in H as [H | H]; try congruence
      | H : _ ∈ [] |- _ => by apply elem_of_nil in H
      | H : _ ∉ _ |- _ => exfalso; apply H; set_solver
      end;
    try congruence; set_solver.
Qed.

Lemma toPhase_spec_witness :
  toPhase "canary" = "staging" /\ toPhase "prd" = "production".
Proof.
  split.
  - apply (toPhase_spec "canary"). apply (bool_decide_unpack _). vm_compute. exact I.
  - apply (toPhase_spec "prd"). apply (bool_decide_unpack _). vm_compute. exact I.
Defined.

(** ** Clean *)

Lemma Clean_outcome g t r :
  outcome (Clean g) t r ->
  (gitRoot g = "" -> t = [] /\ r = None) /\
  (gitRoot g <> "" ->
   exists p t', t = Called (filepath_Join
                             [gitRoot g;
                              TrimSuffix (ReplaceAll (ReplaceAll (repo g) "https://" "")
                                            "/" PathSeparator) ".git"]) p :: t' /\
     (p <> "" -> exists dotGit x t'',
                   t' = Called (filepath_Join [p; ".git"]) dotGit
                        :: Called (os_Stat dotGit) x :: t'')) /\
  (forall path e, Exists (fun en => os_Stat_of en = Some (path, Some e)) t ->
     r = Some (ErrWrap ("unable to stat " +:+ path) e) /\
     Forall (fun en => removes_from_disk (called en) = false) t) /\
  (Exists (fun en => removes_from_disk (called en) = true) t ->
     exists p dotGit t1 t2 x,
       t = t1 ++ [Called (filepath_Join [p; ".git"]) dotGit;
                  Called (os_Stat dotGit) None;
                  Called (os_RemoveAll p) x] ++ t2).
Proof.
  intros H. unfold Clean, getLocalRepoRoot in H.
  outcome_inv H.
  all: split; [intros Hroot; try done; try congruence |].
  all: split;
    [ intros Hroot;
      first [ done
            | eexists _, _; split;
              [reflexivity | intros Hp; first [done | by eexists _, _, _]] ] |].
  all: split;
    [ intros path e' Hex; exists_inv Hex; simplify_eq;
      (split; [done | by repeat constructor])
    | intros Hex; exists_inv Hex ].
  all: try done.
  all: match goal with
       | |- exists p dotGit t1 t2 x,
             Called (filepath_Join _) ?p0 :: Called (filepath_Join _) ?d :: _ = _ =>
           exists p0, d, [Called (filepath_Join [gitRoot g;
                            TrimSuffix (ReplaceAll (ReplaceAll (repo g) "https://" "") "/" PathSeparator) ".git"]) p0]
       end.
  all: eexists _, _; reflexivity.
Qed.

(** C6. In every environment: an operator with a local path ([gitRoot] not
    empty, and a path derived from it) has [os.Stat] called on the marker
    [filepath.Join(p, ".git")]; when that [os.Stat] fails, [Clean] returns
    the error "unable to stat ..." and calls [os.RemoveAll] nowhere; and
    [os.RemoveAll p] is only ever called right after [os.Stat] succeeded on
    the marker of [p].  An operator on the in-memory store ([gitRoot]
    empty) has no local path: [Clean] then does nothing. *)
Theorem Clean_needs_marker {W} (env : Env W) (w : W) (g : GitOperator) :
  let r := run env (Clean g) w in
  (forall path e,
      Exists (fun en => os_Stat_of en = Some (path, Some e)) (trace r) ->
      returned r = Some (ErrWrap ("unable to stat " +:+ path) e) /\
      Forall (fun en => removes_from_disk (called en) = false) (trace r)) /\
  (Exists (fun en => removes_from_disk (called en) = true) (trace r) ->
     exists p dotGit t1 t2 x,
       trace r = t1 ++ [Called (filepath_Join [p; ".git"]) dotGit;
                        Called (os_Stat dotGit) None;
                        Called (os_RemoveAll p) x] ++ t2) /\
  (gitRoot g <> "" ->
   exists p t', trace r =
                Called (filepath_Join
                          [gitRoot g;
                           TrimSuffix (ReplaceAll (ReplaceAll (repo g) "https://" "")
                                         "/" PathSeparator) ".git"]) p :: t' /\
     (p <> "" -> exists dotGit x t'',
                   t' = Called (filepath_Join [p; ".git"]) dotGit
                        :: Called (os_Stat dotGit) x :: t'')) /\
  (gitRoot g = "" -> trace r = [] /\ returned r = None).
Proof.
  intros r.
  destruct (Clean_outcome g _ _ (run_outcome env (Clean g) w)) as (H0 & H1 & H2 & H3).
  auto.
Qed.

Lemma Clean_needs_marker_witness :
  let r := run no_marker_env (Clean sample_operator) tt in
  returned r =
    Some (ErrWrap "unable to stat /var/gocat/github.com/zaiminc/gocat/.git" ErrNotExist) /\
  Forall (fun en => removes_from_disk (called en) = false) (trace r).
Proof.
  eapply (proj1 (Clean_needs_marker no_marker_env tt sample_operator)).
  vm_compute. find_entry.
Defined.

(** ** commit *)

(** C7. In every environment: when [Stat] of the target path fails, [commit]
    returns [nil] after that one call and the log line; it opens, removes,
    writes and stages nothing. *)
Theorem commit_absent_file {W} (env : Env W) (w : W) {T} `{!OverWrite T}
    (g : GitOperator) (wt : handle) (path : string) (o : T) :
  let r := run env (commit g wt path o) w in
  forall e, (env (Filesystem_Stat wt path) w).1 = Some e ->
  returned r = None /\
  trace r =
    [Called (Filesystem_Stat wt path) (Some e);
     Called (fmt_Println [OStr "[INFO] The file does not exist: "; OErr (ErrNew (Error e))]) tt] /\
  Forall (fun en => changes_worktree (called en) = false) (trace r).
Proof.
  intros r e He. subst r. unfold commit. unfold mbind, Prog_bind, call. cbn.
  destruct (env (Filesystem_Stat wt path) w) as [x w1]. cbn in He. subst x. cbn.
  destruct (env _ w1) as [[] w2]. cbn.
  split; [done |]. split; [done |]. by repeat constructor.
Qed.

Lemma commit_absent_file_witness :
  let r := run empty_worktree_env
             (commit sample_operator 1%nat "overlays/staging/kustomization.yaml"
                {| tag := "v2"; targetTag := "app" |}) tt in
  returned r = None /\
  Forall (fun en => changes_worktree (called en) = false) (trace r).
Proof.
  pose proof (commit_absent_file empty_worktree_env tt sample_operator 1%nat
                "overlays/staging/kustomization.yaml"
                {| tag := "v2"; targetTag := "app" |} ErrNotExist eq_refl) as H.
  cbv zeta in H |- *. tauto.
Defined.

(** ** The image-tag overwrite *)

Lemma range_step_at o (pre : list types.Image) image rest updated :
  range_step o (pre ++ image :: rest, updated) (length pre) =
  (pre ++ retag o image :: rest,
   updated || bool_decide (types.Name image = targetTag o)).
Proof.
  unfold range_step, retag.
  rewrite list_lookup_middle by done.
  case_decide as Hname.
  - rewrite bool_decide_eq_true_2 by done. rewrite orb_true_r.
    f_equal. rewrite insert_app_r_alt by lia.
    by rewrite Nat.sub_diag.
  - rewrite bool_decide_eq_false_2 by done. by rewrite orb_false_r.
Qed.

Lemma range_loop o (pre rest : list types.Image) updated :
  foldl (range_step o) (pre ++ rest, updated) (seq (length pre) (length rest)) =
  (pre ++ map (retag o) rest,
   updated || existsb (fun image => bool_decide (types.Name image = targetTag o)) rest).
Proof.
  revert pre updated. induction rest as [| image rest IH]; intros pre updated.
  - cbn. by rewrite orb_false_r.
  - cbn [length seq foldl map existsb]. rewrite range_step_at.
    replace (pre ++ retag o image :: rest) with ((pre ++ [retag o image]) ++ rest)
      by by rewrite <- app_assoc.
    replace (S (length pre)) with (length (pre ++ [retag o image]))
      by (rewrite length_app; cbn; lia).
    rewrite IH. rewrite <- app_assoc. cbn. by rewrite orb_assoc.
Qed.

Lemma range_Images_spec o images :
  range_Images o images =
  (map (retag o) images,
   existsb (fun image => bool_decide (types.Name image = targetTag o)) images).
Proof. unfold range_Images. apply (range_loop o [] images false). Qed.

Lemma updateKustomization_Images o obj :
  types.Images (updateKustomization o obj) =
  if existsb (fun image => bool_decide (types.Name image = targetTag o)) (types.Images obj)
  then map (retag o) (types.Images obj)
  else map (retag o) (types.Images obj) ++ [newImage o].
Proof.
  unfold updateKustomization. rewrite range_Images_spec.
  by destruct (existsb _ _).
Qed.

Lemma updateKustomization_Others o obj :
  types.Others (updateKustomization o obj) = types.Others obj.
Proof.
  unfold updateKustomization. destruct (range_Images o _) as [images []]; done.
Qed.

Lemma retag_same o image :
  types.NewTag image = tag o -> retag o image = image.
Proof.
  intros Htag. unfold retag, types.withNewTag. case_decide; [| done].
  destruct image; cbn in *; by subst.
Qed.

Lemma map_retag_absent o images :
  Forall (fun image => types.Name image <> targetTag o) images ->
  map (retag o) images = images /\
  existsb (fun image => bool_decide (types.Name image = targetTag o)) images = false.
Proof.
  induction 1 as [| image images Hne _ [IH1 IH2]]; [done |].
  cbn. rewrite IH1, IH2. unfold retag. rewrite decide_False by done.
  by rewrite bool_decide_eq_false_2.
Qed.

Lemma Update_outcome o b t r :
  outcome (Update o b) t r ->
  forall obj, Exists (fun en => decoded_of en = Some (b, obj)) t ->
  r = (AnyKustomization (updateKustomization o obj), None).
Proof.
  intros H obj Hex. unfold Update, KustomizationOverWrite_Update in H.
  outcome_inv H.
  all: apply Exists_cons in Hex as [Hex | Hex]; [| by inversion Hex].
  all: cbn in Hex; congruence.
Qed.

Lemma retag_Name o image : types.Name (retag o image) = types.Name image.
Proof. unfold retag. by case_decide. Qed.

Lemma retag_idem o image : retag o (retag o image) = retag o image.
Proof.
  destruct (decide (types.Name image = targetTag o)) as [Hname | Hname].
  - replace (retag o image) with (types.withNewTag image (tag o))
      by (unfold retag; by rewrite decide_True).
    by apply retag_same.
  - replace (retag o image) with image by (unfold retag; by rewrite decide_False).
    unfold retag. by rewrite decide_False.
Qed.

Lemma existsb_retag o images :
  existsb (fun image => bool_decide (types.Name image = targetTag o)) (map (retag o) images) =
  existsb (fun image => bool_decide (types.Name image = targetTag o)) images.
Proof.
  induction images as [| image images IH]; [done |].
  cbn. by rewrite retag_Name, IH.
Qed.

Lemma updateKustomization_idem o obj :
  updateKustomization o (updateKustomization o obj) = updateKustomization o obj.
Proof.
  assert (Himg : types.Images (updateKustomization o (updateKustomization o obj)) =
                 types.Images (updateKustomization o obj)).
  { rewrite (updateKustomization_Images o (updateKustomization o obj)).
    rewrite (updateKustomization_Images o obj).
    destruct (existsb _ (types.Images obj)) eqn:Hex.
    - rewrite existsb_retag, Hex. rewrite map_map.
      apply map_ext. intros image. apply retag_idem.
    - rewrite existsb_app. cbn. rewrite bool_decide_eq_true_2 by done.
      rewrite orb_true_r. rewrite map_app, map_map. cbn. f_equal.
      + apply map_ext. intros image. apply retag_idem.
      + f_equal. apply retag_same. done. }
  pose proof (updateKustomization_Others o (updateKustomization o obj)) as Hoth.
  destruct (updateKustomization o (updateKustomization o obj)) as [i1 o1].
  destruct (updateKustomization o obj) as [i2 o2]. cbn in *. by subst.
Qed.

(** C3. In every environment in which the manifest decodes to [obj], the
    image-tag overwrite returns a manifest in which (a) every entry named
    [targetTag] that is already at [tag] is unchanged, at its position;
    (b) when no entry is named [targetTag], the images are the old ones
    followed by exactly one new entry [{name: targetTag, newTag: tag}];
    and (c) overwriting the result again changes nothing. *)
Theorem Update_image_tag {W} (env : Env W) (w : W) (o : KustomizationOverWrite)
    (b : bytes) (obj : types.Kustomization) :
  let r := run env (Update o b) w in
  Exists (fun en => decoded_of en = Some (b, obj)) (trace r) ->
  exists obj',
    returned r = (AnyKustomization obj', None) /\
    (forall i image,
        types.Images obj !! i = Some image ->
        types.Name image = targetTag o -> types.NewTag image = tag o ->
        types.Images obj' !! i = Some image) /\
    (Forall (fun image => types.Name image <> targetTag o) (types.Images obj) ->
     types.Images obj' = types.Images obj ++ [newImage o]) /\
    updateKustomization o obj' = obj'.
Proof.
  intros r Hdec. exists (updateKustomization o obj).
  split; [by eapply Update_outcome; [apply run_outcome |] |].
  split; [| split].
  - intros i image Hi Hname Htag. rewrite updateKustomization_Images.
    assert (Hmap : map (retag o) (types.Images obj) !! i = Some image).
    { rewrite list_lookup_fmap_Some. exists image. split; [| done].
      symmetry. by apply retag_same. }
    destruct (existsb _ _); [done |]. by apply lookup_app_l_Some.
  - intros Habs. rewrite updateKustomization_Images.
    destruct (map_retag_absent o _ Habs) as [-> ->]. done.
  - apply updateKustomization_idem.
Qed.

Lemma Update_image_tag_witness :
  (exists obj',
      returned (run (manifest_env sample_manifest) (Update sample_overwrite "images: ...") tt)
        = (AnyKustomization obj', None) /\
      types.Images obj' !! 1%nat = types.Images sample_manifest !! 1%nat) /\
  (exists obj',
      returned (run (manifest_env other_manifest) (Update sample_overwrite "images: ...") tt)
        = (AnyKustomization obj', None) /\
      types.Images obj' = types.Images other_manifest ++ [newImage sample_overwrite]).
Proof.
  split.
  - destruct (Update_image_tag (manifest_env sample_manifest) tt sample_overwrite
                "images: ..." sample_manifest) as (obj' & Hr & Hsame & _).
    { vm_compute. find_entry. }
    exists obj'. split; [exact Hr |].
    apply Hsame; reflexivity.
  - destruct (Update_image_tag (manifest_env other_manifest) tt sample_overwrite
                "images: ..." other_manifest) as (obj' & Hr & _ & Hnew & _).
    { vm_compute. find_entry. }
    exists obj'. split; [exact Hr |].
    apply Hnew. repeat constructor; by vm_compute.
Defined.

(** ** The manifest through commit *)


Lemma commit_Kustomization_outcome g wt path (o : KustomizationOverWrite) t r b obj :
  outcome (commit g wt path o) t r ->
  Exists (fun en => decoded_of en = Some (b, obj)) t ->
  Forall (fun en => forall v x, marshalled_of en = Some (v, x) ->
                    v = AnyKustomization (updateKustomization o obj)) t /\
  (r = None ->
   exists rb,
     Exists (fun en => marshalled_of en =
                       Some (AnyKustomization (updateKustomization o obj), (rb, None))) t /\
     written t = [rb; newline]).
Proof.
  intros H Hex.
  unfold commit, logged, Update, KustomizationOverWrite_Update in H.
  outcome_inv H.
  all: exists_inv Hex; simplify_eq.
  all: split;
    [ repeat constructor; cbn; intros v' x' Hv; by simplify_eq
    | intros Hr; try discriminate Hr ].
  all: eexists; split; [find_entry | reflexivity].
Qed.

(** C9 (amended). In every environment in which the manifest decodes to
    [obj]: the overwrite leaves every field of [obj] other than the image
    list as it is; [yaml.Marshal] is only ever given that updated value;
    and when [commit] succeeds the file is rewritten with exactly the bytes
    [yaml.Marshal] answered for it, followed by a newline. *)
Theorem commit_keeps_declared_fields {W} (env : Env W) (w : W) (g : GitOperator)
    (wt : handle) (path : string) (o : KustomizationOverWrite)
    (b : bytes) (obj : types.Kustomization) :
  let r := run env (commit g wt path o) w in
  Exists (fun en => decoded_of en = Some (b, obj)) (trace r) ->
  types.Others (updateKustomization o obj) = types.Others obj /\
  Forall (fun en => forall v x, marshalled_of en = Some (v, x) ->
                    v = AnyKustomization (updateKustomization o obj)) (trace r) /\
  (returned r = None ->
   exists rb,
     Exists (fun en => marshalled_of en =
                       Some (AnyKustomization (updateKustomization o obj), (rb, None)))
       (trace r) /\
     written (trace r) = [rb; newline]).
Proof.
  intros r Hex. split; [apply updateKustomization_Others |].
  eapply commit_Kustomization_outcome; [apply run_outcome | exact Hex].
Qed.

Lemma commit_keeps_declared_fields_witness :
  let r := run (manifest_env sample_manifest)
             (commit sample_operator 1%nat "kustomization.yaml" sample_overwrite) tt in
  types.Others (updateKustomization sample_overwrite sample_manifest)
    = types.Others sample_manifest /\
  written (trace r) = [""; newline].
Proof.
  destruct (commit_keeps_declared_fields (manifest_env sample_manifest) tt sample_operator
              1%nat "kustomization.yaml" sample_overwrite "" sample_manifest)
    as (Hoth & _ & Hw).
  { vm_compute. find_entry. }
  split; [exact Hoth |]. reflexivity.
Defined.

(** The claim C9 as stated fails: a top-level key that [types.Kustomization]
    does not declare is gone after parse, update and re-serialize. *)
Lemma undeclared_field_is_dropped :
  manifest_fields (rewrite_manifest sample_overwrite annotated_manifest)
    = [("resources", "[deployment.yaml]")] /\
  manifest_fields (rewrite_manifest sample_overwrite annotated_manifest)
    <> manifest_fields annotated_manifest.
Proof. split; [reflexivity | by vm_compute]. Qed.

(** ** The kanvas plugin *)

Ltac always_tac :=
  repeat (unfold mbind, Prog_bind, mret, Prog_ret, call; cbn [always bind];
          lazymatch goal with
          | |- True => exact I
          | |- _ /\ _ => split
          | |- forall _, _ => intro
          | |- always _ ?p => first [ assumption | let x := scrutinee p in destruct x ]
          | |- _ => by cbn
          end).

Lemma getLocalRepoRoot_quiet g : always (fun c => is_query c = false) (getLocalRepoRoot g).
Proof. unfold getLocalRepoRoot. always_tac. Qed.

Lemma Clone_quiet g : always (fun c => is_query c = false) (Clone g).
Proof. unfold Clone, getLocalRepoRoot. always_tac. Qed.

Lemma checkoutMainBranch_quiet g :
  always (fun c => is_query c = false) (checkoutMainBranch g).
Proof. unfold checkoutMainBranch, Clone, getLocalRepoRoot. always_tac. Qed.

Lemma Clean_quiet g : always (fun c => is_query c = false) (Clean g).
Proof. unfold Clean, getLocalRepoRoot. always_tac. Qed.

Lemma interpretPullRequests_outcome head prs t r :
  outcome (interpretPullRequests (withStatus DeployStatusFail) head prs) t r ->
  maps_pull_requests head prs r /\
  Forall (fun en => is_query (called en) = false) t /\
  (status r.1 = DeployStatusSuccess -> Branch r.1 = head).
Proof.
  intros H. unfold interpretPullRequests in H.
  destruct prs as [| pr [| pr' prs]].
  - outcome_inv H; try done.
    split; [| by split; [constructor |]].
    repeat split; intros; try done. cbn in *; lia.
  - cbn [length] in H. rewrite decide_False in H by lia. rewrite decide_False in H by lia.
    destruct (Atoi (Number pr)) as [n [e |]] eqn:HA; outcome_inv H.
    + split; [| by split; [constructor |]].
      repeat split; intros; simplify_eq; try done; try congruence. cbn in *; lia.
    + split; [| by split; [constructor |]].
      repeat split; intros; simplify_eq; try done; try congruence. cbn in *; lia.
  - cbn [length] in H. rewrite decide_False in H by lia. rewrite decide_True in H by lia.
    outcome_inv H.
    split; [| by split; [repeat constructor |]].
    repeat split; intros; simplify_eq; done.
Qed.

Lemma not_query en :
  is_query (called en) = false ->
  phase_of en = None /\ registry_of en = None /\ apply_of en = None.
Proof. destruct en as [c x]. by destruct c. Qed.

Lemma quiet_unobserved t :
  Forall (fun en => is_query (called en) = false) t ->
  Forall (fun en => phase_of en = None /\ registry_of en = None) t.
Proof.
  intros H. eapply Forall_impl; [exact H |]. intros en Hen.
  destruct (not_query en Hen) as (? & ? & ?). done.
Qed.

Lemma quiet_not_applied t x :
  Forall (fun en => is_query (called en) = false) t ->
  Exists (fun en => apply_of en = Some x) t -> False.
Proof.
  intros H Hex. apply Exists_exists in Hex as (en & Hin & Hen).
  rewrite Forall_forall in H. destruct (not_query en (H en Hin)) as (_ & _ & Hn).
  congruence.
Qed.

Lemma Prepare_body_outcome git ph phase assigner tag head t r :
  outcome (Prepare_body git (withStatus DeployStatusFail) ph phase assigner tag head) t r ->
  Forall (fun en => phase_of en = None /\ registry_of en = None) t /\
  (forall opts x,
      Exists (fun en => apply_of en = Some (opts, x)) t ->
      PullRequestHead opts = head /\
      (x.2 = None -> maps_pull_requests head (GetPullRequests x.1) r)) /\
  (status r.1 = DeployStatusSuccess -> Branch r.1 = head).
Proof.
  intros H. unfold Prepare_body in H.
  apply outcome_bind in H as ([wt err] & t1 & t2 & -> & H1 & H2).
  pose proof (always_outcome _ _ _ _ (checkoutMainBranch_quiet git) H1) as Hq1.
  unfold getLocalRepoRoot in H2.
  outcome_inv H2.
  all: try match goal with
         | H : outcome (interpretPullRequests _ _ _) _ _ |- _ =>
             apply interpretPullRequests_outcome in H as (Hmap & Hq3 & Hbr)
         end.
  all: split;
    [ apply Forall_app; split; [by apply quiet_unobserved |];
      repeat (apply Forall_cons; split; [done |]);
      first [ by apply Forall_nil | by apply quiet_unobserved ]
    | split; [| done];
      intros opts res Hex;
      apply Exists_app in Hex as [Hex | Hex];
      [ by destruct (quiet_not_applied _ _ Hq1 Hex) |];
      exists_inv Hex; simplify_eq;
      try (by destruct (quiet_not_applied _ _ Hq3 Hex)) ].
  all: done.
Qed.

Lemma Prepare_outcome k pj phase branch assigner tag t r :
  outcome (Prepare k pj phase branch assigner tag) t r ->
  (forall opts x,
    Exists (fun en => apply_of en = Some (opts, x)) t ->
    exists ph tag',
      PullRequestHead opts = Sprintf_branch (ID pj) (Name ph) tag' /\
      (x.2 = None ->
       maps_pull_requests (Sprintf_branch (ID pj) (Name ph) tag') (GetPullRequests x.1) r) /\
      Exists (fun en => phase_of en = Some ph) t /\
      (if decide (tag = "") then Exists (fun en => registry_of en = Some (tag', None)) t
       else tag' = tag)) /\
  (status r.1 = DeployStatusSuccess ->
   exists ph tag',
      Branch r.1 = Sprintf_branch (ID pj) (Name ph) tag' /\
      Exists (fun en => phase_of en = Some ph) t /\
      (if decide (tag = "") then Exists (fun en => registry_of en = Some (tag', None)) t
       else tag' = tag)).
Proof.
  intros H.
  unfold Prepare, resolveTag, Clone, getLocalRepoRoot in H.
  outcome_inv H.
  all: try (split; [intros opts x' Hex; exists_inv Hex; fail | intros Hs; by cbn in Hs]).
  all: apply outcome_bind in H as (out & t1 & t2 & -> & Hbody & H).
  all: apply outcome_bind in H as (cerr & t3 & t4 & -> & Hclean & H).
  all: pose proof (always_outcome _ _ _ _ (Clean_quiet _) Hclean) as Hq3.
  all: apply Prepare_body_outcome in Hbody as (Hq1 & Hmap & Hbr).
  all: outcome_inv H.
  all: split;
    [ intros opts x' Hex; exists_inv Hex;
      repeat match goal with
        | H : Exists _ (_ ++ _) |- _ => apply Exists_app in H as [H | H]
        end;
      try (by destruct (quiet_not_applied _ _ Hq3 Hex));
      try (exists_inv Hex; fail);
      destruct (Hmap _ _ Hex) as [Hhead Hm]; rewrite Hhead;
      eexists _, _; split; [reflexivity |]; split; [exact Hm |]
    | intros Hs; rewrite (Hbr Hs); eexists _, _; split; [reflexivity |] ].
  all: split; [find_entry |].
  all: first [ reflexivity | find_entry ].
Qed.

(** C1 (amended). In every environment, for every result [res] that
    [Apply] returns inside [Prepare], with [ph] the phase [FindPhase]
    answered and [tag'] the tag of the attempt (the argument, or the
    registry's answer when the argument is empty): no pull request gives
    status AlreadyDeployed and no error; exactly one pull request whose
    number [strconv.Atoi] reads gives status Success with its node id, that
    number, its URL and the branch
    [bot/docker-image-tag-<project-id>-<phase-name>-<tag>]; two or more give
    a failed outcome with the multiple-pull-requests error.  (One pull
    request whose number [Atoi] rejects gives a failed outcome and the
    conversion error.) *)
Theorem Prepare_maps_pull_requests {W} (env : Env W) (w : W) k pj phase branch assigner tag :
  let r := run env (Prepare k pj phase branch assigner tag) w in
  forall opts res,
    Exists (fun en => apply_of en = Some (opts, (res, None))) (trace r) ->
    exists ph tag',
      Exists (fun en => phase_of en = Some ph) (trace r) /\
      (if decide (tag = "")
       then Exists (fun en => registry_of en = Some (tag', None)) (trace r)
       else tag' = tag) /\
      maps_pull_requests (Sprintf_branch (ID pj) (Name ph) tag')
        (GetPullRequests res) (returned r).
Proof.
  intros r opts res Hex.
  destruct (Prepare_outcome _ _ _ _ _ _ _ _
              (run_outcome env (Prepare k pj phase branch assigner tag) w)) as [Hcalls _].
  destruct (Hcalls _ _ Hex) as (ph & tag' & _ & Hm & Hph & Htag).
  exists ph, tag'. split; [done |]. split; [done |]. by apply Hm.
Qed.

Lemma Prepare_maps_pull_requests_witness :
  returned (run (tool_env [numbered_pr])
              (Prepare sample_plugin sample_project "staging" "main" sample_user "v2") tt)
  = ({| PullRequestID := "PR_kwDO42"; PullRequestNumber := 42;
        PullRequestHTMLURL := "https://github.com/zaiminc/api-config/pull/42";
        Branch := "bot/docker-image-tag-api-staging-v2";
        status := DeployStatusSuccess |}, None).
Proof.
  edestruct (Prepare_maps_pull_requests (tool_env [numbered_pr]) tt sample_plugin
               sample_project "staging" "main" sample_user "v2")
    with (res := {| GetPullRequests := [numbered_pr] |})
    as (ph & tag' & Hph & Htag & Hm).
  { vm_compute. find_entry. }
  destruct Hm as (_ & Hone & _).
  rewrite (Hone numbered_pr 42 eq_refl eq_refl).
  vm_compute in Htag. subst tag'.
  vm_compute in Hph. exists_inv Hph; simplify_eq. reflexivity.
Defined.

(** The claim C1 as stated fails: the tool produced exactly one pull request
    and [Prepare] returns a failed outcome. *)
Lemma Prepare_one_unnumbered_pull_request :
  let r := run (tool_env [unnumbered_pr])
             (Prepare sample_plugin sample_project "staging" "main" sample_user "v2") tt in
  Exists (fun en => exists opts,
            apply_of en = Some (opts, ({| GetPullRequests := [unnumbered_pr] |}, None)))
    (trace r) /\
  status (returned r).1 = DeployStatusFail /\
  (returned r).2 = Some (ErrWrap "failed to convert pull request number to int"
                           (NumError "Atoi" "#42" ErrSyntax)).
Proof.
  vm_compute. split; [| done].
  repeat first [ apply Exists_cons_hd; eexists; reflexivity | apply Exists_cons_tl ].
Qed.

(** ** Pushing an image tag *)

Lemma createAndCheckoutNewBranch_footprint g b :
  always (branch_footprint b) (createAndCheckoutNewBranch g b).
Proof.
  unfold createAndCheckoutNewBranch, DeleteBranch, checkoutMainBranch, Clone,
    getLocalRepoRoot.
  always_tac.
Qed.

Lemma commit_Kustomization_footprint g w path (o : KustomizationOverWrite) :
  always commit_footprint (commit g w path o).
Proof.
  unfold commit, logged, Update, KustomizationOverWrite_Update. always_tac.
Qed.

Lemma commit_Memcached_footprint g w path (o : MemcachedOverWrite) :
  always commit_footprint (commit g w path o).
Proof.
  unfold commit, logged, Update, MemcachedOverWrite_Update. always_tac.
Qed.

Lemma verify_range_outcome st t r :
  outcome (verify_range st) t r ->
  Forall (fun en => verify_footprint (called en) /\ status_of en = None) t /\
  (drifted st -> is_Some r) /\
  (r = None -> Forall (fun entry => Staging entry.2 = Modified) st).
Proof.
  revert t. induction st as [| [path status] st IH]; intros t H; cbn [verify_range] in H.
  - outcome_inv H. split; [constructor |]. split; [| by constructor].
    intros Hd. inversion Hd.
  - destruct (decide (Staging status = Modified)) as [Hm | Hm].
    + destruct (IH _ H) as (Hf & Hd & Hn). split; [done |]. split.
      * intros Hdr. apply Exists_cons in Hdr as [Hdr | Hdr]; [done | auto].
      * intros Hr. constructor; auto.
    + outcome_inv H. split; [by repeat constructor |]. split; [by eexists | done].
Qed.

Lemma verify_outcome g w t r :
  outcome (verify g w) t r ->
  Forall (fun en => verify_footprint (called en)) t /\
  (forall st err, Exists (fun en => status_of en = Some (st, err)) t ->
                  isErr err = true \/ drifted st -> is_Some r).
Proof.
  intros H. unfold verify in H. outcome_inv H.
  - split; [by repeat constructor |].
    intros st err Hex _. by eexists.
  - apply verify_range_outcome in H as (Hf & Hd & _). split.
    + constructor; [done |]. eapply Forall_impl; [exact Hf |]. by intros en [? _].
    + intros st err Hex Hbad. apply Exists_cons in Hex as [Hex | Hex].
      * cbn in Hex. simplify_eq. destruct Hbad as [Hbad | Hbad]; [done | auto].
      * apply Exists_exists in Hex as (en & Hin & Hen).
        rewrite Forall_forall in Hf. destruct (Hf en Hin) as [_ Hnone]. congruence.
Qed.

Lemma branch_footprint_quiet b en :
  branch_footprint b (called en) -> publishes (called en) = false /\ status_of en = None.
Proof. destruct en as [c x]. by destruct c. Qed.

Lemma commit_footprint_quiet en :
  commit_footprint (called en) -> publishes (called en) = false /\ status_of en = None.
Proof. destruct en as [c x]. by destruct c. Qed.

Lemma verify_footprint_quiet en :
  verify_footprint (called en) -> publishes (called en) = false.
Proof. destruct en as [c x]. by destruct c. Qed.

Lemma quiet_split (P : Call -> Prop) t :
  (forall en, P (called en) -> publishes (called en) = false /\ status_of en = None) ->
  Forall (fun en => P (called en)) t ->
  Forall (fun en => publishes (called en) = false) t /\
  forall x, ~ Exists (fun en => status_of en = Some x) t.
Proof.
  intros HP Ht. split.
  - eapply Forall_impl; [exact Ht |]. intros en Hen. by apply HP.
  - intros x Hex. apply Exists_exists in Hex as (en & Hin & Hen).
    rewrite Forall_forall in Ht. destruct (HP en (Ht en Hin)) as [_ Hn]. congruence.
Qed.

Lemma PushDockerImageTag_outcome g id phase tag targetTag t r :
  outcome (PushDockerImageTag g id phase tag targetTag) t r ->
  forall st err,
    Exists (fun en => status_of en = Some (st, err)) t ->
    isErr err = true \/ drifted st ->
    Forall (fun en => publishes (called en) = false) t /\ is_Some r.2.
Proof.
  intros H st err Hex Hbad. unfold PushDockerImageTag in H.
  apply outcome_bind in H as ([w e1] & t1 & ta & -> & H1 & H).
  apply (always_outcome _ _ _ _ (createAndCheckoutNewBranch_footprint _ _)) in H1.
  apply (quiet_split _ _ (branch_footprint_quiet _)) in H1 as [Hp1 Hs1].
  destruct e1 as [e1 |].
  { outcome_inv H. rewrite app_nil_r. split; [done | by eexists]. }
  apply outcome_bind in H as (e2 & t2 & tb & -> & H2 & H).
  apply (always_outcome _ _ _ _ (commit_Kustomization_footprint _ _ _ _)) in H2.
  apply (quiet_split _ _ commit_footprint_quiet) in H2 as [Hp2 Hs2].
  destruct e2 as [e2 |].
  { outcome_inv H. split; [| by eexists].
    repeat (apply Forall_app; split; [done |]). by repeat constructor. }
  apply outcome_bind in H as (e3 & t3 & tc & -> & H3 & H).
  apply (always_outcome _ _ _ _ (commit_Memcached_footprint _ _ _ _)) in H3.
  apply (quiet_split _ _ commit_footprint_quiet) in H3 as [Hp3 Hs3].
  destruct e3 as [e3 |].
  { outcome_inv H. split; [| by eexists].
    repeat (apply Forall_app; split; [done |]). by repeat constructor. }
  apply outcome_bind in H as (e4 & t4 & td & -> & H4 & H).
  apply verify_outcome in H4 as [Hf4 Hv4].
  destruct e4 as [e4 |].
  { outcome_inv H. split; [| by eexists].
    repeat (apply Forall_app; split; [done |]). rewrite app_nil_r.
    eapply Forall_impl; [exact Hf4 |]. intros en. apply verify_footprint_quiet. }
  exfalso.
  repeat match goal with
    | H : Exists _ (_ ++ _) |- _ => apply Exists_app in H as [H | H]
    end.
  - by apply (Hs1 _ Hex).
  - by apply (Hs2 _ Hex).
  - by apply (Hs3 _ Hex).
  - destruct (Hv4 _ _ Hex Hbad) as [? ?]. discriminate.
  - outcome_inv H; exists_inv Hex.
Qed.

(** C2. In every environment: when the status that [w.Status()] returns has
    a path whose staged state is not [Modified] (or [Status] itself fails),
    [verify] returns an error; and a run of [PushDockerImageTag] that gets
    such a status returns an error without having called [Commit],
    [SetReference] or [Push]. *)
Theorem verify_fails_closed {W} (env : Env W) (w : W) g wt id phase tag targetTag :
  (forall st err,
      Exists (fun en => status_of en = Some (st, err)) (trace (run env (verify g wt) w)) ->
      isErr err = true \/ drifted st ->
      is_Some (returned (run env (verify g wt) w))) /\
  (let r := run env (PushDockerImageTag g id phase tag targetTag) w in
   forall st err,
      Exists (fun en => status_of en = Some (st, err)) (trace r) ->
      isErr err = true \/ drifted st ->
      Forall (fun en => publishes (called en) = false) (trace r) /\
      is_Some (returned r).2).
Proof.
  split.
  - intros st err Hex Hbad.
    destruct (verify_outcome _ _ _ _ (run_outcome env (verify g wt) w)) as [_ Hv]. eauto.
  - intros r st err Hex Hbad.
    eapply PushDockerImageTag_outcome; eauto. apply run_outcome.
Qed.

Lemma verify_fails_closed_witness :
  is_Some (returned (run drift_env (verify sample_operator 1%nat) tt)) /\
  (let r := run drift_env (PushDockerImageTag sample_operator "api" sample_phase "v2" "app") tt in
   Forall (fun en => publishes (called en) = false) (trace r) /\ is_Some (returned r).2).
Proof.
  assert (Hd : isErr None = true \/ drifted drifted_status).
  { right. apply Exists_cons_tl, Exists_cons_hd. by vm_compute. }
  destruct (verify_fails_closed drift_env tt sample_operator 1%nat "api" sample_phase
              "v2" "app") as [Hv Hp].
  split.
  - apply (Hv drifted_status None); [vm_compute; find_entry | exact Hd].
  - apply (Hp drifted_status None); [vm_compute; find_entry | exact Hd].
Defined.

(** ** The branch name *)

Lemma returns_bind {A B} (post : B -> Prop) (p : Prog A) (f : A -> Prog B) :
  returns (fun a => returns post (f a)) p -> returns post (p ≫= f).
Proof.
  induction p as [a | c k IH]; cbn; [done |]. intros H x. apply IH, H.
Qed.

Lemma returns_any {A} (post : A -> Prop) (p : Prog A) :
  (forall a, post a) -> returns post p.
Proof. intros H. induction p as [a | c k IH]; cbn; auto. Qed.

Lemma returns_outcome {A} (post : A -> Prop) (p : Prog A) t a :
  returns post p -> outcome p t a -> post a.
Proof.
  revert t. induction p as [a' | c k IH]; cbn; intros t Hp Ho.
  - by destruct Ho as [_ ->].
  - destruct Ho as (x & t' & -> & Ho). eapply IH; eauto.
Qed.

Lemma verify_footprint_always g w : always verify_footprint (verify g w).
Proof.
  unfold verify. always_tac.
  match goal with |- always _ (verify_range ?st) => induction st as [| [path fs] st IH] end.
  - exact I.
  - cbn [verify_range]. always_tac.
Qed.

Lemma PushDockerImageTag_names g id phase tag targetTag :
  always (names_branch (Sprintf_branch id (Name phase) tag))
    (PushDockerImageTag g id phase tag targetTag).
Proof.
  unfold PushDockerImageTag.
  apply always_bind.
  { eapply always_mono; [| apply createAndCheckoutNewBranch_footprint].
    intros c Hc. destruct c; try done. destruct Create; cbn in *; auto. }
  intros [w [e |]]; [exact I |].
  apply always_bind.
  { eapply always_mono; [| apply commit_Kustomization_footprint]. by intros []. }
  intros [e |]; [always_tac |].
  apply always_bind.
  { eapply always_mono; [| apply commit_Memcached_footprint]. by intros []. }
  intros [e |]; [always_tac |].
  apply always_bind.
  { eapply always_mono; [| apply verify_footprint_always]. by intros []. }
  intros [e |]; [exact I |].
  always_tac.
Qed.

Lemma PushDockerImageTag_returns g id phase tag targetTag :
  returns (fun r => r.1 = Sprintf_branch id (Name phase) tag \/ (r.1 = "" /\ is_Some r.2))
    (PushDockerImageTag g id phase tag targetTag).
Proof.
  unfold PushDockerImageTag.
  apply returns_bind, returns_any. intros [w [e |]]; [right; by eauto |].
  apply returns_bind, returns_any. intros [e |]; [cbn; by left |].
  apply returns_bind, returns_any. intros [e |]; [cbn; by left |].
  apply returns_bind, returns_any. intros [e |]; [cbn; by left |].
  cbn. intros _ [hash herr] [e |]; cbn; [right; by eauto |].
  intros [remote [e |]]; cbn; [by left |].
  intros [e |]; cbn; by left.
Qed.

(** C8. In every environment: every call of [PushDockerImageTag] that names
    a branch (removing the reference, creating the branch, setting the
    reference, the pushed refspec) names
    [bot/docker-image-tag-<id>-<phase.Name>-<tag>], and the branch it
    returns is that name (or empty, next to an error); every [Apply] call of
    the kanvas [Prepare] is given that name as pull-request head, built from
    the project id, the name of the phase [FindPhase] answered and the tag
    of the attempt, and a successful outcome carries it as its branch. *)
Theorem branch_name_convention {W} (env : Env W) (w : W) :
  (forall id phaseName tag,
      Sprintf_branch id phaseName tag =
      "bot/docker-image-tag-" +:+ id +:+ "-" +:+ phaseName +:+ "-" +:+ tag) /\
  (forall g id phase tag targetTag,
      let r := run env (PushDockerImageTag g id phase tag targetTag) w in
      let b := Sprintf_branch id (Name phase) tag in
      Forall (fun en => names_branch b (called en)) (trace r) /\
      ((returned r).1 = b \/ ((returned r).1 = "" /\ is_Some (returned r).2))) /\
  (forall k pj phase branch assigner tag,
      let r := run env (Prepare k pj phase branch assigner tag) w in
      (forall opts x,
          Exists (fun en => apply_of en = Some (opts, x)) (trace r) ->
          exists ph tag',
            PullRequestHead opts = Sprintf_branch (ID pj) (Name ph) tag' /\
            Exists (fun en => phase_of en = Some ph) (trace r) /\
            (if decide (tag = "")
             then Exists (fun en => registry_of en = Some (tag', None)) (trace r)
             else tag' = tag)) /\
      (status (returned r).1 = DeployStatusSuccess ->
       exists ph tag',
         Branch (returned r).1 = Sprintf_branch (ID pj) (Name ph) tag' /\
         Exists (fun en => phase_of en = Some ph) (trace r) /\
         (if decide (tag = "")
          then Exists (fun en => registry_of en = Some (tag', None)) (trace r)
          else tag' = tag))).
Proof.
  split; [done |]. split.
  - intros g id phase tag targetTag r b.
    pose proof (run_outcome env (PushDockerImageTag g id phase tag targetTag) w) as Ho.
    split.
    + eapply always_outcome; [apply PushDockerImageTag_names | exact Ho].
    + eapply (returns_outcome _ _ _ _ (PushDockerImageTag_returns g id phase tag targetTag) Ho).
  - intros k pj phase branch assigner tag r.
    destruct (Prepare_outcome _ _ _ _ _ _ _ _
                (run_outcome env (Prepare k pj phase branch assigner tag) w)) as [Hcalls Hs].
    split; [| exact Hs].
    intros opts x Hex. destruct (Hcalls _ _ Hex) as (ph & tag' & Hh & _ & Hph & Htag).
    eauto.
Qed.

Lemma branch_name_convention_witness :
  (exists opts x,
      Exists (fun en => apply_of en = Some (opts, x))
        (trace (run (tool_env [numbered_pr])
                  (Prepare sample_plugin sample_project "staging" "main" sample_user "v2") tt)) /\
      PullRequestHead opts = "bot/docker-image-tag-api-staging-v2") /\
  (returned (run (tool_env [])
               (PushDockerImageTag sample_operator "api" sample_phase "v2" "app") tt)).1
    = "bot/docker-image-tag-api-staging-v2".
Proof.
  destruct (branch_name_convention (tool_env [numbered_pr]) tt) as (_ & _ & Hk).
  destruct (Hk sample_plugin sample_project "staging" "main" sample_user "v2") as [Hcalls _].
  split; [| reflexivity].
  eexists _, _. split; [vm_compute; find_entry |].
  edestruct Hcalls as (ph & tag' & -> & Hph & Htag); [vm_compute; find_entry |].
  vm_compute in Htag. subst tag'.
  vm_compute in Hph. exists_inv Hph; simplify_eq. reflexivity.
Defined.

(** ** Creating the work branch, in the go-git model *)

Lemma run_Do_eq {W A} (env : Env W) c (k : Result c -> Prog A) w x w1 a w2 t :
  env c w = (x, w1) -> run env (k x) w1 = (a, w2, t) ->
  run env (Do c k) w = (a, w2, Called c x :: t).
Proof. intros H1 H2. cbn. by rewrite H1, H2. Qed.

Lemma gogit_Checkout_main w main s h :
  refs s !! main = Some h -> unstaged s = false ->
  gogit (Worktree_Checkout w false main) s = (None, setHEADToBranch main h s).
Proof.
  intros Hm Hc. unfold gogit. cbn. unfold gogit_Checkout. cbn. rewrite Hm. cbn.
  by rewrite Hc.
Qed.

Lemma gogit_Checkout_create w b s h :
  b <> "" -> refs s !! b = None -> Repository_Head s = Some h -> unstaged s = false ->
  gogit (Worktree_Checkout w true b) s
  = (None, setHEADToBranch b h (withRefs s (<[b := h]> (refs s)))).
Proof.
  intros Hne Hb Hh Hc. unfold gogit. cbn. unfold gogit_Checkout.
  rewrite bool_decide_eq_false_2 by done. cbn. rewrite Hb, Hh. cbn.
  rewrite lookup_insert_eq. cbn. by rewrite Hc.
Qed.

Lemma gogit_Pull_eq w r a s : gogit (Worktree_Pull w r a) s = gogit_Pull s.
Proof. reflexivity. Qed.

Ltac world_simpl :=
  repeat (unfold Repository_Head, setHEADToBranch, updateHEAD;
          cbn [refs HEAD unstaged origin withRefs withHEAD withOrigin];
          first [ rewrite lookup_insert_eq | rewrite lookup_delete_eq
                | rewrite lookup_insert_ne by done
                | rewrite lookup_delete_ne by done
                | match goal with H : IsBranch _ = _ |- _ => rewrite H end ]);
  unfold Repository_Head, setHEADToBranch, updateHEAD;
  cbn [refs HEAD unstaged origin withRefs withHEAD withOrigin].

Ltac world_solve := world_simpl; first [ done | eassumption ].

(** Running a program in the go-git model, one call at a time. *)
Ltac exec :=
  repeat (cbn [bind];
    lazymatch goal with
    | |- run _ (Ret _) _ = _ => reflexivity
    | |- run _ (Do (Worktree_Checkout _ false _) _) _ = _ =>
        eapply run_Do_eq; [eapply gogit_Checkout_main; world_solve |]
    | |- run _ (Do (Worktree_Checkout _ true _) _) _ = _ =>
        eapply run_Do_eq; [eapply gogit_Checkout_create; world_solve |]
    | |- run _ (Do (Worktree_Pull _ _ _) _) _ = _ =>
        eapply run_Do_eq;
        [ rewrite gogit_Pull_eq; unfold gogit_Pull; world_simpl;
          repeat match goal with
            | H : origin _ = _ |- _ => rewrite H
            | H : IsBranch _ = _ |- _ => rewrite H
            | H : unstaged _ = _ |- _ => rewrite H
            end;
          world_simpl;
          repeat match goal with H : unstaged _ = _ |- _ => rewrite H end;
          reflexivity |]
    | |- run _ (Do _ _) _ = _ =>
        eapply run_Do_eq; [lazy [gogit default from_option id nominal]; reflexivity |]
    end; cbv beta iota).

Lemma createAndCheckoutNewBranch_run g b s h :
  b <> "" -> b <> mainRef g -> refs s !! mainRef g = Some h -> unstaged s = false ->
  exists s' t base,
    run gogit (createAndCheckoutNewBranch g b) s = ((1%nat, None), s', t) /\
    fresh_base g s = Some base /\
    refs s' !! b = Some base /\
    is_Some (refs s' !! mainRef g) /\
    (IsBranch (mainRef g) = true -> refs s' !! mainRef g = Some base) /\
    HEAD s' = (if IsBranch b then Symbolic b else Detached base) /\
    unstaged s' = false /\ origin s' = origin s.
Proof.
  intros Hb Hne Hm Hc.
  unfold createAndCheckoutNewBranch, DeleteBranch, checkoutMainBranch, Clone,
    getLocalRepoRoot, mbind, Prog_bind, mret, Prog_ret, call, fresh_base.
  fold (mainRef g).
  destruct (decide (gitRoot g = "")) as [Hroot | Hroot].
  all: destruct (IsBranch (mainRef g)) eqn:Hbr.
  all: destruct (origin s) as [e | | hash] eqn:Ho.
  all: try destruct (decide (e = NoErrAlreadyUpToDate)) as [He | He] eqn:Hd.
  all: eexists _, _, _.
  all: split;
    [ exec; try (rewrite Hd; exec); try (rewrite decide_True by done; exec) |].
  all: world_simpl; try rewrite Hbr; world_simpl.
  all: split; [first [reflexivity | eassumption] |].
  all: split; [done |].
  all: split; [by eexists |].
  all: split; [done |].
  all: done.
Qed.

(** The order of the calls, in every environment. *)
Lemma createAndCheckoutNewBranch_order g b t r :
  outcome (createAndCheckoutNewBranch g b) t r ->
  exists x t',
    t = Called (Storer_RemoveReference (repository g) b) x :: t' /\
    Forall (fun en => removes_reference b (called en) = false) t' /\
    (r.2 = None ->
     exists w t'', t' = t'' ++ [Called (Worktree_Checkout w true b) None] /\
                   Forall (fun en => creates_branch b (called en) = false) t'').
Proof.
  intros H.
  unfold createAndCheckoutNewBranch, DeleteBranch, checkoutMainBranch, Clone,
    getLocalRepoRoot in H.
  outcome_inv H.
  all: eexists _, _; split; [reflexivity |].
  all: split; [by repeat constructor |].
  all: intros Hr; try discriminate Hr.
  all: match goal with
       | |- exists w t'', ?l = _ /\ _ => eexists _, (removelast l)
       end.
  all: split; [reflexivity |].
  all: cbn [removelast]; by repeat constructor.
Qed.

Lemma commits_on_spec b hashes s :
  (forall n, n <> b -> refs (commits_on b hashes s) !! n = refs s !! n) /\
  unstaged (commits_on b hashes s) = unstaged s.
Proof.
  unfold commits_on. revert s. induction hashes as [| hash hashes IH]; intros s; [done |].
  cbn [foldl]. destruct (IH ((gogit (Storer_SetReference 1%nat b hash) s).2)) as [IH1 IH2].
  split.
  - intros n Hn. rewrite IH1 by done. cbn. by rewrite lookup_insert_ne.
  - by rewrite IH2.
Qed.

Lemma filter_name_singleton (m : gmap string string) b v :
  m !! b = Some v -> filter (fun kv => kv.1 = b) m = {[ b := v ]}.
Proof.
  intros Hb. apply map_eq. intros n. destruct (decide (n = b)) as [-> | Hn].
  - rewrite lookup_singleton_eq. by apply map_lookup_filter_Some.
  - rewrite lookup_singleton_ne by done. apply map_lookup_filter_None.
    right. intros x _ Heq. cbn in Heq. done.
Qed.

(** C5. Calling [createAndCheckoutNewBranch] twice with the same name.  In
    every environment, each call first removes the reference of that name
    and, when it succeeds, creates the branch as its last call, after which
    nothing can change it.  In the go-git model, on a repository whose
    default branch exists and whose working tree has no unstaged changes,
    for a non-empty name other than the default branch: with any commits
    made on the branch in between and whatever origin has by then, the
    second call succeeds and leaves exactly one reference of that name, at
    the commit the default branch is at after the second call's pull, which
    does not depend on the commits made in between. *)
Theorem createAndCheckoutNewBranch_twice g b :
  (forall W (env : Env W) (w : W),
      let r := run env (createAndCheckoutNewBranch g b) w in
      exists x t',
        trace r = Called (Storer_RemoveReference (repository g) b) x :: t' /\
        Forall (fun en => removes_reference b (called en) = false) t' /\
        ((returned r).2 = None ->
         exists wt t'', t' = t'' ++ [Called (Worktree_Checkout wt true b) None] /\
                        Forall (fun en => creates_branch b (called en) = false) t'')) /\
  (forall s0 h hashes a,
      b <> "" -> b <> mainRef g ->
      refs s0 !! mainRef g = Some h -> unstaged s0 = false ->
      let r1 := run gogit (createAndCheckoutNewBranch g b) s0 in
      let s2 := withOrigin (commits_on b hashes (final r1)) a in
      let r2 := run gogit (createAndCheckoutNewBranch g b) s2 in
      (returned r2).2 = None /\
      exists base,
        fresh_base g (withOrigin (final r1) a) = Some base /\
        filter (fun kv => kv.1 = b) (refs (final r2)) = {[ b := base ]} /\
        (IsBranch (mainRef g) = true -> refs (final r2) !! mainRef g = Some base)).
Proof.
  split.
  { intros W env w r. apply createAndCheckoutNewBranch_order, run_outcome. }
  intros s0 h hashes a Hb Hne Hm Hc r1 s2 r2.
  destruct (createAndCheckoutNewBranch_run g b s0 h Hb Hne Hm Hc)
    as (s1 & t1 & base1 & Hr1 & _ & _ & [h1 Hh1] & _ & _ & Hc1 & _).
  assert (Hs1 : final r1 = s1) by (subst r1; by rewrite Hr1).
  destruct (commits_on_spec b hashes s1) as [Hrefs Hun].
  assert (Hm2 : refs s2 !! mainRef g = Some h1).
  { subst s2. rewrite Hs1. cbn. rewrite Hrefs by done. exact Hh1. }
  assert (Hc2 : unstaged s2 = false).
  { subst s2. rewrite Hs1. cbn. by rewrite Hun. }
  destruct (createAndCheckoutNewBranch_run g b s2 h1 Hb Hne Hm2 Hc2)
    as (s3 & t2 & base & Hr2 & Hfb & Hb2 & _ & Hmain2 & _).
  assert (Hbase : fresh_base g s2 = fresh_base g (withOrigin (final r1) a)).
  { unfold fresh_base. subst s2. rewrite Hs1. cbn.
    destruct a; try done; by rewrite Hrefs. }
  subst r2. rewrite Hr2. cbn [returned final trace fst snd].
  split; [done |]. exists base.
  split; [by rewrite <- Hbase |].
  split; [by apply filter_name_singleton | done].
Qed.

Lemma createAndCheckoutNewBranch_twice_witness :
  let b := "bot/docker-image-tag-api-staging-v2" in
  let r1 := run gogit (createAndCheckoutNewBranch sample_operator b) sample_world in
  let s2 := withOrigin (commits_on b ["d00d"; "f00d"] (final r1)) (PullBrings "c0ffee2") in
  let r2 := run gogit (createAndCheckoutNewBranch sample_operator b) s2 in
  refs s2 !! b = Some "f00d" /\
  (returned r2).2 = None /\
  filter (fun kv => kv.1 = b) (refs (final r2)) = {[ b := "c0ffee2" ]} /\
  refs (final r2) !! Master = Some "c0ffee2".
Proof.
  intros b r1 s2 r2.
  destruct (createAndCheckoutNewBranch_twice sample_operator b) as [_ Hmodel].
  destruct (Hmodel sample_world "c0ffee" ["d00d"; "f00d"] (PullBrings "c0ffee2"))
    as (Hok & base & Hbase & Hone & Hmain).
  { by vm_compute. }
  { by vm_compute. }
  { reflexivity. }
  { reflexivity. }
  split; [reflexivity |]. split; [exact Hok |].
  cbn in Hbase. injection Hbase as <-.
  split; [exact Hone | by apply Hmain].
Defined.


(** * More properties *)

(** ** Strings *)

Lemma replace_scan_absent old new s :
  Contains s old = false -> replace_scan old new O s = s.
Proof.
  induction s as [| c s IH]; [done |].
  intros H. cbn [Contains] in H. apply orb_false_iff in H as [Hp Hc].
  cbn [replace_scan]. rewrite Hp. by rewrite IH.
Qed.

Lemma append_cons c (s1 s2 : string) : String c s1 +:+ s2 = String c (s1 +:+ s2).
Proof. reflexivity. Qed.

Lemma append_nil (s : string) : "" +:+ s = s.
Proof. reflexivity. Qed.

Lemma replace_scan_skip old new x s :
  replace_scan old new (String.length x) (x +:+ s) = replace_scan old new O s.
Proof.
  induction x as [| c x IH]; [done |].
  rewrite append_cons. cbn [String.length replace_scan]. exact IH.
Qed.

Lemma HasPrefix_app p s : HasPrefix (p +:+ s) p = true.
Proof.
  induction p as [| c p IH]; [by destruct s |].
  rewrite append_cons. cbn [HasPrefix]. by rewrite decide_True.
Qed.

Lemma ReplaceAll_prefix old new s :
  old <> "" -> ReplaceAll (old +:+ s) old new = new +:+ ReplaceAll s old new.
Proof.
  intros Hne. destruct old as [| c old]; [done |].
  unfold ReplaceAll. rewrite append_cons. cbn [replace_scan].
  rewrite <- append_cons, HasPrefix_app.
  replace (String.length (String c old) - 1)%nat with (String.length old)
    by (cbn [String.length]; lia).
  by rewrite replace_scan_skip.
Qed.

Lemma ReplaceAll_absent s old new :
  Contains s old = false -> ReplaceAll s old new = s.
Proof. apply replace_scan_absent. Qed.

Lemma HasPrefix_nil s : HasPrefix s "" = true.
Proof. by destruct s. Qed.

Lemma ReplaceAll_separator s : ReplaceAll s "/" PathSeparator = s.
Proof.
  unfold ReplaceAll, PathSeparator. induction s as [| c s IH]; [done |].
  cbn [replace_scan HasPrefix]. destruct (decide ("/"%char = c)) as [<- | Hc].
  - rewrite HasPrefix_nil. cbn [String.length Nat.sub]. rewrite IH. reflexivity.
  - by rewrite IH.
Qed.

Lemma length_append_string (s1 s2 : string) :
  String.length (s1 +:+ s2) = (String.length s1 + String.length s2)%nat.
Proof.
  induction s1 as [| c s1 IH]; [done |].
  rewrite append_cons. cbn [String.length]. by rewrite IH.
Qed.

Lemma substring_all (s : string) : String.substring 0 (String.length s) s = s.
Proof. induction s as [| c s IH]; cbn; [done | by rewrite IH]. Qed.

Lemma substring_app_l (s1 s2 : string) :
  String.substring 0 (String.length s1) (s1 +:+ s2) = s1.
Proof.
  induction s1 as [| c s1 IH].
  - by destruct s2.
  - rewrite append_cons. cbn [String.length String.substring]. by rewrite IH.
Qed.

Lemma substring_app_r (s1 s2 : string) :
  String.substring (String.length s1) (String.length s2) (s1 +:+ s2) = s2.
Proof.
  induction s1 as [| c s1 IH]; [apply substring_all |].
  rewrite append_cons. cbn [String.length String.substring]. exact IH.
Qed.

Lemma TrimSuffix_app s suffix : TrimSuffix (s +:+ suffix) suffix = s.
Proof.
  unfold TrimSuffix. rewrite length_append_string.
  replace (String.length suffix <=? String.length s + String.length suffix)%nat with true
    by (symmetry; apply Nat.leb_le; lia).
  replace (String.length s + String.length suffix - String.length suffix)%nat
    with (String.length s) by lia.
  rewrite substring_app_r, String.eqb_refl. cbn [andb]. apply substring_app_l.
Qed.

(** ** The local path of the repository *)

(** X1. For an operator with a git root and a remote URL of the shape
    [https://<rest>.git] (with no further [https://] inside), the local
    repository root is [filepath.Join(gitRoot, <rest>)]: the scheme and the
    [.git] suffix are dropped and nothing else is changed.  Without a git
    root the root is the empty string and no library is called. *)
Theorem getLocalRepoRoot_layout (g : GitOperator) (rest : string) :
  (gitRoot g = "" -> getLocalRepoRoot g = Ret "") /\
  (gitRoot g <> "" ->
   repo g = "https://" +:+ rest +:+ ".git" ->
   Contains (rest +:+ ".git") "https://" = false ->
   getLocalRepoRoot g = call (filepath_Join [gitRoot g; rest])).
Proof.
  unfold getLocalRepoRoot. split.
  - intros Hroot. by rewrite decide_True.
  - intros Hroot Hrepo Habs. rewrite decide_False by done. rewrite Hrepo.
    rewrite ReplaceAll_prefix by done. rewrite append_nil.
    rewrite (ReplaceAll_absent _ _ _ Habs).
    by rewrite ReplaceAll_separator, TrimSuffix_app.
Qed.

Lemma getLocalRepoRoot_layout_witness :
  getLocalRepoRoot sample_operator
  = call (filepath_Join ["/var/gocat"; "github.com/zaiminc/gocat"]).
Proof.
  apply (getLocalRepoRoot_layout sample_operator "github.com/zaiminc/gocat");
    [by vm_compute | reflexivity | reflexivity].
Defined.

(** ** Cloning *)

Lemma Clone_outcome g t r :
  outcome (Clone g) t r ->
  exists storage h err,
    omap clone_of t = [(storage, repo g, auth g, (h, err))] /\
    r = (withRepository g h, err) /\
    (gitRoot g = "" -> storage = InMemory /\ length t = 1%nat) /\
    (gitRoot g <> "" ->
     exists root dotGit,
       storage = OnDisk root dotGit /\
       Exists (fun en => en = Called (filepath_Join [root; ".git"]) dotGit) t).
Proof.
  intros H. unfold Clone, getLocalRepoRoot in H. outcome_inv H.
  all: eexists _, _, _; split; [reflexivity |]; split; [reflexivity |].
  all: split; [intros Hr; try done | intros Hr; try done].
  all: eexists _, _; split; [reflexivity |].
  all: repeat first [ apply Exists_cons_hd; reflexivity | apply Exists_cons_tl ].
Qed.

(** X2. In every environment [Clone] calls [git.Clone] exactly once, with
    the operator's URL and credentials, on the in-memory storage when the
    operator has no git root and otherwise on the on-disk storage whose
    [.git] directory is [filepath.Join(root, ".git")]; the operator it
    leaves has the repository [git.Clone] returned, also when that is an
    error, and the error is returned as it is. *)
Theorem Clone_once {W} (env : Env W) (w : W) (g : GitOperator) :
  let r := run env (Clone g) w in
  exists storage h err,
    omap clone_of (trace r) = [(storage, repo g, auth g, (h, err))] /\
    returned r = (withRepository g h, err) /\
    (gitRoot g = "" -> storage = InMemory /\ length (trace r) = 1%nat) /\
    (gitRoot g <> "" ->
     exists root dotGit,
       storage = OnDisk root dotGit /\
       Exists (fun en => en = Called (filepath_Join [root; ".git"]) dotGit) (trace r)).
Proof. intros r. apply Clone_outcome, run_outcome. Qed.

Lemma Clone_once_witness :
  omap clone_of (trace (run clone_fails_env (Clone sample_operator) tt))
  = [(OnDisk "/var/gocat/github.com/zaiminc/gocat" "/var/gocat/github.com/zaiminc/gocat/.git",
      "https://github.com/zaiminc/gocat.git",
      {| Username := "gocat"; Password := "token" |},
      (nil_handle, Some (ErrNew "authentication required")))].
Proof.
  destruct (Clone_once clone_fails_env tt sample_operator)
    as (storage & h & err & Hc & _ & _ & Hdisk).
  destruct Hdisk as (root & dotGit & -> & _); [by vm_compute |].
  reflexivity.
Defined.

Lemma Clone_prints_nothing g :
  always (fun c => forall args, c <> fmt_Println args) (Clone g).
Proof. unfold Clone, getLocalRepoRoot. always_tac. Qed.

(** X3. In every environment [CreateGitOperatorInstance] returns an operator
    with the given user name, token, URL, default branch and git root, and
    with the repository [git.Clone] returned; a failed clone is printed
    (and only a failed clone is) and the operator is returned all the
    same. *)
Theorem CreateGitOperatorInstance_spec {W} (env : Env W) (w : W)
    (username token repo defaultBranch gitRoot : string) :
  let r := run env (CreateGitOperatorInstance username token repo defaultBranch gitRoot) w in
  exists storage h err,
    omap clone_of (trace r)
      = [(storage, repo, {| Username := username; Password := token |}, (h, err))] /\
    returned r =
      {| auth := {| Username := username; Password := token |}; repo := repo;
         repository := h; username := username; defaultBranch := defaultBranch;
         gitRoot := gitRoot |} /\
    (is_Some err <->
     Exists (fun en => exists args, called en = fmt_Println args) (trace r)).
Proof.
  intros r.
  pose proof (run_outcome env
    (CreateGitOperatorInstance username token repo defaultBranch gitRoot) w) as H.
  fold r in H. unfold CreateGitOperatorInstance in H.
  apply outcome_bind in H as ([g' e'] & t1 & t2 & Ht & H1 & H2).
  rewrite Ht. generalize dependent (returned r). intros res H2. clear r Ht.
  pose proof (always_outcome _ _ _ _ (Clone_prints_nothing _) H1) as Hq.
  apply Clone_outcome in H1 as (storage & h & err & Hc & Hr & _).
  injection Hr as -> ->.
  exists storage, h, err.
  assert (Hno : ~ Exists (fun en => exists args, called en = fmt_Println args) t1).
  { intros Hex. apply Exists_exists in Hex as (en & Hin & args & Hen).
    rewrite Forall_forall in Hq. by apply (Hq en Hin args). }
  destruct err as [e |]; outcome_inv H2.
  - rewrite omap_app, Hc. split; [done |]. split; [done |].
    split; [intros _ | by eauto].
    apply Exists_app. right. apply Exists_cons_hd. by eexists.
  - rewrite app_nil_r. split; [done |]. split; [done |].
    split; [by intros [? ?] | intros Hex; by destruct Hno].
Qed.

(** ** The cache prefix *)

Lemma MemcachedOverWrite_Update_outcome (o : MemcachedOverWrite) b t r :
  outcome (Update o b) t r ->
  exists obj err t',
    t = Called (yaml_Unmarshal_ConfigMap b) (obj, err) :: t' /\
    match err with
    | Some e => r = (AnyNil, Some e) /\ t' = []
    | None =>
        exists obj',
          r = (AnyConfigMap obj', None) /\
          APIVersion obj' = APIVersion obj /\
          ConfigMap_Kind obj' = ConfigMap_Kind obj /\
          Metadata obj' = Metadata obj /\
          (forall key, is_Some (Data obj' !! key) <-> is_Some (Data obj !! key)) /\
          (forall key, key <> "MEMCACHED_PREFIX" -> Data obj' !! key = Data obj !! key) /\
          (Data obj !! "MEMCACHED_PREFIX" = None -> obj' = obj /\ t' = []) /\
          (is_Some (Data obj !! "MEMCACHED_PREFIX") ->
           exists now : string,
             t' = [Called (time_Now_Format "2006-01-02T15:04:05") now] /\
             Data obj' !! "MEMCACHED_PREFIX" = Some now)
    end.
Proof.
  intros H. unfold Update, MemcachedOverWrite_Update in H. outcome_inv H.
  - eexists _, _, _. split; [reflexivity |]. done.
  - eexists _, _, _. split; [reflexivity |]. eexists. split; [reflexivity |].
    cbn [APIVersion ConfigMap_Kind Metadata Data withData].
    do 3 (split; [done |]). split.
    + intros key. destruct (decide (key = "MEMCACHED_PREFIX")) as [-> | Hk].
      * rewrite lookup_insert_eq. split; intros _; by eexists.
      * by rewrite lookup_insert_ne.
    + split; [intros key Hk; by rewrite lookup_insert_ne |].
      split; [intros Hn; congruence |].
      intros _. eexists. split; [reflexivity |]. by rewrite lookup_insert_eq.
  - eexists _, _, _. split; [reflexivity |]. eexists. split; [reflexivity |].
    do 3 (split; [done |]). split; [done |]. split; [done |].
    split; [done |]. intros [v Hv]. congruence.
Qed.

(** X4. In every environment [MemcachedOverWrite.Update] decodes the bytes
    once.  When the decoding fails it returns that error and no object.
    Otherwise it returns the decoded config map with the same API version,
    kind, metadata and data keys, and with every data value other than
    that of [MEMCACHED_PREFIX] unchanged; when the key is absent nothing
    else is called and the object is returned as decoded (the key is not
    added), and when it is present the clock is read once, with the layout
    [2006-01-02T15:04:05], and the value becomes what it answered. *)
Theorem MemcachedOverWrite_Update_spec {W} (env : Env W) (w : W)
    (o : MemcachedOverWrite) (b : bytes) :
  let r := run env (Update o b) w in
  exists obj err t',
    trace r = Called (yaml_Unmarshal_ConfigMap b) (obj, err) :: t' /\
    match err with
    | Some e => returned r = (AnyNil, Some e) /\ t' = []
    | None =>
        exists obj',
          returned r = (AnyConfigMap obj', None) /\
          APIVersion obj' = APIVersion obj /\
          ConfigMap_Kind obj' = ConfigMap_Kind obj /\
          Metadata obj' = Metadata obj /\
          (forall key, is_Some (Data obj' !! key) <-> is_Some (Data obj !! key)) /\
          (forall key, key <> "MEMCACHED_PREFIX" -> Data obj' !! key = Data obj !! key) /\
          (Data obj !! "MEMCACHED_PREFIX" = None -> obj' = obj /\ t' = []) /\
          (is_Some (Data obj !! "MEMCACHED_PREFIX") ->
           exists now : string,
             t' = [Called (time_Now_Format "2006-01-02T15:04:05") now] /\
             Data obj' !! "MEMCACHED_PREFIX" = Some now)
    end.
Proof. intros r. apply (MemcachedOverWrite_Update_outcome o), run_outcome. Qed.

Lemma MemcachedOverWrite_Update_spec_witness :
  exists obj',
    returned (run configmap_env (Update Build_MemcachedOverWrite "data: ...") tt)
    = (AnyConfigMap obj', None) /\
    Data obj' !! "MEMCACHED_PREFIX" = Some "2026-11-03T10:00:00" /\
    Data obj' !! "LOG_LEVEL" = Some "info".
Proof.
  destruct (MemcachedOverWrite_Update_spec configmap_env tt Build_MemcachedOverWrite
              "data: ...") as (obj & err & t' & _ & H).
  destruct err as [e |].
  - destruct H as [Hr _]. vm_compute in Hr. discriminate Hr.
  - destruct H as (obj' & Hr & _). exists obj'. split; [exact Hr |].
    vm_compute in Hr. injection Hr as <-. split; reflexivity.
Defined.

(** ** The order of a rewrite *)

Lemma KustomizationOverWrite_Update_reads (o : KustomizationOverWrite) b :
  always (fun c => changes_worktree c = false) (Update o b).
Proof. unfold Update, KustomizationOverWrite_Update. always_tac. Qed.

Lemma MemcachedOverWrite_Update_reads (o : MemcachedOverWrite) b :
  always (fun c => changes_worktree c = false) (Update o b).
Proof. unfold Update, MemcachedOverWrite_Update. always_tac. Qed.

Lemma changes_unchanged t :
  Forall (fun en => changes_worktree (called en) = false) t -> changes t = [].
Proof.
  induction 1 as [| en t Hen _ IH]; [done |].
  unfold changes in *. cbn. unfold change_of at 1. by rewrite Hen.
Qed.

Lemma changes_app t1 t2 : changes (t1 ++ t2) = changes t1 ++ changes t2.
Proof. apply omap_app. Qed.

Ltac find_marshalled :=
  repeat first [ apply Exists_cons_hd; eexists; reflexivity
               | apply Exists_cons_tl
               | apply Exists_app; right ].

Ltac commit_case :=
  split; [eexists; reflexivity |];
  split; [intros Hr; first [discriminate Hr | by left | by right] |];
  split; [intros Hne; first [by destruct Hne | find_marshalled] |];
  intros Hr Hc; first [discriminate Hr | discriminate Hc | by eexists].

Lemma commit_outcome {T} `{!OverWrite T} g wt path (o : T) t r :
  (forall b, always (fun c => changes_worktree c = false) (Update o b)) ->
  outcome (commit g wt path o) t r ->
  exists file rb,
    changes t `prefix_of`
      [Filesystem_Remove wt path;
       Filesystem_OpenFile wt path O_RDWR_O_CREATE perm_0666;
       File_Write file rb; File_Write file newline; Worktree_Add wt path] /\
    (r = None ->
     changes t = [] \/
     changes t =
       [Filesystem_Remove wt path;
        Filesystem_OpenFile wt path O_RDWR_O_CREATE perm_0666;
        File_Write file rb; File_Write file newline; Worktree_Add wt path]) /\
    (changes t <> [] ->
     Exists (fun en => exists v, marshalled_of en = Some (v, (rb, None))) t) /\
    (r = None -> changes t = [] ->
     exists e, head t = Some (Called (Filesystem_Stat wt path) (Some e))).
Proof.
  intros Hreads H. unfold commit, logged in H. outcome_inv H.
  all: try (apply outcome_bind in H as ([obj uerr] & tU & t2 & -> & HU & H);
            apply (always_outcome _ _ _ _ (Hreads _)), changes_unchanged in HU;
            outcome_inv H).
  all: unfold changes in *; cbn [omap list_omap change_of called changes_worktree];
    rewrite ?omap_app, ?HU;
    cbn [omap list_omap change_of called changes_worktree app].
  all: first [ solve [exists nil_handle, ""; commit_case]
             | solve [eexists nil_handle, _; commit_case]
             | solve [eexists _, _; commit_case] ].
Qed.

(** X5. In every environment, for every overwrite strategy whose [Update]
    itself leaves the working tree alone: the calls by which [commit]
    changes the working tree are, in this order, a beginning of
    [Remove path], [OpenFile path] (read-write, create, mode 0666), the
    write of the marshalled bytes, the write of a newline and [Add path];
    so the file is never written before it is removed, and a failure to
    open, read, close, decode or marshal the file leaves the working tree
    as it was.  A [commit] that returns no error made all five calls or
    none of them, and none only when the file was absent. *)
Theorem commit_write_order {W} (env : Env W) (w : W) {T} `{!OverWrite T}
    (g : GitOperator) (wt : handle) (path : string) (o : T) :
  (forall b, always (fun c => changes_worktree c = false) (Update o b)) ->
  let r := run env (commit g wt path o) w in
  exists file rb,
    changes (trace r) `prefix_of`
      [Filesystem_Remove wt path;
       Filesystem_OpenFile wt path O_RDWR_O_CREATE perm_0666;
       File_Write file rb; File_Write file newline; Worktree_Add wt path] /\
    (returned r = None ->
     changes (trace r) = [] \/
     changes (trace r) =
       [Filesystem_Remove wt path;
        Filesystem_OpenFile wt path O_RDWR_O_CREATE perm_0666;
        File_Write file rb; File_Write file newline; Worktree_Add wt path]) /\
    (changes (trace r) <> [] ->
     Exists (fun en => exists v, marshalled_of en = Some (v, (rb, None))) (trace r)) /\
    (returned r = None -> changes (trace r) = [] ->
     exists e, head (trace r) = Some (Called (Filesystem_Stat wt path) (Some e))).
Proof.
  intros Hreads r. apply (commit_outcome g wt path o); [exact Hreads | apply run_outcome].
Qed.

Lemma commit_write_order_witness :
  changes (trace (run configmap_env
                    (commit sample_operator 1%nat "overlays/staging/configmap.yaml"
                       Build_MemcachedOverWrite) tt))
  = [Filesystem_Remove 1%nat "overlays/staging/configmap.yaml";
     Filesystem_OpenFile 1%nat "overlays/staging/configmap.yaml" O_RDWR_O_CREATE perm_0666;
     File_Write 1%nat ""; File_Write 1%nat newline;
     Worktree_Add 1%nat "overlays/staging/configmap.yaml"].
Proof.
  destruct (commit_write_order configmap_env tt sample_operator 1%nat
              "overlays/staging/configmap.yaml" Build_MemcachedOverWrite
              (MemcachedOverWrite_Update_reads _))
    as (file & rb & _ & Hall & _).
  destruct Hall as [Hnone | Hall]; [reflexivity | discriminate Hnone |].
  reflexivity.
Defined.

(** ** What a push publishes *)

Lemma Forall_unpublished (P : Call -> Prop) t :
  (forall en, P (called en) -> publishes (called en) = false) ->
  Forall (fun en => P (called en)) t ->
  Forall (fun en => publishes (called en) = false) t.
Proof. intros HP Ht. eapply Forall_impl; [exact Ht |]. exact HP. Qed.

Lemma branch_footprint_unpublished b en :
  branch_footprint b (called en) -> publishes (called en) = false.
Proof. intros H. by destruct (branch_footprint_quiet b en H). Qed.

Lemma commit_footprint_unpublished en :
  commit_footprint (called en) -> publishes (called en) = false.
Proof. intros H. by destruct (commit_footprint_quiet en H). Qed.

Lemma PushDockerImageTag_publish g id phase tag targetTag t r :
  outcome (PushDockerImageTag g id phase tag targetTag) t r ->
  exists t0 t1,
    t = t0 ++ t1 /\
    Forall (fun en => publishes (called en) = false) t0 /\
    ((t1 = [] /\ is_Some r.2) \/
     exists wt now hash cerr x t2,
       t1 = Called time_Now now
            :: Called (Worktree_Commit wt
                         ("Change docker image tag. target: " +:+ Path phase +:+ ", phase: "
                            +:+ Name phase +:+ ", tag: " +:+ tag +:+ ".")
                         (username g) "" now) (hash, cerr)
            :: Called (Storer_SetReference (repository g)
                         (Sprintf_branch id (Name phase) tag) hash) x
            :: t2 /\
       Forall (fun en => commit_of en = None) t2 /\
       match x with
       | Some e =>
           r = ("", Some e) /\ Forall (fun en => publishes (called en) = false) t2
       | None =>
           exists remote rerr t3,
             t2 = Called (Repository_Remote (repository g) "origin") (remote, rerr) :: t3 /\
             match rerr with
             | Some e =>
                 r = (Sprintf_branch id (Name phase) tag, Some e) /\
                 Forall (fun en => publishes (called en) = false) t3
             | None =>
                 exists perr t4,
                   t3 = Called (Remote_Push remote
                                  (Sprintf_branch id (Name phase) tag +:+ ":" +:+ "refs/heads/"
                                     +:+ Sprintf_branch id (Name phase) tag)
                                  (auth g)) perr :: t4 /\
                   r = (Sprintf_branch id (Name phase) tag, perr) /\
                   Forall (fun en => publishes (called en) = false) t4
             end
       end).
Proof.
  intros H. unfold PushDockerImageTag in H.
  apply outcome_bind in H as ([w e1] & t1 & ta & -> & H1 & H).
  apply (always_outcome _ _ _ _ (createAndCheckoutNewBranch_footprint _ _)) in H1.
  apply (Forall_unpublished _ _ (branch_footprint_unpublished _)) in H1.
  destruct e1 as [e1 |].
  { outcome_inv H. eexists _, []. split; [symmetry; apply app_nil_r |].
    split; [| left; split; [done | by eexists]].
    repeat (apply Forall_app; split; [done |]). by repeat constructor. }
  apply outcome_bind in H as (e2 & t2 & tb & -> & H2 & H).
  apply (always_outcome _ _ _ _ (commit_Kustomization_footprint _ _ _ _)) in H2.
  apply (Forall_unpublished _ _ commit_footprint_unpublished) in H2.
  destruct e2 as [e2 |].
  { outcome_inv H. eexists _, []. split; [symmetry; apply app_nil_r |].
    split; [| left; split; [done | by eexists]].
    repeat (apply Forall_app; split; [done |]). by repeat constructor. }
  apply outcome_bind in H as (e3 & t3 & tc & -> & H3 & H).
  apply (always_outcome _ _ _ _ (commit_Memcached_footprint _ _ _ _)) in H3.
  apply (Forall_unpublished _ _ commit_footprint_unpublished) in H3.
  destruct e3 as [e3 |].
  { outcome_inv H. eexists _, []. split; [symmetry; apply app_nil_r |].
    split; [| left; split; [done | by eexists]].
    repeat (apply Forall_app; split; [done |]). by repeat constructor. }
  apply outcome_bind in H as (e4 & t4 & td & -> & H4 & H).
  apply (always_outcome _ _ _ _ (verify_footprint_always _ _)) in H4.
  apply (Forall_unpublished _ _ verify_footprint_quiet) in H4.
  destruct e4 as [e4 |].
  { outcome_inv H. eexists _, []. split; [symmetry; apply app_nil_r |].
    split; [| left; split; [done | by eexists]].
    repeat (apply Forall_app; split; [done |]). by repeat constructor. }
  exists (t1 ++ t2 ++ t3 ++ t4), td. split; [by rewrite <- !app_assoc |].
  split; [by repeat (apply Forall_app; split; [done |]) |].
  right. outcome_inv H.
  all: eexists _, _, _, _, _, _; split; [reflexivity |].
  all: split; [by repeat constructor |].
  all: cbn beta iota.
  all: first [ by (split; [reflexivity | repeat constructor])
             | eexists _, _, _; split; [reflexivity |]; cbn beta iota;
               first [ by (split; [reflexivity | repeat constructor])
                     | eexists _, _; split; [reflexivity |];
                       by (split; [reflexivity | repeat constructor]) ] ].
Qed.

Lemma unpublished_unobserved t :
  Forall (fun en => publishes (called en) = false) t ->
  Forall (fun en => push_of en = None /\ commit_of en = None) t.
Proof.
  intros H. eapply Forall_impl; [exact H |]. intros [c x] Hc. by destruct c.
Qed.

Lemma not_pushed t x :
  Forall (fun en => publishes (called en) = false) t ->
  ~ Exists (fun en => push_of en = Some x) t.
Proof.
  intros H Hex. apply unpublished_unobserved in H.
  apply Exists_exists in Hex as (en & Hin & Hen).
  rewrite Forall_forall in H. destruct (H en Hin) as [Hn _]. congruence.
Qed.

Lemma not_committed t x :
  Forall (fun en => publishes (called en) = false) t ->
  ~ Exists (fun en => commit_of en = Some x) t.
Proof.
  intros H Hex. apply unpublished_unobserved in H.
  apply Exists_exists in Hex as (en & Hin & Hen).
  rewrite Forall_forall in H. destruct (H en Hin) as [_ Hn]. congruence.
Qed.

Lemma PushDockerImageTag_pushes g id phase tag targetTag t r :
  outcome (PushDockerImageTag g id phase tag targetTag) t r ->
  (r.2 = None <->
   Exists (fun en => exists remote spec a, push_of en = Some (remote, spec, a, None)) t) /\
  (forall remote spec a x,
      Exists (fun en => push_of en = Some (remote, spec, a, x)) t ->
      r = (Sprintf_branch id (Name phase) tag, x) /\ a = auth g /\
      Exists (fun en => en = Called (Repository_Remote (repository g) "origin") (remote, None))
        t).
Proof.
  intros H.
  apply PushDockerImageTag_publish in H as (t0 & t1 & -> & H0 & [[-> Herr] | H]).
  { rewrite app_nil_r. split.
    - split; [intros Hr; destruct Herr as [e He]; congruence |].
      intros Hex. apply Exists_exists in Hex as (en & Hin & remote & spec & a & Hen).
      destruct (not_pushed _ (remote, spec, a, None) H0).
      apply Exists_exists. eauto.
    - intros remote spec a x Hex. by destruct (not_pushed _ _ H0 Hex). }
  destruct H as (wt & now & hash & cerr & x & t2 & -> & _ & H).
  assert (Hpush : forall y, Exists (fun en => push_of en = Some y)
                              (t0 ++ Called time_Now now
                                     :: Called (Worktree_Commit wt
                                          ("Change docker image tag. target: " +:+ Path phase
                                             +:+ ", phase: " +:+ Name phase +:+ ", tag: "
                                             +:+ tag +:+ ".") (username g) "" now) (hash, cerr)
                                     :: Called (Storer_SetReference (repository g)
                                          (Sprintf_branch id (Name phase) tag) hash) x :: t2) ->
                            Exists (fun en => push_of en = Some y) t2).
  { intros y Hex. apply Exists_app in Hex as [Hex | Hex]; [by destruct (not_pushed _ _ H0 Hex) |].
    by exists_inv Hex. }
  destruct x as [e |].
  { destruct H as [-> Hq]. split.
    - split; [done |]. intros Hex.
      apply Exists_exists in Hex as (en & Hin & remote & spec & a & Hen).
      destruct (not_pushed _ (remote, spec, a, None) Hq). apply Hpush.
      apply Exists_exists. eauto.
    - intros remote spec a x Hex. by destruct (not_pushed _ _ Hq (Hpush _ Hex)). }
  destruct H as (remote & rerr & t3 & -> & H). destruct rerr as [e |].
  { destruct H as [-> Hq]. split.
    - split; [done |]. intros Hex.
      apply Exists_exists in Hex as (en & Hin & remote' & spec & a & Hen).
      assert (Hex : Exists (fun en => push_of en = Some (remote', spec, a, None))
                      (Called (Repository_Remote (repository g) "origin") (remote, Some e) :: t3)).
      { apply Hpush. apply Exists_exists. eauto. }
      exists_inv Hex. by destruct (not_pushed _ _ Hq Hex).
    - intros remote' spec a x Hex. apply Hpush in Hex. exists_inv Hex.
      by destruct (not_pushed _ _ Hq Hex). }
  destruct H as (perr & t4 & -> & -> & Hq). split.
  - split.
    + cbn. intros ->. apply Exists_app. right. do 4 apply Exists_cons_tl.
      apply Exists_cons_hd. by eexists _, _, _.
    + intros Hex. apply Exists_exists in Hex as (en & Hin & remote' & spec & a & Hen).
      assert (Hex : Exists (fun en => push_of en = Some (remote', spec, a, None))
                      (Called (Repository_Remote (repository g) "origin") (remote, None)
                       :: Called (Remote_Push remote
                                    (Sprintf_branch id (Name phase) tag +:+ ":" +:+ "refs/heads/"
                                       +:+ Sprintf_branch id (Name phase) tag) (auth g)) perr
                       :: t4)).
      { apply Hpush. apply Exists_exists. eauto. }
      exists_inv Hex; [by simplify_eq | by destruct (not_pushed _ _ Hq Hex)].
  - intros remote' spec a x Hex. apply Hpush in Hex. exists_inv Hex.
    + simplify_eq. split; [done |]. split; [done |].
      apply Exists_app. right. do 3 apply Exists_cons_tl. by apply Exists_cons_hd.
    + by destruct (not_pushed _ _ Hq Hex).
Qed.

(** X6. In every environment [PushDockerImageTag] returns no error exactly
    when it pushed and the push succeeded.  Whenever it pushes, it does so
    with the operator's credentials, on the remote that
    [Remote("origin")] returned without error, and it returns the branch
    name together with the answer of the push, whatever that is. *)
Theorem PushDockerImageTag_result {W} (env : Env W) (w : W) g id phase tag targetTag :
  let r := run env (PushDockerImageTag g id phase tag targetTag) w in
  ((returned r).2 = None <->
   Exists (fun en => exists remote spec a, push_of en = Some (remote, spec, a, None))
     (trace r)) /\
  (forall remote spec a x,
      Exists (fun en => push_of en = Some (remote, spec, a, x)) (trace r) ->
      returned r = (Sprintf_branch id (Name phase) tag, x) /\ a = auth g /\
      Exists (fun en => en = Called (Repository_Remote (repository g) "origin") (remote, None))
        (trace r)).
Proof. intros r. apply (PushDockerImageTag_pushes g id phase tag targetTag), run_outcome. Qed.

Lemma PushDockerImageTag_result_witness :
  returned (run (answering (fun _ => None))
              (PushDockerImageTag sample_operator "api" sample_phase "v2" "app") tt)
  = ("bot/docker-image-tag-api-staging-v2", None).
Proof.
  destruct (PushDockerImageTag_result (answering (fun _ => None)) tt sample_operator "api"
              sample_phase "v2" "app") as [_ Hpush].
  destruct (Hpush 1%nat
              ("bot/docker-image-tag-api-staging-v2" +:+ ":" +:+ "refs/heads/"
                 +:+ "bot/docker-image-tag-api-staging-v2")
              (auth sample_operator) None) as (Hr & _).
  { vm_compute. find_entry. }
  exact Hr.
Defined.

Lemma PushDockerImageTag_commits g id phase tag targetTag t r :
  outcome (PushDockerImageTag g id phase tag targetTag) t r ->
  forall msg name email when hash cerr,
    Exists (fun en => commit_of en = Some (msg, name, email, when, (hash, cerr))) t ->
    msg = "Change docker image tag. target: " +:+ Path phase +:+ ", phase: "
            +:+ Name phase +:+ ", tag: " +:+ tag +:+ "." /\
    name = username g /\ email = "" /\
    exists t1 wt x t2,
      t = t1 ++ Called time_Now when
             :: Called (Worktree_Commit wt msg name email when) (hash, cerr)
             :: Called (Storer_SetReference (repository g)
                          (Sprintf_branch id (Name phase) tag) hash) x
             :: t2 /\
      Forall (fun en => publishes (called en) = false) t1.
Proof.
  intros H msg name email when hash cerr Hex.
  apply PushDockerImageTag_publish in H as (t0 & t1 & -> & H0 & [[-> Herr] | H]).
  { rewrite app_nil_r in Hex. by destruct (not_committed _ _ H0 Hex). }
  destruct H as (wt & now & hash' & cerr' & x & t2 & -> & Hq & _).
  apply Exists_app in Hex as [Hex | Hex]; [by destruct (not_committed _ _ H0 Hex) |].
  apply Exists_cons in Hex as [Hex | Hex]; [discriminate Hex |].
  apply Exists_cons in Hex as [Hex | Hex].
  - cbn in Hex. simplify_eq. do 3 (split; [done |]). by eexists _, _, _, _.
  - apply Exists_cons in Hex as [Hex | Hex]; [discriminate Hex |].
    apply Exists_exists in Hex as (en & Hin & Hen).
    rewrite Forall_forall in Hq. specialize (Hq en Hin). congruence.
Qed.

(** X7. In every environment, every [Commit] that [PushDockerImageTag]
    makes has the message
    [Change docker image tag. target: <path>, phase: <name>, tag: <tag>.],
    the operator's user name as author, an empty e-mail address and the
    time the clock gave just before; nothing is committed, referenced or
    pushed before it; and the call right after it sets the reference of the
    work branch to the hash [Commit] returned, also when [Commit] returned
    an error. *)
Theorem PushDockerImageTag_commit {W} (env : Env W) (w : W) g id phase tag targetTag :
  let r := run env (PushDockerImageTag g id phase tag targetTag) w in
  forall msg name email when hash cerr,
    Exists (fun en => commit_of en = Some (msg, name, email, when, (hash, cerr))) (trace r) ->
    msg = "Change docker image tag. target: " +:+ Path phase +:+ ", phase: "
            +:+ Name phase +:+ ", tag: " +:+ tag +:+ "." /\
    name = username g /\ email = "" /\
    exists t1 wt x t2,
      trace r = t1 ++ Called time_Now when
                   :: Called (Worktree_Commit wt msg name email when) (hash, cerr)
                   :: Called (Storer_SetReference (repository g)
                                (Sprintf_branch id (Name phase) tag) hash) x
                   :: t2 /\
      Forall (fun en => publishes (called en) = false) t1.
Proof.
  intros r. apply (PushDockerImageTag_commits g id phase tag targetTag _ (returned r)).
  apply run_outcome.
Qed.

Lemma PushDockerImageTag_commit_witness :
  exists t1 wt x t2,
    trace (run commit_fails_env
             (PushDockerImageTag sample_operator "api" sample_phase "v2" "app") tt)
    = t1 ++ Called time_Now 7%nat
           :: Called (Worktree_Commit wt
                        "Change docker image tag. target: overlays/staging/kustomization.yaml, phase: staging, tag: v2."
                        "gocat" "" 7%nat) ("0000000", Some (ErrNew "empty commit"))
           :: Called (Storer_SetReference 1%nat "bot/docker-image-tag-api-staging-v2" "0000000") x
           :: t2.
Proof.
  destruct (PushDockerImageTag_commit commit_fails_env tt sample_operator "api" sample_phase
              "v2" "app"
              "Change docker image tag. target: overlays/staging/kustomization.yaml, phase: staging, tag: v2."
              "gocat" "" 7%nat "0000000" (Some (ErrNew "empty commit")))
    as (_ & _ & _ & t1 & wt & x & t2 & Ht & _).
  { vm_compute. find_entry. }
  exists t1, wt, x, t2. exact Ht.
Defined.

(** ** The two files of a push *)

Lemma append_assoc_string (s1 s2 s3 : string) : (s1 +:+ s2) +:+ s3 = s1 +:+ (s2 +:+ s3).
Proof.
  induction s1 as [| c s1 IH]; [done |]. rewrite !append_cons. by rewrite IH.
Qed.

Lemma append_nil_r (s : string) : s +:+ "" = s.
Proof. induction s as [| c s IH]; [done |]. rewrite append_cons. by rewrite IH. Qed.

Lemma HasPrefix_ext p s u v :
  (String.length p <= String.length s)%nat ->
  HasPrefix (s +:+ u) p = HasPrefix (s +:+ v) p.
Proof.
  revert s. induction p as [| a p IH]; intros s Hlen.
  - by rewrite !HasPrefix_nil.
  - destruct s as [| b s]; [cbn in Hlen; lia |].
    rewrite !append_cons. cbn [HasPrefix]. destruct (decide (a = b)); [| done].
    apply IH. cbn [String.length] in Hlen. lia.
Qed.

(** The first occurrence of [old' ++ c] in [dir ++ old' ++ c] is the last
    one when [dir ++ old'] has none. *)
Lemma ReplaceAll_last dir old' c new :
  Contains (dir +:+ old') (old' +:+ c) = false ->
  String.length c = 1%nat ->
  ReplaceAll (dir +:+ (old' +:+ c)) (old' +:+ c) new = dir +:+ new.
Proof.
  intros Habs Hc. induction dir as [| a dir IH].
  - rewrite !append_nil. rewrite <- (append_nil_r (old' +:+ c)) at 1.
    rewrite ReplaceAll_prefix.
    + unfold ReplaceAll. cbn [replace_scan]. by rewrite append_nil_r.
    + destruct old'; [by destruct c | done].
  - rewrite append_cons in Habs. cbn [Contains] in Habs.
    apply orb_false_iff in Habs as [Hp Hrest].
    rewrite !append_cons. unfold ReplaceAll. cbn [replace_scan].
    assert (E : String a (dir +:+ old' +:+ c) = String a (dir +:+ old') +:+ c)
      by (by rewrite append_cons, append_assoc_string).
    rewrite E, (HasPrefix_ext _ _ c ""), append_nil_r, Hp.
    + fold (ReplaceAll (dir +:+ (old' +:+ c)) (old' +:+ c) new). by rewrite IH.
    + rewrite length_append_string. cbn [String.length].
      rewrite length_append_string. lia.
Qed.

Lemma commit_Kustomization_file g w path (o : KustomizationOverWrite) :
  always (names_file path) (commit g w path o).
Proof. unfold commit, logged, Update, KustomizationOverWrite_Update. always_tac. Qed.

Lemma commit_Memcached_file g w path (o : MemcachedOverWrite) :
  always (names_file path) (commit g w path o).
Proof. unfold commit, logged, Update, MemcachedOverWrite_Update. always_tac. Qed.

Lemma PushDockerImageTag_names_files g id phase tag targetTag :
  always (fun c => names_file (Path phase) c \/
                   names_file (ReplaceAll (Path phase) "kustomization.yaml" "configmap.yaml") c)
    (PushDockerImageTag g id phase tag targetTag).
Proof.
  unfold PushDockerImageTag.
  apply always_bind.
  { eapply always_mono; [| apply createAndCheckoutNewBranch_footprint].
    intros c Hc. left. by destruct c. }
  intros [w [e |]]; [exact I |].
  apply always_bind.
  { eapply always_mono; [| apply commit_Kustomization_file]. intros c Hc. by left. }
  intros [e |]; [always_tac; by left |].
  apply always_bind.
  { eapply always_mono; [| apply commit_Memcached_file]. intros c Hc. by right. }
  intros [e |]; [always_tac; by left |].
  apply always_bind.
  { eapply always_mono; [| apply verify_footprint_always]. intros c Hc. left. by destruct c. }
  intros [e |]; [exact I |].
  always_tac; by left.
Qed.

(** X8. In every environment, the files that [PushDockerImageTag] looks at,
    opens, removes, creates or stages are the phase's path and the path
    with [kustomization.yaml] replaced by [configmap.yaml], and no other.
    For a path [<dir>kustomization.yaml] (with no earlier occurrence of
    that name) the second file is [<dir>configmap.yaml], next to the
    first; for a path that does not contain [kustomization.yaml] the second
    file is the first one, so that both overwrites are applied to the same
    file. *)
Theorem PushDockerImageTag_files {W} (env : Env W) (w : W) g id phase tag targetTag dir :
  let t := trace (run env (PushDockerImageTag g id phase tag targetTag) w) in
  (Path phase = dir +:+ "kustomization.yaml" ->
   Contains (dir +:+ "kustomization.yam") "kustomization.yaml" = false ->
   Forall (fun en => names_file (dir +:+ "kustomization.yaml") (called en) \/
                     names_file (dir +:+ "configmap.yaml") (called en)) t) /\
  (Contains (Path phase) "kustomization.yaml" = false ->
   Forall (fun en => names_file (Path phase) (called en)) t).
Proof.
  intros t.
  pose proof (always_outcome _ _ _ _ (PushDockerImageTag_names_files g id phase tag targetTag)
                (run_outcome env (PushDockerImageTag g id phase tag targetTag) w)) as H.
  fold t in H. split.
  - intros Hpath Habs.
    rewrite Hpath in H.
    pose proof (ReplaceAll_last dir "kustomization.yam" "l" "configmap.yaml" Habs eq_refl)
      as E.
    change ("kustomization.yam" +:+ "l") with "kustomization.yaml" in E.
    by rewrite E in H.
  - intros Habs. rewrite (ReplaceAll_absent _ _ _ Habs) in H.
    eapply Forall_impl; [exact H |]. intros en Hen. cbn beta in Hen. by destruct Hen.
Qed.

Lemma PushDockerImageTag_files_witness :
  Forall (fun en => names_file "overlays/staging/kustomization.yaml" (called en) \/
                    names_file "overlays/staging/configmap.yaml" (called en))
    (trace (run (answering (fun _ => None))
              (PushDockerImageTag sample_operator "api" sample_phase "v2" "app") tt)).
Proof.
  apply (PushDockerImageTag_files (answering (fun _ => None)) tt sample_operator "api"
           sample_phase "v2" "app" "overlays/staging/"); reflexivity.
Defined.

(** ** Checking out the default branch *)

Ltac find_some :=
  repeat first [ apply Exists_cons_hd; by eexists | apply Exists_cons_tl ].

Ltac exists_some_inv H :=
  repeat lazymatch type of H with
    | Exists _ [] => inversion H
    | Exists _ (_ :: _) =>
        apply Exists_cons in H as [H | H];
        [cbn in H; try (destruct H as [? H]; discriminate H) |]
    end.

Lemma checkoutMainBranch_outcome g t r :
  outcome (checkoutMainBranch g) t r ->
  Forall (fun en => forall wt create b x,
            checkout_of en = Some (wt, create, b, x) -> create = false /\ b = mainRef g) t /\
  (r.2 = None <-> Exists (fun en => is_Some (pull_of en)) t) /\
  (r.2 = None ->
   Exists (fun en => en = Called (Repository_Worktree (repository g)) (r.1, None)) t /\
   Exists (fun en => checkout_of en = Some (r.1, false, mainRef g, None)) t) /\
  (Exists (fun en => is_Some (clone_of en)) t <->
   exists e, e <> NoErrAlreadyUpToDate /\ Exists (fun en => pull_of en = Some (Some e)) t) /\
  (forall storage url a x,
      Exists (fun en => clone_of en = Some (storage, url, a, x)) t ->
      url = repo g /\ a = auth g).
Proof.
  intros H. unfold checkoutMainBranch, Clone, getLocalRepoRoot in H. fold (mainRef g) in H.
  outcome_inv H.
  all: split;
    [repeat (apply Forall_cons; split; [cbn; intros; by simplify_eq |]); by apply Forall_nil |].
  all: split;
    [split; [intros Hr; first [discriminate Hr | find_some]
            | intros Hex; exists_inv Hex; by destruct Hex] |].
  all: split; [intros Hr; first [discriminate Hr | split; find_entry] |].
  all: split; [| intros storage url a res Hex; exists_inv Hex; by simplify_eq].
  all: split;
    [ intros Hex; exists_some_inv Hex; (eexists; split; [eassumption | find_entry])
    | intros (e' & Hne & Hex); exists_inv Hex; simplify_eq; first [done | find_some] ].
Qed.

(** X9. In every environment [checkoutMainBranch] checks out, without
    creating it, the operator's default branch, or [refs/heads/master] when
    none is set.  It returns no error exactly when it got as far as the
    pull, whatever the pull answered: a failed pull is printed and is no
    error; the working tree it then returns is the one [Worktree()]
    returned and the checkout was made on.  It clones again exactly when
    the pull failed with an error other than [NoErrAlreadyUpToDate], from
    the operator's URL with the operator's credentials. *)
Theorem checkoutMainBranch_spec {W} (env : Env W) (w : W) (g : GitOperator) :
  let r := run env (checkoutMainBranch g) w in
  Forall (fun en => forall wt create b x,
            checkout_of en = Some (wt, create, b, x) -> create = false /\ b = mainRef g)
    (trace r) /\
  ((returned r).2 = None <-> Exists (fun en => is_Some (pull_of en)) (trace r)) /\
  ((returned r).2 = None ->
   Exists (fun en => en = Called (Repository_Worktree (repository g)) ((returned r).1, None))
     (trace r) /\
   Exists (fun en => checkout_of en = Some ((returned r).1, false, mainRef g, None))
     (trace r)) /\
  (Exists (fun en => is_Some (clone_of en)) (trace r) <->
   exists e, e <> NoErrAlreadyUpToDate /\
             Exists (fun en => pull_of en = Some (Some e)) (trace r)) /\
  (forall storage url a x,
      Exists (fun en => clone_of en = Some (storage, url, a, x)) (trace r) ->
      url = repo g /\ a = auth g).
Proof. intros r. apply checkoutMainBranch_outcome, run_outcome. Qed.

Lemma checkoutMainBranch_spec_witness :
  let r := run offline_env (checkoutMainBranch sample_operator) tt in
  (returned r).2 = None /\ Exists (fun en => is_Some (clone_of en)) (trace r).
Proof.
  intros r.
  destruct (checkoutMainBranch_spec offline_env tt sample_operator)
    as (_ & Hpull & _ & Hclone & _).
  split.
  - apply Hpull. vm_compute. find_some.
  - apply Hclone. exists (ErrNew "dial tcp: i/o timeout").
    split; [done | vm_compute; find_entry].
Defined.

(** ** What verify accepts *)

Lemma verify_range_exact st t r :
  outcome (verify_range st) t r ->
  (r = None <-> Forall (fun entry => Staging entry.2 = Modified) st) /\
  (r = None -> t = []) /\
  (forall e, r = Some e ->
     e = ErrNew "There are some extra file updates" /\
     exists path status x,
       (path, status) ∈ st /\ Staging status <> Modified /\
       t = [Called (fmt_Printf "[ERROR] There are some extra file updates. File: %v %s"
                      [OFileStatus status; OStr path]) x]).
Proof.
  revert t. induction st as [| [path status] st IH]; intros t H; cbn [verify_range] in H.
  - outcome_inv H. split; [split; [by constructor | done] |]. split; [done |].
    intros e He. discriminate He.
  - destruct (decide (Staging status = Modified)) as [Hm | Hm].
    + destruct (IH _ H) as (Hiff & Hnil & Herr). split; [| split; [done |]].
      * rewrite Hiff. split; [intros Hall; by constructor |].
        intros Hall. by apply Forall_cons in Hall as [_ Hall].
      * intros e He. destruct (Herr e He) as (-> & p & s & x & Hin & Hs & ->).
        split; [done |]. exists p, s, x. split; [by apply list_elem_of_further | done].
    + outcome_inv H. split; [split; [done |] |].
      * intros Hall. by apply Forall_cons in Hall as [Hall _].
      * split; [done |]. intros e He. injection He as <-. split; [done |].
        eexists path, status, _. split; [by apply list_elem_of_here | done].
Qed.

Lemma verify_exact g w t r :
  outcome (verify g w) t r ->
  exists st err t',
    t = Called (Worktree_Status w) (st, err) :: t' /\
    (r = None <-> err = None /\ Forall (fun entry => Staging entry.2 = Modified) st) /\
    (r = None -> t' = []) /\
    (forall e, err = Some e -> r = Some e) /\
    (forall e, err = None -> r = Some e ->
       e = ErrNew "There are some extra file updates" /\
       exists path status x,
         (path, status) ∈ st /\ Staging status <> Modified /\
         t' = [Called (fmt_Printf "[ERROR] There are some extra file updates. File: %v %s"
                         [OFileStatus status; OStr path]) x]).
Proof.
  intros H. unfold verify in H. outcome_inv H.
  - eexists _, _, _. split; [reflexivity |].
    split; [split; [done | by intros [? _]] |]. split; [done |]. split; [| done].
    intros e' He'. by injection He' as <-.
  - apply verify_range_exact in H as (Hiff & Hnil & Herr).
    eexists _, _, _. split; [reflexivity |]. split.
    + rewrite Hiff. split; [done | by intros [_ ?]].
    + split; [done |]. split; [done |]. intros e _ He. by apply Herr.
Qed.

(** X10. In every environment [verify] asks for the status once, first.  It
    returns no error exactly when the status call succeeded and every path
    of the status is staged as [Modified] (an empty status included), and
    then it calls nothing else.  When the status call fails it returns
    that error; otherwise its error is
    [There are some extra file updates], and the one line it prints names
    a path of the status that is not staged as [Modified]. *)
Theorem verify_accepts {W} (env : Env W) (w : W) (g : GitOperator) (wt : handle) :
  let r := run env (verify g wt) w in
  exists st err t',
    trace r = Called (Worktree_Status wt) (st, err) :: t' /\
    (returned r = None <->
     err = None /\ Forall (fun entry => Staging entry.2 = Modified) st) /\
    (returned r = None -> t' = []) /\
    (forall e, err = Some e -> returned r = Some e) /\
    (forall e, err = None -> returned r = Some e ->
       e = ErrNew "There are some extra file updates" /\
       exists path status x,
         (path, status) ∈ st /\ Staging status <> Modified /\
         t' = [Called (fmt_Printf "[ERROR] There are some extra file updates. File: %v %s"
                         [OFileStatus status; OStr path]) x]).
Proof. intros r. apply (verify_exact g wt), run_outcome. Qed.

(** ** The other references, in the go-git model *)




Lemma gogit_Checkout_main_missing w main s :
  refs s !! main = None ->
  gogit (Worktree_Checkout w false main) s = (Some ErrReferenceNotFound, s).
Proof. intros Hm. unfold gogit. cbn. unfold gogit_Checkout. cbn. by rewrite Hm. Qed.

Lemma gogit_Checkout_main_unstaged w main s h :
  refs s !! main = Some h -> unstaged s = true ->
  gogit (Worktree_Checkout w false main) s
  = (Some ErrUnstagedChanges, setHEADToBranch main h s).
Proof.
  intros Hm Hc. unfold gogit. cbn. unfold gogit_Checkout. cbn. rewrite Hm. cbn.
  unfold setHEADToBranch. cbn. by rewrite Hc.
Qed.

Lemma createAndCheckoutNewBranch_run_fails g b s :
  refs s !! mainRef g = None \/ unstaged s = true ->
  exists e s' t,
    run gogit (createAndCheckoutNewBranch g b) s = ((nil_handle, Some e), s', t) /\
    refs s' = delete b (refs s) /\
    Forall (fun en => creates_branch b (called en) = false) t.
Proof.
  intros Hbad.
  unfold createAndCheckoutNewBranch, DeleteBranch, checkoutMainBranch,
    mbind, Prog_bind, mret, Prog_ret, call.
  fold (mainRef g).
  destruct (delete b (refs s) !! mainRef g) as [h |] eqn:Hm.
  - assert (Hc : unstaged s = true).
    { destruct Hbad as [Hnone | Hc]; [| done].
      apply lookup_delete_Some in Hm as [_ Hm]. congruence. }
    eexists _, _, _. split.
    + exec. eapply run_Do_eq; [by eapply gogit_Checkout_main_unstaged |]. exec.
    + split; [done |]. by repeat constructor.
  - eexists _, _, _. split.
    + exec. eapply run_Do_eq; [by eapply gogit_Checkout_main_missing |]. exec.
    + split; [done |]. by repeat constructor.
Qed.

(** X12. In the go-git model, on a repository whose default branch is
    missing or whose working tree has unstaged changes,
    [createAndCheckoutNewBranch] fails without creating the branch, and the
    reference of that name is removed all the same: the references it
    leaves are the old ones without the work branch. *)
Theorem createAndCheckoutNewBranch_fails g b s :
  refs s !! mainRef g = None \/ unstaged s = true ->
  let r := run gogit (createAndCheckoutNewBranch g b) s in
  is_Some (returned r).2 /\
  refs (final r) = delete b (refs s) /\
  Forall (fun en => creates_branch b (called en) = false) (trace r).
Proof.
  intros Hbad r.
  destruct (createAndCheckoutNewBranch_run_fails g b s Hbad) as (e & s' & t & Hrun & Hrefs & Ht).
  subst r. rewrite Hrun. split; [by eexists | done].
Qed.

Lemma createAndCheckoutNewBranch_fails_witness :
  let b := "bot/docker-image-tag-api-staging-v2" in
  let s := {| refs := {[ b := "d00d" ]}; HEAD := Symbolic b; unstaged := false;
              origin := PullUpToDate |} in
  let r := run gogit (createAndCheckoutNewBranch sample_operator b) s in
  is_Some (returned r).2 /\ refs (final r) !! b = None.
Proof.
  intros b s r.
  destruct (createAndCheckoutNewBranch_fails sample_operator b s) as (Herr & Hrefs & _).
  { left. reflexivity. }
  split; [exact Herr |]. unfold r. rewrite Hrefs. apply lookup_delete_eq.
Defined.

(** ** The outcome of the kanvas plugin *)

Lemma digit_of_bounds c d : digit_of c = Some d -> 0 <= d <= 9.
Proof.
  unfold digit_of. cbv zeta.
  destruct (_ && _) eqn:Hb; [| done]. intros [= <-].
  apply andb_true_iff in Hb as [H1 H2]. lia.
Qed.

Lemma ParseUint_loop_bounds s n v :
  ParseUint_loop s n = Some v -> 0 <= n <= maxUint64 -> 0 <= v <= maxUint64.
Proof.
  revert n. induction s as [| c s IH]; intros n H Hn; cbn [ParseUint_loop] in H.
  - by injection H as <-.
  - destruct (digit_of c) as [d |] eqn:Hd; [| done].
    apply digit_of_bounds in Hd.
    destruct (maxUint64 <? n * 10 + d) eqn:Hlt.
    + injection H as <-. unfold maxUint64. lia.
    + apply (IH _ H). lia.
Qed.

Lemma Atoi_bounds s n : Atoi s = (n, None) -> minInt64 <= n <= maxInt64.
Proof.
  unfold Atoi. cbv zeta. destruct s as [| c rest]; [done |].
  set (neg := bool_decide (c = "-"%char)).
  set (body := if neg || bool_decide (c = "+"%char) then rest else String c rest).
  destruct body as [| c' body']; [done |].
  destruct (ParseUint_loop (String c' body') 0) as [un |] eqn:Hun; [| done].
  apply ParseUint_loop_bounds in Hun; [| unfold maxUint64; lia].
  destruct (negb neg && (maxInt64 <? un)) eqn:H1; [done |].
  destruct (neg && (- minInt64 <? un)) eqn:H2; [done |].
  intros [= <-]. unfold minInt64, maxInt64 in *. destruct neg; cbn in H1, H2; lia.
Qed.

Lemma returns_mono {A} (post post' : A -> Prop) (p : Prog A) :
  (forall a, post a -> post' a) -> returns post p -> returns post' p.
Proof.
  intros Himp. induction p as [a | c k IH]; cbn; [apply Himp |].
  intros H x. apply IH, H.
Qed.

Lemma interpretPullRequests_returns o head prs :
  returns (fun r =>
             match r.2 with
             | Some _ => r.1 = o
             | None =>
                 r.1 = withStatus DeployStatusAlready \/
                 (status r.1 = DeployStatusSuccess /\
                  minInt64 <= PullRequestNumber r.1 <= maxInt64)
             end)
    (interpretPullRequests o head prs).
Proof.
  unfold interpretPullRequests.
  destruct (decide (length prs = 0%nat)) as [Hz | Hz]; [cbn; by left |].
  destruct (decide (1 < length prs)%nat) as [Hm | Hm]; [by cbn |].
  destruct prs as [| pr prs]; [done |].
  destruct (Atoi (Number pr)) as [n [e |]] eqn:HA; cbn; [done |].
  right. split; [done |]. by apply Atoi_bounds in HA.
Qed.

Lemma Prepare_returns k pj phase branch assigner tag :
  returns (fun r =>
             match r.2 with
             | Some _ => r.1 = withStatus DeployStatusFail
             | None =>
                 r.1 = withStatus DeployStatusAlready \/
                 (status r.1 = DeployStatusSuccess /\
                  minInt64 <= PullRequestNumber r.1 <= maxInt64)
             end)
    (Prepare k pj phase branch assigner tag).
Proof.
  unfold Prepare.
  apply returns_bind, returns_any. intros [tag' [e |]]; [by cbn |].
  cbn [returns bind mbind Prog_bind call]. intros ph.
  destruct (decide (Name ph = "")); [by cbn |].
  apply returns_bind, returns_any. intros [git' cerr].
  destruct (match cerr with Some e => negb (errors_Is e ErrRepositoryAlreadyExists)
                          | None => false end) eqn:Hc.
  { destruct cerr; by cbn. }
  apply returns_bind.
  assert (Hbody : returns (fun r =>
             match r.2 with
             | Some _ => r.1 = withStatus DeployStatusFail
             | None =>
                 r.1 = withStatus DeployStatusAlready \/
                 (status r.1 = DeployStatusSuccess /\
                  minInt64 <= PullRequestNumber r.1 <= maxInt64)
             end)
            (Prepare_body git' (withStatus DeployStatusFail) ph phase assigner tag'
               (Sprintf_branch (ID pj) (Name ph) tag'))).
  { unfold Prepare_body.
    apply returns_bind, returns_any. intros [wt [e |]]; [by cbn |].
    cbn [returns bind mbind Prog_bind call]. intros c.
    apply returns_bind, returns_any. intros root.
    cbn [returns bind mbind Prog_bind call]. intros tmpdir [e |]; [by cbn |].
    cbn [returns bind mbind Prog_bind call]. intros token.
    apply returns_bind, returns_any. intros path.
    apply returns_bind, returns_any. intros root'.
    cbn [returns bind mbind Prog_bind call]. intros realPath [res [e |]]; [by cbn |].
    apply interpretPullRequests_returns. }
  eapply returns_mono; [| exact Hbody]. intros out Hout.
  apply returns_bind, returns_any. intros [e |]; cbn; [intros _ |]; exact Hout.
Qed.

(** X13. In every environment the outcome and the error of [Prepare] agree:
    with an error, the outcome is the failed outcome and carries no pull
    request; without an error, the outcome is either the already-deployed
    one or a successful one, whose pull-request number is then within the
    range of a 64-bit integer. *)
Theorem Prepare_outcome_agrees {W} (env : Env W) (w : W) k pj phase branch assigner tag :
  let r := returned (run env (Prepare k pj phase branch assigner tag) w) in
  match r.2 with
  | Some _ => r.1 = withStatus DeployStatusFail
  | None =>
      r.1 = withStatus DeployStatusAlready \/
      (status r.1 = DeployStatusSuccess /\
       minInt64 <= PullRequestNumber r.1 <= maxInt64)
  end.
Proof.
  intros r.
  exact (returns_outcome _ _ _ _ (Prepare_returns k pj phase branch assigner tag)
           (run_outcome env (Prepare k pj phase branch assigner tag) w)).
Qed.

(** ** Where the kanvas plugin stops *)

Lemma Prepare_body_footprint git o ph phase assigner tag head :
  always body_footprint (Prepare_body git o ph phase assigner tag head).
Proof.
  unfold Prepare_body, checkoutMainBranch, Clone, getLocalRepoRoot, interpretPullRequests.
  always_tac.
Qed.

Lemma Clean_footprint_always g : always Clean_footprint (Clean g).
Proof. unfold Clean, getLocalRepoRoot. always_tac. Qed.

Lemma body_footprint_unobserved t :
  Forall (fun en => body_footprint (called en)) t ->
  Forall (fun en => ecr_of en = None /\ registry_of en = None /\ phase_of en = None /\
                    removes_from_disk (called en) = false) t.
Proof. intros H. eapply Forall_impl; [exact H |]. intros [c x] Hc. by destruct c. Qed.

Lemma Clean_footprint_unobserved t :
  Forall (fun en => Clean_footprint (called en)) t ->
  Forall (fun en => ecr_of en = None /\ registry_of en = None /\ phase_of en = None /\
                    clone_of en = None /\ apply_of en = None) t.
Proof. intros H. eapply Forall_impl; [exact H |]. intros [c x] Hc. by destruct c. Qed.

Lemma unobserved_inv (P : Entry -> Prop) (Q : Entry -> Prop) t :
  Forall P t -> (forall en, P en -> Q en -> False) -> ~ Exists Q t.
Proof.
  intros HP Hno Hex. apply Exists_exists in Hex as (en & Hin & Hen).
  rewrite Forall_forall in HP. exact (Hno en (HP en Hin) Hen).
Qed.

Ltac trace_inv H :=
  repeat lazymatch type of H with
    | Exists _ [] => inversion H
    | Exists _ (_ :: _) =>
        apply Exists_cons in H as [H | H]; [cbn in H; try discriminate H |]
    | Exists _ (_ ++ _) => apply Exists_app in H as [H | H]
    end.

Ltac unobserved H :=
  lazymatch goal with
  | HF : Forall _ ?t, H : Exists _ ?t |- _ =>
      exfalso; apply Exists_exists in H as (?en & ?Hin & H);
      rewrite Forall_forall in HF;
      match goal with
      | Hin : ?en ∈ t |- _ => destruct (HF en Hin) as (? & ? & ? & ?)
      end;
      intuition congruence
  end.

Ltac stops_here :=
  split; [done | repeat (apply Forall_cons; split; [done |]); by apply Forall_nil].

Lemma Prepare_stops k pj phase branch assigner tag t r :
  outcome (Prepare k pj phase branch assigner tag) t r ->
  (forall h e,
      Exists (fun en => ecr_of en = Some (h, Some e)) t ->
      r = (withStatus DeployStatusFail, Some e) /\
      Forall (fun en => touches_repository (called en) = false) t) /\
  (forall tag' e,
      Exists (fun en => registry_of en = Some (tag', Some e)) t ->
      r = (withStatus DeployStatusFail, Some e) /\
      Forall (fun en => touches_repository (called en) = false) t) /\
  (forall ph,
      Exists (fun en => phase_of en = Some ph) t -> Name ph = "" ->
      r = (withStatus DeployStatusFail,
           Some (ErrNew ("phase " +:+ phase +:+ " not found for project " +:+ ID pj))) /\
      Forall (fun en => touches_repository (called en) = false) t) /\
  (forall storage url a h e,
      head (omap clone_of t) = Some (storage, url, a, (h, Some e)) ->
      errors_Is e ErrRepositoryAlreadyExists = false ->
      r = (withStatus DeployStatusFail, Some (ErrWrap "failed to clone repository" e)) /\
      Forall (fun en => uses_repository (called en) = false) t).
Proof.
  intros H.
  unfold Prepare, resolveTag, Clone, getLocalRepoRoot in H.
  outcome_inv H.
  all: try (apply outcome_bind in H as (out & t1 & t2 & -> & Hbody & H);
            apply outcome_bind in H as (cerr & t3 & t4 & -> & Hclean & H);
            apply (always_outcome _ _ _ _ (Clean_footprint_always _)),
              Clean_footprint_unobserved in Hclean;
            apply (always_outcome _ _ _ _ (Prepare_body_footprint _ _ _ _ _ _ _)),
              body_footprint_unobserved in Hbody;
            outcome_inv H).
  all: split;
    [intros h' e' Hex; trace_inv Hex; try unobserved Hex;
     simplify_eq; stops_here |].
  all: split;
    [intros tag' e' Hex; trace_inv Hex; try unobserved Hex;
     simplify_eq; stops_here |].
  all: split;
    [intros ph' Hex Hname; trace_inv Hex; try unobserved Hex;
     simplify_eq; stops_here |].
  all: intros storage url a h' e' Hhead Hnot; cbn in Hhead; simplify_eq.
  all: first [ stops_here
             | match goal with
               | Hb : negb (errors_Is _ _) = false |- _ => rewrite Hnot in Hb; discriminate Hb
               end ].
Qed.

Lemma Prepare_explicit_tag k pj phase branch assigner tag t r :
  outcome (Prepare k pj phase branch assigner tag) t r ->
  tag <> "" ->
  Forall (fun en => ecr_of en = None /\ registry_of en = None) t.
Proof.
  intros H Htag.
  unfold Prepare, resolveTag, Clone, getLocalRepoRoot in H.
  destruct (decide (tag = "")) as [Heq | _]; [done |].
  outcome_inv H.
  all: try (apply outcome_bind in H as (out & t1 & t2 & -> & Hbody & H);
            apply outcome_bind in H as (cerr & t3 & t4 & -> & Hclean & H);
            apply (always_outcome _ _ _ _ (Clean_footprint_always _)),
              Clean_footprint_unobserved in Hclean;
            apply (always_outcome _ _ _ _ (Prepare_body_footprint _ _ _ _ _ _ _)),
              body_footprint_unobserved in Hbody;
            outcome_inv H).
  all: repeat first [ by apply Forall_nil
                    | apply Forall_cons; split; [done |]
                    | apply Forall_app; split ].
  all: (eapply Forall_impl; [eassumption |]); intros en (? & ? & ? & ?); done.
Qed.

(** X14. Where [Prepare] stops, in every environment.  With a tag given,
    the registry is not consulted.  When the registry client cannot be
    made, or the registry has no tag to give, [Prepare] returns that error;
    when the project has no phase of the given name ([FindPhase] answers a
    phase without a name) it returns [phase <phase> not found for project
    <id>]; in these cases nothing is cloned, checked out, applied or
    removed.  When the clone fails with an error that is not
    [ErrRepositoryAlreadyExists], it returns
    [failed to clone repository: <error>] and nothing is checked out,
    applied or removed: the clean-up does not run.  The outcome is the
    failed one in each case. *)
Theorem Prepare_stops_early {W} (env : Env W) (w : W) k pj phase branch assigner tag :
  let r := run env (Prepare k pj phase branch assigner tag) w in
  (tag <> "" -> Forall (fun en => ecr_of en = None /\ registry_of en = None) (trace r)) /\
  (forall h e,
      Exists (fun en => ecr_of en = Some (h, Some e)) (trace r) ->
      returned r = (withStatus DeployStatusFail, Some e) /\
      Forall (fun en => touches_repository (called en) = false) (trace r)) /\
  (forall tag' e,
      Exists (fun en => registry_of en = Some (tag', Some e)) (trace r) ->
      returned r = (withStatus DeployStatusFail, Some e) /\
      Forall (fun en => touches_repository (called en) = false) (trace r)) /\
  (forall ph,
      Exists (fun en => phase_of en = Some ph) (trace r) -> Name ph = "" ->
      returned r =
        (withStatus DeployStatusFail,
         Some (ErrNew ("phase " +:+ phase +:+ " not found for project " +:+ ID pj))) /\
      Forall (fun en => touches_repository (called en) = false) (trace r)) /\
  (forall storage url a h e,
      head (omap clone_of (trace r)) = Some (storage, url, a, (h, Some e)) ->
      errors_Is e ErrRepositoryAlreadyExists = false ->
      returned r =
        (withStatus DeployStatusFail, Some (ErrWrap "failed to clone repository" e)) /\
      Forall (fun en => uses_repository (called en) = false) (trace r)).
Proof.
  intros r.
  pose proof (run_outcome env (Prepare k pj phase branch assigner tag) w) as H.
  split; [by apply (Prepare_explicit_tag _ _ _ _ _ _ _ _ H) |].
  exact (Prepare_stops _ _ _ _ _ _ _ _ H).
Qed.

Lemma Prepare_stops_early_witness :
  let r1 := run no_registry_env
              (Prepare sample_plugin sample_project "staging" "main" sample_user "") tt in
  let r2 := run clone_fails_env
              (Prepare sample_plugin sample_project "staging" "main" sample_user "v2") tt in
  let r3 := run (answering (fun _ => None))
              (Prepare sample_plugin sample_project "canary" "main" sample_user "v2") tt in
  returned r1 = (withStatus DeployStatusFail, Some (ErrNew "no credentials")) /\
  Forall (fun en => uses_repository (called en) = false) (trace r2) /\
  returned r3 =
    (withStatus DeployStatusFail, Some (ErrNew "phase canary not found for project api")).
Proof.
  intros r1 r2 r3.
  destruct (Prepare_stops_early no_registry_env tt sample_plugin sample_project "staging"
              "main" sample_user "") as (_ & Hecr & _).
  destruct (Prepare_stops_early clone_fails_env tt sample_plugin sample_project "staging"
              "main" sample_user "v2") as (_ & _ & _ & _ & Hclone).
  destruct (Prepare_stops_early (answering (fun _ => None)) tt sample_plugin sample_project
              "canary" "main" sample_user "v2") as (_ & _ & _ & Hphase & _).
  split; [| split].
  - apply (Hecr nil_handle (ErrNew "no credentials")). vm_compute. find_entry.
  - eapply Hclone; reflexivity.
  - edestruct Hphase as [Hr _]; [vm_compute; find_entry | reflexivity | exact Hr].
Defined.

(** ** The repository the kanvas plugin works on *)

Lemma Prepare_body_operator git o ph phase assigner tag head :
  always (operator_footprint git) (Prepare_body git o ph phase assigner tag head).
Proof.
  unfold Prepare_body, checkoutMainBranch, Clone, getLocalRepoRoot, interpretPullRequests.
  always_tac.
Qed.

Lemma Clean_operator g g' : always (operator_footprint g') (Clean g).
Proof. unfold Clean, getLocalRepoRoot. always_tac. Qed.

Lemma Prepare_clone k pj phase branch assigner tag t r :
  outcome (Prepare k pj phase branch assigner tag) t r ->
  forall storage url a h cerr,
    head (omap clone_of t) = Some (storage, url, a, (h, cerr)) ->
    url = "https://github.com/" +:+ org (k_github k) +:+ "/" +:+ gitHubRepository pj
            +:+ ".git" /\
    a = auth (k_git k) /\
    (storage = InMemory <-> gitRoot (k_git k) = "") /\
    Forall (fun en => operator_footprint (withRepository (withRepo (k_git k) url) h)
                        (called en)) t.
Proof.
  intros H.
  unfold Prepare, resolveTag, Clone, getLocalRepoRoot in H.
  outcome_inv H.
  all: try (apply outcome_bind in H as (out & t1 & t2 & -> & Hbody & H);
            apply outcome_bind in H as (cerr' & t3 & t4 & -> & Hclean & H);
            apply (always_outcome _ _ _ _ (Clean_footprint_always _)) in Hclean;
            apply (always_outcome _ _ _ _ (Prepare_body_operator _ _ _ _ _ _ _)) in Hbody;
            outcome_inv H).
  all: intros storage url a h' cerr Hhead; cbn in Hhead; simplify_eq.
  all: split; [done |]; split; [done |].
  all: split; [split; intros Hx; first [done | discriminate Hx] |].
  all: repeat first [ by apply Forall_nil
                    | apply Forall_cons; split; [done |]
                    | apply Forall_app; split ].
  all: (eapply Forall_impl; [eassumption |]); intros [c ?] Hc; by destruct c.
Qed.

(** X15. In every environment, [Prepare] works on a clone of its own: its
    first clone is made from
    [https://github.com/<org>/<repository>.git] with the credentials of
    the plugin's operator, in memory exactly when that operator has no git
    root; every later clone is made from the same URL with the same
    credentials; and every [Worktree()] call is made on the repository the
    first clone returned, whether or not that clone reported that the
    repository already exists. *)
Theorem Prepare_own_clone {W} (env : Env W) (w : W) k pj phase branch assigner tag :
  let r := run env (Prepare k pj phase branch assigner tag) w in
  forall storage url a h cerr,
    head (omap clone_of (trace r)) = Some (storage, url, a, (h, cerr)) ->
    url = "https://github.com/" +:+ org (k_github k) +:+ "/" +:+ gitHubRepository pj
            +:+ ".git" /\
    a = auth (k_git k) /\
    (storage = InMemory <-> gitRoot (k_git k) = "") /\
    Forall (fun en => operator_footprint (withRepository (withRepo (k_git k) url) h)
                        (called en)) (trace r).
Proof.
  intros r.
  exact (Prepare_clone _ _ _ _ _ _ _ _
           (run_outcome env (Prepare k pj phase branch assigner tag) w)).
Qed.

Lemma Prepare_own_clone_witness :
  let r := run gogit (Prepare sample_plugin sample_project "staging" "main" sample_user "v2")
             sample_world in
  Exists (fun en => called en = Repository_Worktree nil_handle) (trace r) /\
  Forall (fun en => operator_footprint
                      (withRepository
                         (withRepo sample_operator
                            "https://github.com/zaiminc/api-config.git") nil_handle)
                      (called en)) (trace r).
Proof.
  intros r. split; [vm_compute; find_entry |].
  eapply (Prepare_own_clone gogit sample_world sample_plugin sample_project "staging" "main"
            sample_user "v2" _ _ _ nil_handle).
  reflexivity.
Defined.

(** ** What the tool is applied to *)

Ltac find_called :=
  repeat first [ apply Exists_cons_hd; reflexivity
               | apply Exists_cons_tl
               | apply Exists_app; right ].








(** ** What the kanvas plugin removes *)

Lemma local_path rest :
  Contains (rest +:+ ".git") "https://" = false ->
  TrimSuffix (ReplaceAll (ReplaceAll ("https://" +:+ rest +:+ ".git") "https://" "")
                "/" PathSeparator) ".git" = rest.
Proof.
  intros Habs. rewrite ReplaceAll_prefix by done. rewrite append_nil.
  rewrite (ReplaceAll_absent _ _ _ Habs).
  by rewrite ReplaceAll_separator, TrimSuffix_app.
Qed.

Lemma Clean_removes g t r :
  outcome (Clean g) t r ->
  forall p,
    Exists (fun en => called en = os_RemoveAll p) t ->
    gitRoot g <> "" /\
    exists dotGit x,
      t = [Called (filepath_Join
                     [gitRoot g;
                      TrimSuffix (ReplaceAll (ReplaceAll (repo g) "https://" "")
                                    "/" PathSeparator) ".git"]) p;
           Called (filepath_Join [p; ".git"]) dotGit;
           Called (os_Stat dotGit) None;
           Called (os_RemoveAll p) x].
Proof.
  intros H. unfold Clean, getLocalRepoRoot in H. outcome_inv H.
  all: intros p Hex; exists_inv Hex; simplify_eq.
  all: split; [done |]; by eexists _, _.
Qed.

Ltac before_app l :=
  lazymatch l with
  | ?t ++ _ => constr:(t)
  | ?e :: ?l' => let pre := before_app l' in constr:(e :: pre)
  end.

Lemma Prepare_removes k pj phase branch assigner tag t r :
  outcome (Prepare k pj phase branch assigner tag) t r ->
  forall p,
    Exists (fun en => called en = os_RemoveAll p) t ->
    gitRoot (k_git k) <> "" /\
    exists t1 dotGit x t2,
      t = t1 ++
          [Called (filepath_Join
                     [gitRoot (k_git k);
                      TrimSuffix
                        (ReplaceAll
                           (ReplaceAll
                              ("https://github.com/" +:+ org (k_github k) +:+ "/"
                                 +:+ gitHubRepository pj +:+ ".git") "https://" "")
                           "/" PathSeparator) ".git"]) p;
           Called (filepath_Join [p; ".git"]) dotGit;
           Called (os_Stat dotGit) None;
           Called (os_RemoveAll p) x] ++ t2 /\
      Forall (fun en => removes_from_disk (called en) = false) t1 /\
      Forall (fun en => removes_from_disk (called en) = false) t2.
Proof.
  intros H.
  unfold Prepare, resolveTag, Clone in H. unfold getLocalRepoRoot at 1 in H.
  outcome_inv H.
  all: try (apply outcome_bind in H as (out & t1 & t2 & -> & Hbody & H);
            apply outcome_bind in H as (cerr' & t3 & t4 & -> & Hclean & H);
            pose proof (Clean_removes _ _ _ Hclean) as Hrm;
            apply (always_outcome _ _ _ _ (Prepare_body_footprint _ _ _ _ _ _ _)),
              body_footprint_unobserved in Hbody;
            outcome_inv H).
  all: intros p Hex; trace_inv Hex.
  all: try (exfalso; apply Exists_exists in Hex as (en & Hin & Hen);
            rewrite Forall_forall in Hbody;
            destruct (Hbody en Hin) as (_ & _ & _ & Hno);
            rewrite Hen in Hno; discriminate Hno).
  all: destruct (Hrm _ Hex) as (Hroot & dotGit & x' & ->); try (by destruct Hroot).
  all: split; [exact Hroot |].
  all: match goal with
       | |- exists t0 dotGit x t2, ?l = _ /\ _ =>
           let pre := before_app l in
           exists pre, dotGit, x'
       end.
  all: eexists; split; [reflexivity |].
  all: split;
    [ repeat (apply Forall_cons; split; [done |]);
      (eapply Forall_impl; [exact Hbody |]); by intros en (_ & _ & _ & ?)
    | by repeat constructor ].
Qed.

(** X17. In every environment, for an organisation and repository name
    that do not themselves spell [https://]: the only thing [Prepare] ever
    removes is the local clone of the project's repository,
    [filepath.Join(gitRoot, "github.com/<org>/<repository>")], and only
    right after [os.Stat] has found the [.git] directory inside it; it
    removes nothing when the operator works in memory, and nothing before
    or after that one removal. *)
Theorem Prepare_removes_only_its_clone {W} (env : Env W) (w : W)
    k pj phase branch assigner tag :
  Contains ("github.com/" +:+ org (k_github k) +:+ "/" +:+ gitHubRepository pj +:+ ".git")
    "https://" = false ->
  let r := run env (Prepare k pj phase branch assigner tag) w in
  forall p,
    Exists (fun en => called en = os_RemoveAll p) (trace r) ->
    gitRoot (k_git k) <> "" /\
    exists t1 dotGit x t2,
      trace r =
        t1 ++
        [Called (filepath_Join
                   [gitRoot (k_git k);
                    "github.com/" +:+ org (k_github k) +:+ "/" +:+ gitHubRepository pj]) p;
         Called (filepath_Join [p; ".git"]) dotGit;
         Called (os_Stat dotGit) None;
         Called (os_RemoveAll p) x] ++ t2 /\
      Forall (fun en => removes_from_disk (called en) = false) t1 /\
      Forall (fun en => removes_from_disk (called en) = false) t2.
Proof.
  intros Habs r p Hex.
  destruct (Prepare_removes _ _ _ _ _ _ _ _
              (run_outcome env (Prepare k pj phase branch assigner tag) w) p Hex)
    as (Hroot & t1 & dotGit & x & t2 & Ht & H1 & H2).
  split; [exact Hroot |]. exists t1, dotGit, x, t2. split; [| done].
  rewrite <- (local_path ("github.com/" +:+ org (k_github k) +:+ "/" +:+ gitHubRepository pj)).
  - rewrite !append_assoc_string. exact Ht.
  - by rewrite !append_assoc_string.
Qed.

Lemma Prepare_removes_only_its_clone_witness :
  exists t1 dotGit x t2,
    trace (run (tool_env [numbered_pr])
             (Prepare sample_plugin sample_project "staging" "main" sample_user "v2") tt)
    = t1 ++
      [Called (filepath_Join ["/var/gocat"; "github.com/zaiminc/api-config"])
         "/var/gocat/github.com/zaiminc/api-config";
       Called (filepath_Join ["/var/gocat/github.com/zaiminc/api-config"; ".git"]) dotGit;
       Called (os_Stat dotGit) None;
       Called (os_RemoveAll "/var/gocat/github.com/zaiminc/api-config") x] ++ t2.
Proof.
  destruct (Prepare_removes_only_its_clone (tool_env [numbered_pr]) tt sample_plugin
              sample_project "staging" "main" sample_user "v2" eq_refl
              "/var/gocat/github.com/zaiminc/api-config")
    as (_ & t1 & dotGit & x & t2 & Ht & _).
  { vm_compute. find_entry. }
  exists t1, dotGit, x, t2. exact Ht.
Defined.

(** ** What a tick deploys *)

Lemma checkAndDeploy_deploys a dp phase t u :
  outcome (checkAndDeploy a dp phase) t u ->
  (length (omap deploy_of t) <= 1)%nat /\
  (forall model pj ph opt x,
      Exists (fun en => deploy_of en = Some (model, pj, ph, opt, x)) t ->
      pj = dp /\ ph = Name phase /\ Wait opt = true /\
      Exists (fun en => en = Called (ModelList_Find (modelList a) (Kind phase)) (model, None))
        t /\
      Exists (fun en => en = Called (DefaultBranch dp) (opt_Branch opt)) t /\
      exists cur tag,
        cur <> tag /\
        Exists (fun en => revision_of en = Some (cur, None)) t /\
        Exists (fun en => registry_of en = Some (tag, None)) t) /\
  (forall c channel msg,
      Exists (fun en => post_of en = Some (c, channel, msg)) t ->
      c = client a /\ channel = NotifyChannel phase /\ channel <> "" /\
      Color msg = "#36a64f" /\
      Attachment_Title msg = ":white_check_mark: Succeed to auto deploy" /\
      (exists tag,
          Fields msg = [ {| Title := "Project"; Value := ID dp; Short := true |};
                         {| Title := "Phase"; Value := Name phase; Short := true |};
                         {| Title := "Tag"; Value := tag; Short := true |} ] /\
          Exists (fun en => registry_of en = Some (tag, None)) t) /\
      exists model opt h,
        Exists (fun en => deploy_of en = Some (model, dp, Name phase, opt, (h, None))) t).
Proof.
  intros H. unfold checkAndDeploy in H. outcome_inv H.
  all: split; [cbn; lia |].
  all: split;
    [ intros model pj ph opt res Hex; exists_inv Hex; simplify_eq;
      (do 3 (split; [done |]); split; [find_entry |]; split; [find_entry |];
       match goal with
       | Hb : bool_decide (?cur = ?tag) || isErr ?err = false |- _ =>
           apply orb_false_iff in Hb as [Hne Herr];
           apply bool_decide_eq_false in Hne;
           destruct err; [discriminate Herr |];
           exists cur, tag
       end;
       split; [done |]; split; find_entry)
    | intros c channel msg Hex; exists_inv Hex; simplify_eq;
      (do 2 (split; [done |]); split; [done |]; do 2 (split; [done |]);
       match goal with
       | Hb : bool_decide (?cur = ?tag) || isErr ?err = false |- _ =>
           apply orb_false_iff in Hb as [Hne Herr];
           destruct err; [discriminate Herr |]
       end;
       split; [eexists; split; [reflexivity | find_entry] |];
       eexists _, _, _; find_entry) ].
Qed.

(** X18. In every environment a tick of [checkAndDeploy] deploys at most
    once.  When it deploys, the two queries succeeded with different tags,
    the model is the one [Find] returned without error for the phase's
    kind, the project and the phase name are the tick's, and the options
    are the default branch, waiting.  When it notifies, a deployment has
    succeeded before, the channel is the phase's non-empty notify channel
    on the watcher's client, and the message is the green
    [Succeed to auto deploy] attachment with the project id, the phase
    name and the tag the registry answered. *)
Theorem checkAndDeploy_deploys_once {W} (env : Env W) (w : W) a dp phase :
  let t := trace (run env (checkAndDeploy a dp phase) w) in
  (length (omap deploy_of t) <= 1)%nat /\
  (forall model pj ph opt x,
      Exists (fun en => deploy_of en = Some (model, pj, ph, opt, x)) t ->
      pj = dp /\ ph = Name phase /\ Wait opt = true /\
      Exists (fun en => en = Called (ModelList_Find (modelList a) (Kind phase)) (model, None))
        t /\
      Exists (fun en => en = Called (DefaultBranch dp) (opt_Branch opt)) t /\
      exists cur tag,
        cur <> tag /\
        Exists (fun en => revision_of en = Some (cur, None)) t /\
        Exists (fun en => registry_of en = Some (tag, None)) t) /\
  (forall c channel msg,
      Exists (fun en => post_of en = Some (c, channel, msg)) t ->
      c = client a /\ channel = NotifyChannel phase /\ channel <> "" /\
      Color msg = "#36a64f" /\
      Attachment_Title msg = ":white_check_mark: Succeed to auto deploy" /\
      (exists tag,
          Fields msg = [ {| Title := "Project"; Value := ID dp; Short := true |};
                         {| Title := "Phase"; Value := Name phase; Short := true |};
                         {| Title := "Tag"; Value := tag; Short := true |} ] /\
          Exists (fun en => registry_of en = Some (tag, None)) t) /\
      exists model opt h,
        Exists (fun en => deploy_of en = Some (model, dp, Name phase, opt, (h, None))) t).
Proof.
  intros t.
  exact (checkAndDeploy_deploys _ _ _ _ _ (run_outcome env (checkAndDeploy a dp phase) w)).
Qed.

Lemma checkAndDeploy_deploys_once_witness :
  let t := trace (run new_tag_env (checkAndDeploy sample_watcher sample_project sample_phase)
                    tt) in
  exists opt,
    Exists (fun en => deploy_of en = Some (1%nat, sample_project, "staging", opt, (1%nat, None)))
      t /\
    opt_Branch opt = "main" /\ Wait opt = true.
Proof.
  intros t. eexists. split; [vm_compute; find_entry |].
  destruct (checkAndDeploy_deploys_once new_tag_env tt sample_watcher sample_project
              sample_phase) as (_ & Hdeploy & _).
  edestruct Hdeploy as (_ & _ & Hwait & _); [vm_compute; find_entry |].
  split; [reflexivity | exact Hwait].
Defined.

(** ** Phase aliases, again *)

(** X19. [toPhase] is idempotent, and the names it leaves unchanged are
    exactly [production], [staging] and [sandbox]. *)
Theorem toPhase_idempotent (str : string) :
  toPhase (toPhase str) = toPhase str /\
  (toPhase str = str <-> str = "production" \/ str = "staging" \/ str = "sandbox").
Proof.
  unfold toPhase.
  repeat match goal with
         | |- context [decide (str = ?s)] => destruct (decide (str = s)) as [-> | ?]
         end.
  all: split; [reflexivity |].
  all: split; [intros Heq; try discriminate Heq; first [tauto | exfalso; congruence] |].
  all: intros [Heq | [Heq | Heq]]; first [discriminate Heq | congruence | done].
Qed.

(** ** Creating the work branch, in every environment *)

Lemma createAndCheckoutNewBranch_outcome g b t r :
  outcome (createAndCheckoutNewBranch g b) t r ->
  (r.2 = None <-> Exists (fun en => checkout_of en = Some (r.1, true, b, None)) t) /\
  (r.2 = None ->
   Exists (fun en => en = Called (Repository_Worktree (repository g)) (r.1, None)) t /\
   Exists (fun en => checkout_of en = Some (r.1, false, mainRef g, None)) t) /\
  (is_Some r.2 -> r.1 = nil_handle) /\
  (forall name e,
      Exists (fun en => removed_of en = Some (name, Some e)) t ->
      Exists (fun en => called en
                        = fmt_Println [OStr "[ERROR] Failed to DeleteBranch: ";
                                       OErr (ErrNew (Error e))]) t /\
      Exists (fun en => exists x, en = Called (Repository_Worktree (repository g)) x) t).
Proof.
  intros H.
  unfold createAndCheckoutNewBranch, DeleteBranch, checkoutMainBranch, Clone,
    getLocalRepoRoot in H.
  fold (mainRef g) in H.
  outcome_inv H.
  all: split;
    [ split; [intros Hr; first [discriminate Hr | find_entry]
             | intros Hex; exists_inv Hex; done] |].
  all: split; [intros Hr; first [discriminate Hr | split; find_entry] |].
  all: split; [intros [e' He']; first [discriminate He' | done] |].
  all: intros name e' Hex; exists_inv Hex; simplify_eq;
    (split; [find_entry | find_some]).
Qed.

(** X20. In every environment [createAndCheckoutNewBranch] returns no error
    exactly when its checkout that creates the branch succeeded, and then
    it returns the working tree that [Worktree()] returned and on which
    the default branch was checked out before; with an error it returns no
    working tree.  A failure to remove the old reference is printed and
    the call goes on to the working tree all the same. *)
Theorem createAndCheckoutNewBranch_spec {W} (env : Env W) (w : W) (g : GitOperator)
    (b : string) :
  let r := run env (createAndCheckoutNewBranch g b) w in
  ((returned r).2 = None <->
   Exists (fun en => checkout_of en = Some ((returned r).1, true, b, None)) (trace r)) /\
  ((returned r).2 = None ->
   Exists (fun en => en = Called (Repository_Worktree (repository g)) ((returned r).1, None))
     (trace r) /\
   Exists (fun en => checkout_of en = Some ((returned r).1, false, mainRef g, None))
     (trace r)) /\
  (is_Some (returned r).2 -> (returned r).1 = nil_handle) /\
  (forall name e,
      Exists (fun en => removed_of en = Some (name, Some e)) (trace r) ->
      Exists (fun en => called en
                        = fmt_Println [OStr "[ERROR] Failed to DeleteBranch: ";
                                       OErr (ErrNew (Error e))]) (trace r) /\
      Exists (fun en => exists x, en = Called (Repository_Worktree (repository g)) x)
        (trace r)).
Proof. intros r. apply createAndCheckoutNewBranch_outcome, run_outcome. Qed.

Lemma createAndCheckoutNewBranch_spec_witness :
  let r := run locked_refs_env
             (createAndCheckoutNewBranch sample_operator "bot/docker-image-tag-api-staging-v2")
             tt in
  (returned r).2 = None /\
  Exists (fun en => called en
                    = fmt_Println [OStr "[ERROR] Failed to DeleteBranch: ";
                                   OErr (ErrNew "reference is locked")]) (trace r).
Proof.
  intros r.
  destruct (createAndCheckoutNewBranch_spec locked_refs_env tt sample_operator
              "bot/docker-image-tag-api-staging-v2") as (Hok & _ & _ & Hrm).
  split.
  - apply Hok. vm_compute. find_entry.
  - edestruct Hrm as [Hprint _]; [vm_compute; find_entry | exact Hprint].
Defined.

(** ** The image tag, again *)

Lemma retag_tagged o image :
  types.Name (retag o image) = targetTag o -> types.NewTag (retag o image) = tag o.
Proof.
  unfold retag. destruct (decide (types.Name image = targetTag o)); [done |].
  intros Hname. done.
Qed.

Lemma updateKustomization_spec o obj :
  (forall i image,
      types.Images obj !! i = Some image ->
      types.Images (updateKustomization o obj) !! i = Some (retag o image)) /\
  Forall (fun image => types.Name image = targetTag o -> types.NewTag image = tag o)
    (types.Images (updateKustomization o obj)) /\
  Exists (fun image => types.Name image = targetTag o /\ types.NewTag image = tag o)
    (types.Images (updateKustomization o obj)) /\
  (Exists (fun image => types.Name image = targetTag o) (types.Images obj) ->
   length (types.Images (updateKustomization o obj)) = length (types.Images obj)).
Proof.
  rewrite updateKustomization_Images.
  destruct (existsb _ _) eqn:Hex.
  - split; [| split; [| split]].
    + intros i image Hi. by rewrite list_lookup_fmap, Hi.
    + apply Forall_fmap. apply Forall_true. intros image. exact (retag_tagged o image).
    + apply existsb_exists in Hex as (image & Hin & Hname).
      apply bool_decide_eq_true in Hname.
      apply Exists_exists. exists (retag o image). split.
      * apply list_elem_of_fmap. exists image. split; [done |].
        by apply list_elem_of_In.
      * split; [by rewrite retag_Name |]. apply retag_tagged. by rewrite retag_Name.
    + intros _. by rewrite length_map.
  - split; [| split; [| split]].
    + intros i image Hi. apply lookup_app_l_Some. by rewrite list_lookup_fmap, Hi.
    + apply Forall_app. split.
      * apply Forall_fmap. apply Forall_true. intros image. exact (retag_tagged o image).
      * by repeat constructor.
    + apply Exists_app. right. by apply Exists_cons_hd.
    + intros Hsome. exfalso. apply Exists_exists in Hsome as (image & Hin & Hname).
      apply not_true_iff_false in Hex. apply Hex. apply existsb_exists.
      exists image. split; [by apply list_elem_of_In |]. by apply bool_decide_eq_true.
Qed.

Lemma KustomizationOverWrite_Update_outcome (o : KustomizationOverWrite) b t r :
  outcome (Update o b) t r ->
  exists obj err,
    omap decoded_of t = (if err is None then [(b, obj)] else []) /\
    length t = 1%nat /\
    match err with
    | Some e => r = (AnyNil, Some e)
    | None => r = (AnyKustomization (updateKustomization o obj), None)
    end.
Proof.
  intros H. unfold Update, KustomizationOverWrite_Update in H. outcome_inv H.
  all: match goal with k : types.Kustomization |- _ => exists k end.
  - by eexists (Some _).
  - by exists None.
Qed.

(** X21. In every environment [KustomizationOverWrite.Update] makes one
    call, the decoding, and returns its error when it fails.  Otherwise
    the manifest it returns has, at every position of the decoded image
    list, the decoded entry, with its tag set to [tag] when it is named
    [targetTag] and unchanged otherwise (its new name and digest are kept);
    every entry named [targetTag] is at [tag], there is at least one such
    entry, and the list has not grown when the decoded one already had
    one. *)
Theorem Update_sets_every_target {W} (env : Env W) (w : W) (o : KustomizationOverWrite)
    (b : bytes) :
  let r := run env (Update o b) w in
  exists obj err,
    omap decoded_of (trace r) = (if err is None then [(b, obj)] else []) /\
    length (trace r) = 1%nat /\
    match err with
    | Some e => returned r = (AnyNil, Some e)
    | None =>
        exists obj',
          returned r = (AnyKustomization obj', None) /\
          (forall i image,
              types.Images obj !! i = Some image ->
              types.Images obj' !! i = Some (retag o image)) /\
          Forall (fun image => types.Name image = targetTag o -> types.NewTag image = tag o)
            (types.Images obj') /\
          Exists (fun image => types.Name image = targetTag o /\ types.NewTag image = tag o)
            (types.Images obj') /\
          (Exists (fun image => types.Name image = targetTag o) (types.Images obj) ->
           length (types.Images obj') = length (types.Images obj))
    end.
Proof.
  intros r.
  destruct (KustomizationOverWrite_Update_outcome o b _ _ (run_outcome env (Update o b) w))
    as (obj & err & Hdec & Hlen & Hr).
  exists obj, err. split; [exact Hdec |]. split; [exact Hlen |].
  destruct err as [e |]; [exact Hr |].
  exists (updateKustomization o obj). split; [exact Hr |]. apply updateKustomization_spec.
Qed.

Lemma Update_sets_every_target_witness :
  exists obj',
    returned (run (manifest_env stale_manifest) (Update sample_overwrite "images: ...") tt)
    = (AnyKustomization obj', None) /\
    types.Images obj' !! 0%nat
    = Some {| types.Name := "app"; types.NewName := "registry/app"; types.NewTag := "v2";
              types.Digest := "" |} /\
    types.Images obj' !! 2%nat
    = Some {| types.Name := "app"; types.NewName := ""; types.NewTag := "v2";
              types.Digest := "" |}.
Proof.
  destruct (Update_sets_every_target (manifest_env stale_manifest) tt sample_overwrite
              "images: ...") as (obj & err & Hdec & _ & H).
  destruct err as [e |]; [discriminate Hdec |].
  injection Hdec as <-.
  destruct H as (obj' & Hr & Hat & _).
  exists obj'. split; [exact Hr |].
  split; [exact (Hat 0%nat _ eq_refl) | exact (Hat 2%nat _ eq_refl)].
Defined.

(** ** Rewriting the config map *)

Lemma commit_Memcached_outcome g wt path (o : MemcachedOverWrite) t r :
  outcome (commit g wt path o) t r ->
  forall v x,
    Exists (fun en => marshalled_of en = Some (v, x)) t ->
    exists file b obj obj',
      Exists (fun en => en = Called (Filesystem_Open wt path) (file, None)) t /\
      Exists (fun en => en = Called (io_ReadAll file) (b, None)) t /\
      Exists (fun en => en = Called (yaml_Unmarshal_ConfigMap b) (obj, None)) t /\
      v = AnyConfigMap obj' /\
      APIVersion obj' = APIVersion obj /\
      ConfigMap_Kind obj' = ConfigMap_Kind obj /\
      Metadata obj' = Metadata obj /\
      (forall key, is_Some (Data obj' !! key) <-> is_Some (Data obj !! key)) /\
      (forall key, key <> "MEMCACHED_PREFIX" -> Data obj' !! key = Data obj !! key) /\
      (forall now : string,
          Data obj' !! "MEMCACHED_PREFIX" = Some now ->
          Exists (fun en => en = Called (time_Now_Format "2006-01-02T15:04:05") now) t) /\
      (r = None -> exists rb, x = (rb, None) /\ written t = [rb; newline]).
Proof.
  intros H. unfold commit, logged in H. outcome_inv H.
  all: try (intros v res Hex; exists_inv Hex; fail).
  apply outcome_bind in H as ([any' uerr] & tU & t2 & -> & HU & H).
  apply MemcachedOverWrite_Update_outcome in HU as (obj & err & t' & -> & HU).
  destruct err as [e |].
  { destruct HU as [[= -> ->] ->]. outcome_inv H. intros v res Hex. trace_inv Hex. }
  destruct HU as (obj' & [= -> ->] & Hapi & Hkind & Hmeta & Hkeys & Hframe & Habsent & Hpresent).
  assert (Hclock : forall now : string,
             Data obj' !! "MEMCACHED_PREFIX" = Some now ->
             t' = [Called (time_Now_Format "2006-01-02T15:04:05") now]).
  { intros now Hnow. destruct (Data obj !! "MEMCACHED_PREFIX") as [old |] eqn:HK.
    - destruct Hpresent as (now' & -> & Hnow'); [by eexists |].
      assert (now' = now) as -> by congruence. done.
    - destruct (Habsent eq_refl) as [-> ->]. congruence. }
  assert (Hquiet : Forall (fun en => marshalled_of en = None /\ written_of en = None) t').
  { destruct (Data obj !! "MEMCACHED_PREFIX") as [old |] eqn:HK.
    - destruct Hpresent as (now' & -> & Hnow'); [by eexists |]. by repeat constructor.
    - destruct (Habsent eq_refl) as [_ ->]. constructor. }
  clear Habsent Hpresent.
  assert (Hw : omap written_of t' = []).
  { clear Hclock. induction Hquiet as [| en l [_ Hen] _ IH]; [done |].
    cbn [omap list_omap]. by rewrite Hen. }
  outcome_inv H.
  all: intros v res Hex; trace_inv Hex.
  all: try (exfalso; apply Exists_exists in Hex as (en & Hin & Hen);
            rewrite Forall_forall in Hquiet; destruct (Hquiet en Hin) as [Hn _];
            congruence).
  all: simplify_eq.
  all: exists h, b, obj, obj'.
  all: do 3 (split; [find_called |]).
  all: split; [done |]; do 3 (split; [done |]).
  all: split; [exact Hkeys |]; split; [exact Hframe |].
  all: split; [intros now Hnow; rewrite (Hclock now Hnow); find_called |].
  all: intros Hr; try discriminate Hr.
  all: eexists; split; [reflexivity |].
  all: unfold written; cbn [app];
    cbn [omap list_omap written_of on_entry called answer];
    rewrite omap_app, Hw; reflexivity.
Qed.

(** X22. In every environment, whenever [commit] with the cache-prefix
    overwrite marshals a value: the value is the config map decoded from
    the bytes read from the opened file, with the same API version, kind,
    metadata and data keys, and the same data values except for that of
    [MEMCACHED_PREFIX], which, when present, is what the clock answered;
    and when [commit] returns no error, what it wrote to the file is
    exactly the marshalled bytes followed by a newline. *)
Theorem commit_refreshes_prefix {W} (env : Env W) (w : W) (g : GitOperator) (wt : handle)
    (path : string) (o : MemcachedOverWrite) :
  let r := run env (commit g wt path o) w in
  forall v x,
    Exists (fun en => marshalled_of en = Some (v, x)) (trace r) ->
    exists file b obj obj',
      Exists (fun en => en = Called (Filesystem_Open wt path) (file, None)) (trace r) /\
      Exists (fun en => en = Called (io_ReadAll file) (b, None)) (trace r) /\
      Exists (fun en => en = Called (yaml_Unmarshal_ConfigMap b) (obj, None)) (trace r) /\
      v = AnyConfigMap obj' /\
      APIVersion obj' = APIVersion obj /\
      ConfigMap_Kind obj' = ConfigMap_Kind obj /\
      Metadata obj' = Metadata obj /\
      (forall key, is_Some (Data obj' !! key) <-> is_Some (Data obj !! key)) /\
      (forall key, key <> "MEMCACHED_PREFIX" -> Data obj' !! key = Data obj !! key) /\
      (forall now : string,
          Data obj' !! "MEMCACHED_PREFIX" = Some now ->
          Exists (fun en => en = Called (time_Now_Format "2006-01-02T15:04:05") now)
            (trace r)) /\
      (returned r = None -> exists rb, x = (rb, None) /\ written (trace r) = [rb; newline]).
Proof.
  intros r. apply (commit_Memcached_outcome g wt path o), run_outcome.
Qed.

Lemma commit_refreshes_prefix_witness :
  let r := run configmap_env
             (commit sample_operator 1%nat "overlays/staging/configmap.yaml"
                Build_MemcachedOverWrite) tt in
  exists obj',
    Exists (fun en => marshalled_of en = Some (AnyConfigMap obj', ("", None))) (trace r) /\
    Data obj' !! "MEMCACHED_PREFIX" = Some "2026-11-03T10:00:00" /\
    Data obj' !! "LOG_LEVEL" = Some "info" /\
    written (trace r) = [""; newline].
Proof.
  intros r. eexists. split; [vm_compute; find_entry |].
  split; [by vm_compute |]. split; [by vm_compute |].
  edestruct (commit_refreshes_prefix configmap_env tt sample_operator 1%nat
               "overlays/staging/configmap.yaml" Build_MemcachedOverWrite)
    as (file & b & obj & obj' & _ & _ & _ & _ & _ & _ & _ & _ & _ & _ & Hw);
    [vm_compute; find_entry |].
  destruct (Hw eq_refl) as (rb & [= <-] & Hwritten). exact Hwritten.
Defined.
